(** * rush generate: a shallow embedding of [GenerateAction.ts]

    The development follows src/rush/rush/src/actions/GenerateAction.ts.
    Pure data (the in-memory [commonPackageJson], the sorted project
    list) is modelled by total functions; the file system, the console
    and the calls made to collaborators are threaded through a small
    reader/state/exception monad [M].

    Contents: strings and paths; JavaScript objects and [sort]; the
    configuration; the world and the monad; the library calls; the
    functions of [GenerateAction]; concrete workspaces; the properties;
    then the proofs, claim by claim, followed by further properties of
    the same functions (X1 to X17). *)

From Stdlib Require Import ZArith String Ascii List Lia Permutation Sorted.
From stdpp Require Import base option list gmap strings fin_maps.

Open Scope string_scope.
Open Scope list_scope.

(* ===================================================================== *)
(** ** Strings, paths *)
(* ===================================================================== *)

(** The double-quote character, used inside console messages, and the
    backslash. *)
Definition dq : string := String (ascii_of_nat 34) EmptyString.
Definition backslash : string := String (ascii_of_nat 92) EmptyString.

(** A path is the list of its segments: [path.join(p, s)] appends one
    segment.  Separator normalisation ([Utilities.getAllReplaced]) and
    [globEscape] act on the textual form only and are the identity on
    segment lists. *)
Abbreviation path := (list string) (only parsing).

Definition path_join (p : path) (s : string) : path := p ++ [s].

Definition getAllReplaced (p : path) (_ _ : string) : path := p.
Definition globEscape (p : path) : path := p.

(** [Array.prototype.join]. *)
Definition array_join (sep : string) (l : list string) : string :=
  String.concat sep l.

(** JavaScript truthiness of an optional string property. *)
Definition truthy (o : option string) : bool :=
  match o with
  | Some s => negb (String.eqb s EmptyString)
  | None => false
  end.

(* ===================================================================== *)
(** ** JavaScript objects used as string dictionaries *)
(* ===================================================================== *)

(** An object literal [{}] filled by assignments [o[k] = v].  The list is
    the object's own-property order, which is also the order in which
    [JSON.stringify] prints the keys: keys that are array indices come
    first in ascending numeric order, every other key follows in the
    order of its first assignment.  Assigning to an existing key replaces
    the value and keeps the position. *)
Definition JsObject := list (string * string).

Definition digit_of (c : ascii) : option N :=
  let n := N_of_ascii c in
  if ((48 <=? n) && (n <=? 57))%N then Some (n - 48)%N else None.

Fixpoint digits_value (s : string) (acc : N) : option N :=
  match s with
  | EmptyString => Some acc
  | String c s' =>
      match digit_of c with
      | Some d => digits_value s' (10 * acc + d)%N
      | None => None
      end
  end.

(** A canonical numeric string below [2^32 - 1]. *)
Definition array_index (s : string) : option N :=
  match s with
  | EmptyString => None
  | String c rest =>
      if (Ascii.eqb c "0" && negb (String.eqb rest EmptyString))%bool then None
      else match digits_value s 0 with
           | Some n => if (n <? 2 ^ 32 - 1)%N then Some n else None
           | None => None
           end
  end.

Fixpoint obj_get (o : JsObject) (k : string) : option string :=
  match o with
  | [] => None
  | (k', v) :: o' => if String.eqb k' k then Some v else obj_get o' k
  end.

Definition obj_has (o : JsObject) (k : string) : bool :=
  match obj_get o k with Some _ => true | None => false end.

Fixpoint obj_replace (o : JsObject) (k v : string) : JsObject :=
  match o with
  | [] => []
  | (k', v') :: o' =>
      if String.eqb k' k then (k', v) :: o' else (k', v') :: obj_replace o' k v
  end.

(** Position of a new array-index key [n]: before the first key that is
    not an array index or is a larger one. *)
Fixpoint obj_insert_index (o : JsObject) (n : N) (k v : string) : JsObject :=
  match o with
  | [] => [(k, v)]
  | (k', v') :: o' =>
      match array_index k' with
      | Some n' =>
          if (n <? n')%N then (k, v) :: (k', v') :: o'
          else (k', v') :: obj_insert_index o' n k v
      | None => (k, v) :: (k', v') :: o'
      end
  end.

(** [o[k] = v]. *)
Definition obj_set (o : JsObject) (k v : string) : JsObject :=
  if obj_has o k then obj_replace o k v
  else match array_index k with
       | Some n => obj_insert_index o n k v
       | None => o ++ [(k, v)]
       end.

(* ===================================================================== *)
(** ** Array.prototype.sort *)
(* ===================================================================== *)

(** [sort] with a comparison function, as a stable insertion sort: an
    element is placed before the first element it does not exceed.  The
    results below use that the outcome is sorted and a rearrangement of
    the input; elements that compare equal keep their order here. *)
Fixpoint sort_insert {A} (cmp : A → A → Z) (x : A) (l : list A) : list A :=
  match l with
  | [] => [x]
  | y :: l' =>
      if (cmp x y <=? 0)%Z then x :: y :: l' else y :: sort_insert cmp x l'
  end.

Definition array_sort {A} (cmp : A → A → Z) (l : list A) : list A :=
  foldr (sort_insert cmp) [] l.

(* ===================================================================== *)
(** ** Configuration and manifests *)
(* ===================================================================== *)

(** [PackageJson]: the members this command reads or writes. *)
Record PackageJson := {
  dependencies : JsObject;
  description : string;
  name : string;
  private : bool;
  version : string
}.

Record RushConfigurationProject := {
  packageName : string;
  tempProjectName : string;
  packageJson : PackageJson
}.

(** [pinnedVersions] is a JavaScript [Map]: its entries in insertion
    order.  A [Map] holds each key once ([pinned_wf]). *)
Record RushConfiguration := {
  commonFolder : path;
  tempModulesFolder : path;
  npmToolFilename : string;
  cacheFolder : option string;
  tmpFolder : option string;
  pinnedVersions : list (string * string);
  projects : list RushConfigurationProject;
  packageReviewFile : option string
}.

Definition pinned_wf (cfg : RushConfiguration) : Prop :=
  NoDup (map fst (pinnedVersions cfg)).

(** [commonPackageJson.dependencies[k] = v]. *)
Definition set_dependency (pj : PackageJson) (k v : string) : PackageJson :=
  {| dependencies := obj_set (dependencies pj) k v;
     description := description pj;
     name := name pj;
     private := private pj;
     version := version pj |}.

(** Lines 72-78. *)
Definition emptyCommonPackageJson : PackageJson :=
  {| dependencies := [];
     description := "Temporary file generated by the Rush tool";
     name := "rush-common";
     private := true;
     version := "0.0.0" |}.

(** Lines 81-83: [pinnedVersions.forEach((version, dependency) => ...)]. *)
Definition addPinnedVersions (pinned : list (string * string))
    (pj : PackageJson) : PackageJson :=
  foldl (λ acc e, set_dependency acc (fst e) (snd e)) pj pinned.

(** Lines 89-92: a copy of [projects] sorted by [tempProjectName]. *)
Definition sortedRushProjects (localeCompare : string → string → Z)
    (ps : list RushConfigurationProject) : list RushConfigurationProject :=
  array_sort (λ a b, localeCompare (tempProjectName a) (tempProjectName b)) ps.

(** Line 104: the value stored for a temp project. *)
Definition tempModuleReference (tempProjectName : string) : string :=
  "file:./temp_modules/" +:+ tempProjectName.

(* ===================================================================== *)
(** ** The world: file system, recycler, trace *)
(* ===================================================================== *)

(** What a path holds.  A JSON file written by [JsonFile.saveJsonFile]
    keeps the document it was given; [None] is JavaScript's [undefined]. *)
Inductive node :=
| Dir
| JsonDoc (doc : option PackageJson)
| RawFile (content : string).

(** The file system maps each existing path to its node; the entries of
    a directory [d] are the paths [d ++ [n]]. *)
Abbreviation FS := (gmap (list string) node).

Definition fs_wf (f : FS) : Prop :=
  ∀ p n, is_Some (f !! (p ++ [n])) → f !! p = Some Dir.

Definition parent (p : path) : path := removelast p.

Definition is_dir (o : option node) : bool :=
  match o with Some Dir => true | _ => false end.

Definition exists_at (f : FS) (p : path) : bool :=
  match f !! p with Some _ => true | None => false end.

(** Everything at or below [p] is removed / kept. *)
Definition remove_tree (p : path) (f : FS) : FS :=
  filter (λ kv, ¬ p `prefix_of` kv.1) f.

Definition subtree (p : path) (f : FS) : FS :=
  filter (λ kv, p `prefix_of` kv.1) f.

(** Nothing exists at or below [p]. *)
Definition absent (p : path) (f : FS) : Prop :=
  ∀ q, p `prefix_of` q → f !! q = None.

(** The spec's six stages (section 4.6). *)
Inductive Stage :=
| StLoad
| StCleanNodeModules
| StDeleteLockArtifact
| StDeleteTempModulesRoot
| StRecreateAndPopulate
| StInstallFreeze.

(** Calls that leave the process, in the order they are made.  The two
    stage brackets are ghost events: they mark where [onExecute] enters
    and leaves a stage and correspond to no call. *)
Inductive Event :=
| EvLog (line : string)
| EvStageBegin (s : Stage)
| EvStageEnd (s : Stage)
| EvLoadFromDefaultLocation
| EvNewPackageReviewChecker
| EvSaveCurrentDependencies
| EvExistsSync (p : path)
| EvGlobSync (dir : path) (pattern : string)
| EvRecycleDirectory (p : path)
| EvDangerouslyDeletePath (p : path)
| EvMkdirSync (p : path)
| EvNewTempModuleGenerator
| EvSaveJsonFile (data : option PackageJson) (p : path)
| EvEnsureLocalNpmTool
| EvExecuteCommand (tool : string) (args : list string) (cwd : path).

Inductive Error :=
| ConfigurationError
| ManifestError
| FilesystemError
| ToolMissingError
| ProcessExitError
| ReviewError.

Inductive Result (A : Type) :=
| Ok (a : A)
| Throw (e : Error).
Arguments Ok {A} a.
Arguments Throw {A} e.

Record World := {
  fs : FS;
  recycled : list (path * FS);
  trace : list Event
}.

(** The collaborators of the command: everything [GenerateAction.ts]
    imports and calls but does not define.  [fs_fault n] tells whether
    the file-system call made as the [n]-th event of the run fails for a
    reason outside the program (a lock, a permission).  [maxAttempts]
    bounds the attempts of [createFolderWithRetry]. *)
Record Env := {
  localeCompare : string → string → Z;
  os_EOL : string;
  stopwatch_toString : string;
  maxAttempts : nat;
  fs_fault : nat → bool;
  loadFromDefaultLocation : FS → Result RushConfiguration;
  newPackageReviewChecker : RushConfiguration → FS → Result unit * FS;
  saveCurrentDependencies : RushConfiguration → FS → Result unit * FS;
  newTempModuleGenerator : RushConfiguration → Result (gmap string PackageJson);
  ensureLocalNpmTool : RushConfiguration → bool → FS → Result unit * FS;
  executeCommand : string → list string → path → FS → Result unit * FS
}.

(* ===================================================================== *)
(** ** The monad *)
(* ===================================================================== *)

(** A computation reads the collaborators, updates the world and either
    returns or throws; what was done before a throw stays done. *)
Definition M (A : Type) : Type := Env → World → Result A * World.

#[global] Instance M_ret : MRet M := λ A a _ w, (Ok a, w).

#[global] Instance M_bind : MBind M := λ A B f m env w,
  match m env w with
  | (Ok a, w') => f a env w'
  | (Throw e, w') => (Throw e, w')
  end.

Definition throw {A} (e : Error) : M A := λ _ w, (Throw e, w).

Definition try_catch {A} (m : M A) (h : Error → M A) : M A := λ env w,
  match m env w with
  | (Ok a, w') => (Ok a, w')
  | (Throw e, w') => h e env w'
  end.

Definition ask : M Env := λ env w, (Ok env, w).

Definition get_fs : M FS := λ _ w, (Ok (fs w), w).

Definition set_fs (f : FS) (w : World) : World :=
  {| fs := f; recycled := recycled w; trace := trace w |}.

Definition add_event (e : Event) (w : World) : World :=
  {| fs := fs w; recycled := recycled w; trace := trace w ++ [e] |}.

Definition put_fs (f : FS) : M unit := λ _ w, (Ok tt, set_fs f w).

Definition emit (e : Event) : M unit := λ _ w, (Ok tt, add_event e w).

(** A file-system call that can fail: the call is recorded, then the
    environment decides whether this very call fails. *)
Definition fs_call (e : Event) : M unit := λ env w,
  if fs_fault env (length (trace w)) then (Throw FilesystemError, add_event e w)
  else (Ok tt, add_event e w).

(** A call to a collaborator that works on the file system. *)
Definition call (e : Event) (f : Env → FS → Result unit * FS) : M unit :=
  λ env w,
  let r := f env (fs w) in
  (r.1, add_event e (set_fs r.2 w)).

(** [for (const x of l) body(x)]. *)
Fixpoint for_of {A} (l : list A) (body : A → M unit) : M unit :=
  match l with
  | [] => mret tt
  | x :: l' => body x;; for_of l' body
  end.

(** A loop that updates a local variable. *)
Fixpoint for_of_acc {A S} (l : list A) (body : S → A → M S) (s : S) : M S :=
  match l with
  | [] => mret s
  | x :: l' => s' ← body s x; for_of_acc l' body s'
  end.

(* ===================================================================== *)
(** ** Library calls *)
(* ===================================================================== *)

(** [console.log]. *)
Definition console_log (line : string) : M unit := emit (EvLog line).

(** [colors.bold], [colors.green]: ANSI escape sequences. *)
Definition esc : string := String (ascii_of_nat 27) EmptyString.
Definition colors_bold (s : string) : string := esc +:+ "[1m" +:+ s +:+ esc +:+ "[22m".
Definition colors_green (s : string) : string := esc +:+ "[32m" +:+ s +:+ esc +:+ "[39m".

(** [fsx.existsSync]: never throws. *)
Definition existsSync (p : path) : M bool :=
  emit (EvExistsSync p);;
  f ← get_fs;
  mret (exists_at f p).

(** [fsx.mkdirSync]: the path must be free and its parent a directory. *)
Definition mkdirSync (p : path) : M unit :=
  fs_call (EvMkdirSync p);;
  f ← get_fs;
  if exists_at f p then throw FilesystemError
  else if is_dir (f !! parent p) then put_fs (<[p := Dir]> f)
  else throw FilesystemError.

(** A glob pattern over one name: [*] matches any run of characters,
    every other character matches itself. *)
Fixpoint wildcard_match (pat s : string) : bool :=
  match pat with
  | EmptyString => match s with EmptyString => true | _ => false end
  | String c pat' =>
      if Ascii.eqb c "*" then
        (fix star (s : string) : bool :=
           wildcard_match pat' s
           || match s with
              | EmptyString => false
              | String _ s' => star s'
              end) s
      else
        match s with
        | EmptyString => false
        | String d s' => Ascii.eqb c d && wildcard_match pat' s'
        end
  end.

(** The name of [q] when [q] is an entry of [dir]. *)
Fixpoint entry_name (dir q : path) : option string :=
  match dir, q with
  | [], [n] => Some n
  | d :: dir', s :: q' => if String.eqb d s then entry_name dir' q' else None
  | _, _ => None
  end.

Definition glob_names (dir : path) (pattern : string) (f : FS) : list string :=
  omap (λ kv, match entry_name dir kv.1 with
              | Some n => if wildcard_match pattern n then Some n else None
              | None => None
              end) (map_to_list f).

(** [glob.sync(dir + '/' + pattern)]: the entries of [dir] whose name
    matches, in alphabetical order; an unreadable or missing directory
    gives no match. *)
Definition glob_sync (dir : path) (pattern : string) : M (list path) :=
  emit (EvGlobSync dir pattern);;
  env ← ask;
  f ← get_fs;
  mret (map (path_join dir) (array_sort (localeCompare env) (glob_names dir pattern f))).

(** The tree at [p] leaves the file system and is kept by the recycler. *)
Definition move_aside (p : path) : M unit := λ _ w,
  (Ok tt, {| fs := remove_tree p (fs w);
             recycled := recycled w ++ [(p, subtree p (fs w))];
             trace := trace w |}).

(** Modelled from the spec: [AsyncRecycle.recycleDirectory] is not in the
    sources at hand.  "Recycle: moving a directory aside instead of
    synchronously removing it". *)
Definition recycleDirectory (cfg : RushConfiguration) (p : path) : M unit :=
  fs_call (EvRecycleDirectory p);;
  f ← get_fs;
  if exists_at f p then move_aside p else throw FilesystemError.

(** Modelled from the spec: [Utilities.dangerouslyDeletePath] is not in
    the sources at hand.  "removes the temp-modules directory wholesale":
    an ordinary recursive delete. *)
Definition dangerouslyDeletePath (p : path) : M unit :=
  fs_call (EvDangerouslyDeletePath p);;
  f ← get_fs;
  put_fs (remove_tree p f).

(** Modelled from the spec: [Utilities.createFolderWithRetry] is not in
    the sources at hand.  "transient filesystem errors are retried up to
    a bounded attempt count; exhausting retries is fatal". *)
Fixpoint createFolderAttempts (n : nat) (p : path) : M unit :=
  match n with
  | O => throw FilesystemError
  | S n' => try_catch (mkdirSync p) (λ _, createFolderAttempts n' p)
  end.

Definition createFolderWithRetry (p : path) : M unit :=
  env ← ask;
  createFolderAttempts (maxAttempts env) p.

(** Modelled from the spec: [JsonFile.saveJsonFile] is not in the sources
    at hand.  It writes the document it is given at the path; the
    directory of the file must exist. *)
Definition saveJsonFile (data : option PackageJson) (p : path) : M unit :=
  fs_call (EvSaveJsonFile data p);;
  f ← get_fs;
  if is_dir (f !! p) then throw FilesystemError
  else if is_dir (f !! parent p) then put_fs (<[p := JsonDoc data]> f)
  else throw FilesystemError.

(** [new TempModuleGenerator(rushConfiguration).tempModules]. *)
Definition tempModulesOf (cfg : RushConfiguration) : M (gmap string PackageJson) :=
  emit EvNewTempModuleGenerator;;
  env ← ask;
  match newTempModuleGenerator env cfg with
  | Ok tm => mret tm
  | Throw e => throw e
  end.

(** [RushConfiguration.loadFromDefaultLocation()]. *)
Definition loadConfiguration : M RushConfiguration :=
  emit EvLoadFromDefaultLocation;;
  env ← ask;
  f ← get_fs;
  match loadFromDefaultLocation env f with
  | Ok cfg => mret cfg
  | Throw e => throw e
  end.

(* ===================================================================== *)
(** ** GenerateAction *)
(* ===================================================================== *)

(** Lines 32-50. *)
Definition _deleteCommonNodeModules (rushConfiguration : RushConfiguration)
    (isLazy : bool) : M unit :=
  let nodeModulesPath := path_join (commonFolder rushConfiguration) "node_modules" in
  if isLazy then
    console_log "Deleting common/node_modules/rush-*";;
    let normalizedPath := getAllReplaced nodeModulesPath backslash "/" in
    matches ← glob_sync (globEscape normalizedPath) "rush-*";
    for_of matches (λ tempModulePath,
      recycleDirectory rushConfiguration tempModulePath)
  else
    found ← existsSync nodeModulesPath;
    if (found : bool) then
      console_log "Deleting common/node_modules folder...";;
      recycleDirectory rushConfiguration nodeModulesPath
    else mret tt.

(** Lines 52-57. *)
Definition _deleteCommonTempModules (rushConfiguration : RushConfiguration) : M unit :=
  found ← existsSync (tempModulesFolder rushConfiguration);
  if (found : bool) then
    console_log "Deleting common/temp_modules folder";;
    dangerouslyDeletePath (tempModulesFolder rushConfiguration)
  else mret tt.

(** Lines 59-66. *)
Definition _deleteShrinkwrapFile (rushConfiguration : RushConfiguration) : M unit :=
  let shrinkwrapFilename := path_join (commonFolder rushConfiguration) "npm-shrinkwrap.json" in
  found ← existsSync shrinkwrapFilename;
  if (found : bool) then
    console_log "Deleting common/npm-shrinkwrap.json";;
    dangerouslyDeletePath shrinkwrapFilename
  else mret tt.

(** Lines 96-109: one turn of the loop over [sortedRushProjects]. *)
Definition createTempProject (rushConfiguration : RushConfiguration)
    (tempModules : gmap string PackageJson)
    (commonPackageJson : PackageJson) (rushProject : RushConfigurationProject)
    : M PackageJson :=
  let tempProjectName := tempProjectName rushProject in
  let tempProjectFolder := path_join (tempModulesFolder rushConfiguration) tempProjectName in
  mkdirSync tempProjectFolder;;
  let commonPackageJson :=
    set_dependency commonPackageJson tempProjectName (tempModuleReference tempProjectName) in
  let tempPackageJsonFilename := path_join tempProjectFolder "package.json" in
  saveJsonFile (tempModules !! packageName rushProject) tempPackageJsonFilename;;
  mret commonPackageJson.

(** Lines 68-114. *)
Definition _createCommonTempModulesAndPackageJson
    (rushConfiguration : RushConfiguration) : M unit :=
  console_log "Creating a clean common/temp_modules folder";;
  createFolderWithRetry (tempModulesFolder rushConfiguration);;
  let commonPackageJson := emptyCommonPackageJson in
  let commonPackageJson :=
    addPinnedVersions (pinnedVersions rushConfiguration) commonPackageJson in
  console_log "Creating temp projects...";;
  env ← ask;
  let sortedRushProjects :=
    sortedRushProjects (localeCompare env) (projects rushConfiguration) in
  tempModules ← tempModulesOf rushConfiguration;
  commonPackageJson ←
    for_of_acc sortedRushProjects
      (createTempProject rushConfiguration tempModules) commonPackageJson;
  console_log "Writing common/package.json";;
  let commonPackageJsonFilename := path_join (commonFolder rushConfiguration) "package.json" in
  saveJsonFile (Some commonPackageJson) commonPackageJsonFilename.

(** [args.push(flag, value)] guarded by [if (value)]. *)
Definition push_if_set (flag : string) (value : option string)
    (args : list string) : list string :=
  if truthy value then args ++ [flag; default EmptyString value] else args.

(** Lines 116-131. *)
Definition _runNpmInstall (rushConfiguration : RushConfiguration) : M unit :=
  let npmInstallArgs := ["install"] in
  let npmInstallArgs := push_if_set "--cache" (cacheFolder rushConfiguration) npmInstallArgs in
  let npmInstallArgs := push_if_set "--tmp" (tmpFolder rushConfiguration) npmInstallArgs in
  env ← ask;
  console_log (os_EOL env +:+
    colors_bold ("Running " +:+ dq +:+ "npm " +:+ array_join " " npmInstallArgs +:+ dq +:+ "..."));;
  call (EvExecuteCommand (npmToolFilename rushConfiguration) npmInstallArgs
          (commonFolder rushConfiguration))
       (λ env, executeCommand env (npmToolFilename rushConfiguration) npmInstallArgs
                 (commonFolder rushConfiguration));;
  console_log (dq +:+ "npm install" +:+ dq +:+ " completed" +:+ os_EOL env).

Definition skip_notice (env : Env) : string :=
  os_EOL env +:+ colors_bold ("(Skipping " +:+ dq +:+ "npm shrinkwrap" +:+ dq +:+ ")")
  +:+ os_EOL env.

(** Lines 133-144. *)
Definition _runNpmShrinkWrap (rushConfiguration : RushConfiguration)
    (isLazy : bool) : M unit :=
  env ← ask;
  if isLazy then
    console_log (skip_notice env)
  else
    console_log (os_EOL env +:+
      colors_bold ("Running " +:+ dq +:+ "npm shrinkwrap" +:+ dq +:+ "..."));;
    call (EvExecuteCommand (npmToolFilename rushConfiguration) ["shrinkwrap"]
            (commonFolder rushConfiguration))
         (λ env, executeCommand env (npmToolFilename rushConfiguration) ["shrinkwrap"]
                   (commonFolder rushConfiguration));;
    console_log (dq +:+ "npm shrinkwrap" +:+ dq +:+ " completed" +:+ os_EOL env).

(** A stage of the pipeline, between its two ghost brackets. *)
Definition stage {A} (s : Stage) (m : M A) : M A :=
  emit (EvStageBegin s);;
  a ← m;
  emit (EvStageEnd s);;
  mret a.

(** Lines 168-177: load the configuration, snapshot the dependencies. *)
Definition loadAndSnapshot : M RushConfiguration :=
  rushConfiguration ← loadConfiguration;
  env ← ask;
  console_log ("Starting " +:+ dq +:+ "rush generate" +:+ dq +:+ os_EOL env);;
  (if truthy (packageReviewFile rushConfiguration) then
     call EvNewPackageReviewChecker (λ env, newPackageReviewChecker env rushConfiguration);;
     call EvSaveCurrentDependencies (λ env, saveCurrentDependencies env rushConfiguration)
   else mret tt);;
  mret rushConfiguration.

(** Lines 191-198: the npm tool, then install and shrinkwrap. *)
Definition installAndFreeze (rushConfiguration : RushConfiguration)
    (isLazy : bool) : M unit :=
  console_log EmptyString;;
  call EvEnsureLocalNpmTool (λ env, ensureLocalNpmTool env rushConfiguration false);;
  _runNpmInstall rushConfiguration;;
  _runNpmShrinkWrap rushConfiguration isLazy.

(** Lines 167-203.  [lazyParameter] is [this._lazyParameter.value]. *)
Definition onExecute (lazyParameter : bool) : M unit :=
  rushConfiguration ← stage StLoad loadAndSnapshot;
  stage StCleanNodeModules (_deleteCommonNodeModules rushConfiguration lazyParameter);;
  stage StDeleteLockArtifact (_deleteShrinkwrapFile rushConfiguration);;
  stage StDeleteTempModulesRoot (_deleteCommonTempModules rushConfiguration);;
  stage StRecreateAndPopulate (_createCommonTempModulesAndPackageJson rushConfiguration);;
  stage StInstallFreeze (installAndFreeze rushConfiguration lazyParameter);;
  env ← ask;
  console_log (os_EOL env +:+
    colors_green ("Rush generate finished successfully. (" +:+ stopwatch_toString env +:+ ")"));;
  console_log (os_EOL env +:+ "Next you should probably run: " +:+ dq +:+ "rush link" +:+ dq).

(* ===================================================================== *)
(** ** A concrete workspace *)
(* ===================================================================== *)

(** Code-unit comparison of two strings: what [localeCompare] gives on
    lower-case ASCII names that differ in a letter or digit. *)
Definition compare_code_units (a b : string) : Z :=
  match String.compare a b with
  | Lt => (-1)%Z
  | Eq => 0%Z
  | Gt => 1%Z
  end.

Definition manifest_of (n : string) (deps : JsObject) : PackageJson :=
  {| dependencies := deps; description := EmptyString; name := n;
     private := false; version := "1.0.0" |}.

(** Modelled from the spec: the Temp-Module Generator (section 4.2, not
    in the sources at hand): "for each project, clone its manifest,
    rewrite its declared name to the project's temp alias, and retain
    its dependency ranges unmodified", keyed by the real package name. *)
Definition specTempModules (cfg : RushConfiguration) : gmap string PackageJson :=
  list_to_map
    (map (λ p, (packageName p,
                {| dependencies := dependencies (packageJson p);
                   description := description (packageJson p);
                   name := tempProjectName p;
                   private := private (packageJson p);
                   version := version (packageJson p) |}))
         (projects cfg)).

Definition project_a : RushConfigurationProject :=
  {| packageName := "@ms/a"; tempProjectName := "rush-a";
     packageJson := manifest_of "@ms/a" [("lodash", "^4.0.0")] |}.

Definition project_b : RushConfigurationProject :=
  {| packageName := "b"; tempProjectName := "rush-b";
     packageJson := manifest_of "b" [("@ms/a", "1.0.0")] |}.

Definition demo_config : RushConfiguration :=
  {| commonFolder := ["repo"; "common"];
     tempModulesFolder := ["repo"; "common"; "temp_modules"];
     npmToolFilename := "npm";
     cacheFolder := Some "npm-cache";
     tmpFolder := None;
     pinnedVersions := [("lodash", "4.17.4"); ("typescript", "2.4.1")];
     projects := [project_b; project_a];
     packageReviewFile := None |}.

(** An environment in which every collaborator succeeds; [npm shrinkwrap]
    writes the lock file. *)
Definition demo_exec (tool : string) (args : list string) (cwd : path) (f : FS)
    : Result unit * FS :=
  if bool_decide (args = ["shrinkwrap"]) then
    (Ok tt, <[path_join cwd "npm-shrinkwrap.json" := RawFile "{}"]> f)
  else (Ok tt, f).

Definition demo_env (cfg : RushConfiguration) : Env :=
  {| localeCompare := compare_code_units;
     os_EOL := String (ascii_of_nat 10) EmptyString;
     stopwatch_toString := "1.00 seconds";
     maxAttempts := 3;
     fs_fault := λ _, false;
     loadFromDefaultLocation := λ _, Ok cfg;
     newPackageReviewChecker := λ _ f, (Ok tt, f);
     saveCurrentDependencies := λ _ f, (Ok tt, f);
     newTempModuleGenerator := λ c, Ok (specTempModules c);
     ensureLocalNpmTool := λ _ _ f, (Ok tt, f);
     executeCommand := demo_exec |}.

(** A workspace after an earlier run: an installed package, a temp
    project copied into [node_modules], a lock file, temp modules. *)
Definition demo_fs : FS :=
  list_to_map
    [ ([], Dir);
      (["repo"], Dir);
      (["repo"; "common"], Dir);
      (["repo"; "common"; "node_modules"], Dir);
      (["repo"; "common"; "node_modules"; "lodash"], Dir);
      (["repo"; "common"; "node_modules"; "lodash"; "package.json"], RawFile "{}");
      (["repo"; "common"; "node_modules"; "rush-foo"], Dir);
      (["repo"; "common"; "node_modules"; "rush-foo"; "package.json"], RawFile "{}");
      (["repo"; "common"; "npm-shrinkwrap.json"], RawFile "{}");
      (["repo"; "common"; "temp_modules"], Dir);
      (["repo"; "common"; "temp_modules"; "rush-old"], Dir) ].

Definition fresh_fs : FS :=
  list_to_map [ ([], Dir); (["repo"], Dir); (["repo"; "common"], Dir) ].

Definition world_of (f : FS) : World :=
  {| fs := f; recycled := []; trace := [] |}.

(* ===================================================================== *)
(** ** The root manifest as a function of the configuration *)
(* ===================================================================== *)

(** The assignments made to [commonPackageJson.dependencies], in the
    order the function makes them: lines 81-83, then line 104 in each
    turn of the loop. *)
Definition tempModuleEntry (p : RushConfigurationProject) : string * string :=
  (tempProjectName p, tempModuleReference (tempProjectName p)).

Definition dependencyAssignments (cmp : string → string → Z)
    (cfg : RushConfiguration) : list (string * string) :=
  pinnedVersions cfg ++ map tempModuleEntry (sortedRushProjects cmp (projects cfg)).

Definition assign_all (ws : list (string * string)) (o : JsObject) : JsObject :=
  foldl (λ acc e, obj_set acc (fst e) (snd e)) o ws.

(** The value of [commonPackageJson] when it is saved (line 113). *)
Definition rootManifest (cmp : string → string → Z)
    (cfg : RushConfiguration) : PackageJson :=
  foldl (λ acc p, set_dependency acc (tempProjectName p)
                    (tempModuleReference (tempProjectName p)))
        (addPinnedVersions (pinnedVersions cfg) emptyCommonPackageJson)
        (sortedRushProjects cmp (projects cfg)).

(** A comparison function the sort can rely on. *)
Definition consistent_comparator (cmp : string → string → Z) : Prop :=
  (∀ a b, (cmp a b <= 0)%Z ∨ (cmp b a <= 0)%Z) ∧
  (∀ a b c, (cmp a b <= 0)%Z → (cmp b c <= 0)%Z → (cmp a c <= 0)%Z).

Definition ascending (cmp : string → string → Z) (l : list string) : Prop :=
  StronglySorted (λ a b, (cmp a b <= 0)%Z) l.

(* ===================================================================== *)
(** ** Which calls each stage makes *)
(* ===================================================================== *)

(** The calls of each stage; every stage may write to the console and
    none emits a bracket. *)
Definition belongs (s : Stage) (e : Event) : bool :=
  match e with
  | EvLog _ => true
  | EvStageBegin _ | EvStageEnd _ => false
  | EvLoadFromDefaultLocation | EvNewPackageReviewChecker
  | EvSaveCurrentDependencies =>
      match s with StLoad => true | _ => false end
  | EvGlobSync _ _ | EvRecycleDirectory _ =>
      match s with StCleanNodeModules => true | _ => false end
  | EvExistsSync _ =>
      match s with
      | StCleanNodeModules | StDeleteLockArtifact | StDeleteTempModulesRoot => true
      | _ => false
      end
  | EvDangerouslyDeletePath _ =>
      match s with
      | StDeleteLockArtifact | StDeleteTempModulesRoot => true
      | _ => false
      end
  | EvMkdirSync _ | EvNewTempModuleGenerator | EvSaveJsonFile _ _ =>
      match s with StRecreateAndPopulate => true | _ => false end
  | EvEnsureLocalNpmTool | EvExecuteCommand _ _ _ =>
      match s with StInstallFreeze => true | _ => false end
  end.

Definition in_stage (s : Stage) (e : Event) : Prop := belongs s e = true.

Definition is_log (e : Event) : Prop :=
  match e with EvLog _ => True | _ => False end.

Definition all_stages : list Stage :=
  [StLoad; StCleanNodeModules; StDeleteLockArtifact; StDeleteTempModulesRoot;
   StRecreateAndPopulate; StInstallFreeze].

Definition is_ok {A} (r : Result A) : bool :=
  match r with Ok _ => true | Throw _ => false end.

(** The calls among the events: everything but console lines. *)
Definition is_console (e : Event) : bool :=
  match e with EvLog _ => true | _ => false end.

Definition calls (evs : list Event) : list Event :=
  List.filter (λ e, negb (is_console e)) evs.

(** The order of the calls inside the first and the last stage: the
    configuration is loaded, then (with a review file) the checker is
    built and the snapshot taken; the npm tool is ensured, then
    [npm install] runs, then (in full mode only) [npm shrinkwrap].  A
    stage that threw has made a first part of its calls. *)
Definition calls_in_order (s : Stage) (lazyParameter finished : bool)
    (cs : list Event) : Prop :=
  match s with
  | StLoad =>
      let snapshot := [EvLoadFromDefaultLocation; EvNewPackageReviewChecker;
                       EvSaveCurrentDependencies] in
      if finished then cs = [EvLoadFromDefaultLocation] ∨ cs = snapshot
      else cs `prefix_of` snapshot
  | StInstallFreeze =>
      ∃ tool args cwd,
        let expected :=
          [EvEnsureLocalNpmTool; EvExecuteCommand tool ("install" :: args) cwd] ++
          (if lazyParameter then [] else [EvExecuteCommand tool ["shrinkwrap"] cwd]) in
        if finished then cs = expected else cs `prefix_of` expected
  | _ => True
  end.

(** What a stage adds to the trace. *)
Definition stage_body (s : Stage) (lazyParameter finished : bool)
    (body : list Event) : Prop :=
  Forall (in_stage s) body ∧ calls_in_order s lazyParameter finished (calls body).

(** The events of a run through [stages]: each stage opens, makes calls
    of its own, and closes before the next one opens; a run that did not
    finish stops inside a stage, with no closing bracket; a finished run
    ends with console lines. *)
Fixpoint staged (stages : list Stage) (lazyParameter finished : bool)
    (evs : list Event) : Prop :=
  match stages with
  | [] => finished = true ∧ Forall is_log evs
  | s :: rest =>
      ∃ body,
        (finished = false ∧ evs = EvStageBegin s :: body ∧
         stage_body s lazyParameter false body) ∨
        (∃ evs', evs = EvStageBegin s :: body ++ EvStageEnd s :: evs' ∧
                 stage_body s lazyParameter true body ∧
                 staged rest lazyParameter finished evs')
  end.

(** A relation between the world before and after, for every run. *)
Definition always {A} (env : Env) (R : relation World) (m : M A) : Prop :=
  ∀ w, R w (m env w).2.

(** The run adds events, all of them in [P]. *)
Definition emitting (P : Event → Prop) (w w' : World) : Prop :=
  ∃ evs, trace w' = trace w ++ evs ∧ Forall P evs.

(** The two calls of one turn of the loop (lines 102 and 108): the
    document handed to the writer is the result of the lookup
    [tempModules.get(rushProject.packageName)], whatever it is. *)
Definition tempProjectFolder (cfg : RushConfiguration)
    (p : RushConfigurationProject) : path :=
  path_join (tempModulesFolder cfg) (tempProjectName p).

Definition tempProjectCalls (cfg : RushConfiguration)
    (tm : gmap string PackageJson) (p : RushConfigurationProject) : list Event :=
  [EvMkdirSync (tempProjectFolder cfg p);
   EvSaveJsonFile (tm !! packageName p)
     (path_join (tempProjectFolder cfg p) "package.json")].

Definition commonPackageJsonFilename (cfg : RushConfiguration) : path :=
  path_join (commonFolder cfg) "package.json".

(** All the events of a run of [_createCommonTempModulesAndPackageJson]
    that returned. *)
Definition createEvents (cmp : string → string → Z) (cfg : RushConfiguration)
    (tm : gmap string PackageJson) (attempts : list Event) : list Event :=
  [EvLog "Creating a clean common/temp_modules folder"] ++ attempts ++
  [EvLog "Creating temp projects..."; EvNewTempModuleGenerator] ++
  flat_map (tempProjectCalls cfg tm) (sortedRushProjects cmp (projects cfg)) ++
  [EvLog "Writing common/package.json";
   EvSaveJsonFile (Some (rootManifest cmp cfg)) (commonPackageJsonFilename cfg)].

(** The layout [_createCommonTempModulesAndPackageJson] finds when it is
    called by [onExecute]: the temp-modules folder is
    [<commonFolder>/temp_modules] and has just been removed, and the
    common folder is a directory. *)
Definition fresh_layout (cfg : RushConfiguration) (f : FS) : Prop :=
  tempModulesFolder cfg = path_join (commonFolder cfg) "temp_modules" ∧
  is_dir (f !! commonFolder cfg) = true ∧
  absent (tempModulesFolder cfg) f ∧
  is_dir (f !! commonPackageJsonFilename cfg) = false.

(** No file-system call fails for an outside reason. *)
Definition no_fault (env : Env) : Prop := ∀ n, fs_fault env n = false.

(** The spec's reading of pinned-version precedence: for a pinned name
    that is also a project's temp alias, either the run fails or the
    manifest written holds the pinned version for that name. *)
Definition pinned_entry_wins (env : Env) (cfg : RushConfiguration) (w : World) : Prop :=
  ∀ dep ver p,
    In (dep, ver) (pinnedVersions cfg) →
    In p (projects cfg) → tempProjectName p = dep →
    let r := _createCommonTempModulesAndPackageJson cfg env w in
    is_ok r.1 = false ∨
    ∃ doc, fs r.2 !! commonPackageJsonFilename cfg = Some (JsonDoc (Some doc)) ∧
           obj_get (dependencies doc) dep = Some ver.

(** A configuration that pins the name of a temp project. *)
Definition collision_config : RushConfiguration :=
  {| commonFolder := ["repo"; "common"];
     tempModulesFolder := ["repo"; "common"; "temp_modules"];
     npmToolFilename := "npm";
     cacheFolder := None;
     tmpFolder := None;
     pinnedVersions := [("rush-a", "1.0.0")];
     projects := [project_a];
     packageReviewFile := None |}.

(** A second environment and workspace for the same projects: another
    tool and cache, a first attempt at creating the folder that fails, a
    generator that knows no project, installed packages and an older
    [package.json] already present. *)
Definition other_config : RushConfiguration :=
  {| commonFolder := ["work"; "common"];
     tempModulesFolder := ["work"; "common"; "temp_modules"];
     npmToolFilename := "npm.cmd";
     cacheFolder := None;
     tmpFolder := Some "tmp";
     pinnedVersions := pinnedVersions demo_config;
     projects := projects demo_config;
     packageReviewFile := Some "reviews.json" |}.

Definition other_env : Env :=
  {| localeCompare := compare_code_units;
     os_EOL := EmptyString;
     stopwatch_toString := "2.50 seconds";
     maxAttempts := 2;
     fs_fault := λ n, Nat.eqb n 4;
     loadFromDefaultLocation := λ _, Ok other_config;
     newPackageReviewChecker := λ _ f, (Ok tt, f);
     saveCurrentDependencies := λ _ f, (Ok tt, f);
     newTempModuleGenerator := λ _, Ok ∅;
     ensureLocalNpmTool := λ _ _ f, (Ok tt, f);
     executeCommand := demo_exec |}.

Definition other_world : World :=
  {| fs := list_to_map
             [ ([], Dir); (["work"], Dir); (["work"; "common"], Dir);
               (["work"; "common"; "package.json"], RawFile "{}");
               (["work"; "common"; "node_modules"], Dir);
               (["work"; "common"; "node_modules"; "lodash"], Dir) ];
     recycled := [];
     trace := [EvLog "one"; EvLog "two"; EvLog "three"] |}.

(** What is left of [q] below [dir], when [q] is at or below [dir]. *)
Fixpoint below (dir q : path) : option path :=
  match dir, q with
  | [], _ => Some q
  | d :: dir', s :: q' => if String.eqb d s then below dir' q' else None
  | _ :: _, [] => None
  end.

(** [q] is at or below [dir]. *)
Definition at_or_below (dir q : path) : bool :=
  match below dir q with Some _ => true | None => false end.

(** [q] is, or lies below, an entry of [dir] whose name starts with
    [rush-]. *)
Definition temp_entry_below (dir q : path) : bool :=
  match below dir q with
  | Some (n :: _) => String.prefix "rush-" n
  | _ => false
  end.

(** A pattern without wildcard. *)
Fixpoint literal (s : string) : bool :=
  match s with
  | EmptyString => true
  | String c s' => negb (Ascii.eqb c "*") && literal s'
  end.

Definition nodeModulesPath (cfg : RushConfiguration) : path :=
  path_join (commonFolder cfg) "node_modules".

Definition shrinkwrapFilename (cfg : RushConfiguration) : path :=
  path_join (commonFolder cfg) "npm-shrinkwrap.json".

(** Calls that only look at the disk or write to the console. *)
Definition read_only (e : Event) : Prop :=
  match e with
  | EvLog _ | EvExistsSync _ | EvGlobSync _ _ => True
  | _ => False
  end.

(** The run returns, leaves the disk and the recycler as they were and
    makes no call that could change them or fail. *)
Definition noop (m : M unit) (env : Env) (w : World) : Prop :=
  ∃ evs,
    m env w = (Ok tt, {| fs := fs w; recycled := recycled w;
                         trace := trace w ++ evs |}) ∧
    Forall read_only evs.

(** The three teardown steps of [onExecute], in its order. *)
Definition teardown (cfg : RushConfiguration) (isLazy : bool) : M unit :=
  _deleteCommonNodeModules cfg isLazy;;
  _deleteShrinkwrapFile cfg;;
  _deleteCommonTempModules cfg.

(** A check of [fs_wf] that computes. *)
Definition fs_wf_check (f : FS) : bool :=
  forallb (λ kv, match kv.1 with
                 | [] => true
                 | _ :: _ => is_dir (f !! parent kv.1)
                 end) (map_to_list f).

(** [onExecute] after its first stage, and from its fifth stage on. *)
Definition finish : M unit :=
  env ← ask;
  console_log (os_EOL env +:+
    colors_green ("Rush generate finished successfully. (" +:+ stopwatch_toString env +:+ ")"));;
  console_log (os_EOL env +:+ "Next you should probably run: " +:+ dq +:+ "rush link" +:+ dq).

Definition fromCreate (cfg : RushConfiguration) (lazyParameter : bool) : M unit :=
  stage StRecreateAndPopulate (_createCommonTempModulesAndPackageJson cfg);;
  stage StInstallFreeze (installAndFreeze cfg lazyParameter);;
  finish.

Definition afterLoad (cfg : RushConfiguration) (lazyParameter : bool) : M unit :=
  stage StCleanNodeModules (_deleteCommonNodeModules cfg lazyParameter);;
  stage StDeleteLockArtifact (_deleteShrinkwrapFile cfg);;
  stage StDeleteTempModulesRoot (_deleteCommonTempModules cfg);;
  fromCreate cfg lazyParameter.

(** [onExecute] up to the end of its fourth stage. *)
Definition upToTeardown (lazyParameter : bool) : M RushConfiguration :=
  cfg ← stage StLoad loadAndSnapshot;
  stage StCleanNodeModules (_deleteCommonNodeModules cfg lazyParameter);;
  stage StDeleteLockArtifact (_deleteShrinkwrapFile cfg);;
  stage StDeleteTempModulesRoot (_deleteCommonTempModules cfg);;
  mret cfg.

(** The spec's reading of a failing snapshot: the run goes on to the
    teardown. *)
Definition snapshot_failure_nonfatal (env : Env) (lazyParameter : bool)
    (w : World) : Prop :=
  ∀ cfg,
    loadFromDefaultLocation env (fs w) = Ok cfg →
    truthy (packageReviewFile cfg) = true →
    (∀ f, is_ok (saveCurrentDependencies env cfg f).1 = false) →
    In (EvStageBegin StCleanNodeModules) (trace (onExecute lazyParameter env w).2).

(** A workspace with a review file, and an environment in which writing
    the snapshot fails. *)
Definition review_config : RushConfiguration :=
  {| commonFolder := commonFolder demo_config;
     tempModulesFolder := tempModulesFolder demo_config;
     npmToolFilename := npmToolFilename demo_config;
     cacheFolder := cacheFolder demo_config;
     tmpFolder := tmpFolder demo_config;
     pinnedVersions := pinnedVersions demo_config;
     projects := projects demo_config;
     packageReviewFile := Some "common/reviews/PackageDependencies.json" |}.

Definition failing_review_env : Env :=
  {| localeCompare := compare_code_units;
     os_EOL := String (ascii_of_nat 10) EmptyString;
     stopwatch_toString := "1.00 seconds";
     maxAttempts := 3;
     fs_fault := λ _, false;
     loadFromDefaultLocation := λ _, Ok review_config;
     newPackageReviewChecker := λ _ f, (Ok tt, f);
     saveCurrentDependencies := λ _ f, (Throw ReviewError, f);
     newTempModuleGenerator := λ c, Ok (specTempModules c);
     ensureLocalNpmTool := λ _ _ f, (Ok tt, f);
     executeCommand := demo_exec |}.

(** An environment in which every file-system call fails. *)
Definition locked_env : Env :=
  {| localeCompare := compare_code_units;
     os_EOL := String (ascii_of_nat 10) EmptyString;
     stopwatch_toString := "1.00 seconds";
     maxAttempts := 3;
     fs_fault := λ _, true;
     loadFromDefaultLocation := λ _, Ok demo_config;
     newPackageReviewChecker := λ _ f, (Ok tt, f);
     saveCurrentDependencies := λ _ f, (Ok tt, f);
     newTempModuleGenerator := λ c, Ok (specTempModules c);
     ensureLocalNpmTool := λ _ _ f, (Ok tt, f);
     executeCommand := demo_exec |}.

(** The events of the first stage when the review file is set and the
    checker could be built. *)
Definition snapshotEvents (env : Env) : list Event :=
  [EvStageBegin StLoad; EvLoadFromDefaultLocation;
   EvLog ("Starting " +:+ dq +:+ "rush generate" +:+ dq +:+ os_EOL env);
   EvNewPackageReviewChecker; EvSaveCurrentDependencies].

(** A call of [npm shrinkwrap]. *)
Definition invokes_shrinkwrap (e : Event) : bool :=
  match e with
  | EvExecuteCommand _ args _ => bool_decide (args = ["shrinkwrap"])
  | _ => false
  end.

(** What a run may do to the path [p]: remove what is there, or leave it. *)
Definition keeps_or_deletes (p : path) (w w' : World) : Prop :=
  fs w' !! p = None ∨ fs w' !! p = fs w !! p.

(** The collaborators other than [npm shrinkwrap] do not write at [p]. *)
Definition collaborators_leave (env : Env) (p : path) : Prop :=
  (∀ c f, (newPackageReviewChecker env c f).2 !! p = f !! p) ∧
  (∀ c f, (saveCurrentDependencies env c f).2 !! p = f !! p) ∧
  (∀ c b f, (ensureLocalNpmTool env c b f).2 !! p = f !! p) ∧
  (∀ tool args cwd f, args ≠ ["shrinkwrap"] →
                      (executeCommand env tool args cwd f).2 !! p = f !! p).

(** The trace only grows. *)
Definition grows {A} (env : Env) (m : M A) : Prop :=
  always env (emitting (λ _, True)) m.

(** What a stage body guarantees: its events, and the order of its
    calls, according to whether it returned. *)
Definition stage_spec {A} (env : Env) (lazyParameter : bool) (s : Stage)
    (m : M A) : Prop :=
  ∀ w, ∃ body,
    trace (m env w).2 = trace w ++ body ∧
    stage_body s lazyParameter (is_ok (m env w).1) body.

(** The path [q] holds after the run what it held before. *)
Definition same_at (q : path) (w w' : World) : Prop := fs w' !! q = fs w !! q.

(** The errors a computation can throw. *)
Definition throws_only {A} (env : Env) (P : Error → Prop) (m : M A) : Prop :=
  ∀ w e w', m env w = (Throw e, w') → P e.

(* ===================================================================== *)
(** ** Further properties: disk, errors, the whole run *)
(* ===================================================================== *)

(** Line 106. *)
Definition tempPackageJsonFilename (cfg : RushConfiguration)
    (p : RushConfigurationProject) : path :=
  path_join (tempProjectFolder cfg p) "package.json".

(** The path [q] holds what it held and the recycler got nothing. *)
Definition untouched (q : path) (w w' : World) : Prop :=
  fs w' !! q = fs w !! q ∧ recycled w' = recycled w.

(** A relation between the world before and after, for the runs that
    throw. *)
Definition on_failure {A} (env : Env) (R : relation World) (m : M A) : Prop :=
  ∀ w, is_ok (m env w).1 = false → R w (m env w).2.

(** The events [_createCommonTempModulesAndPackageJson] can have made
    when it stops at the generator or before. *)
Definition before_populate (cfg : RushConfiguration) (e : Event) : Prop :=
  is_log e ∨ e = EvMkdirSync (tempModulesFolder cfg) ∨ e = EvNewTempModuleGenerator.

(** A third project that was given the temp name of the first. *)
Definition project_a_twin : RushConfigurationProject :=
  {| packageName := "@other/a"; tempProjectName := "rush-a";
     packageJson := manifest_of "@other/a" [] |}.

Definition twin_config : RushConfiguration :=
  {| commonFolder := commonFolder demo_config;
     tempModulesFolder := tempModulesFolder demo_config;
     npmToolFilename := npmToolFilename demo_config;
     cacheFolder := cacheFolder demo_config;
     tmpFolder := tmpFolder demo_config;
     pinnedVersions := pinnedVersions demo_config;
     projects := [project_a; project_b; project_a_twin];
     packageReviewFile := None |}.

(** An environment whose temp-module generator throws. *)
Definition failing_generator_env : Env :=
  {| localeCompare := compare_code_units;
     os_EOL := String (ascii_of_nat 10) EmptyString;
     stopwatch_toString := "1.00 seconds";
     maxAttempts := 3;
     fs_fault := λ _, false;
     loadFromDefaultLocation := λ _, Ok demo_config;
     newPackageReviewChecker := λ _ f, (Ok tt, f);
     saveCurrentDependencies := λ _ f, (Ok tt, f);
     newTempModuleGenerator := λ _, Throw ManifestError;
     ensureLocalNpmTool := λ _ _ f, (Ok tt, f);
     executeCommand := demo_exec |}.

(** Lines 186 and 189, one after the other. *)
Definition rebuildTempModules (cfg : RushConfiguration) : M unit :=
  _deleteCommonTempModules cfg;;
  _createCommonTempModulesAndPackageJson cfg.

(** Lines 117-124: the arguments handed to [npm install]. *)
Definition npmInstallArgs (cfg : RushConfiguration) : list string :=
  push_if_set "--tmp" (tmpFolder cfg)
    (push_if_set "--cache" (cacheFolder cfg) ["install"]).

(** A flag and its value, for a folder that is set and not empty. *)
Definition folder_flag (flag : string) (value : option string) : list string :=
  match value with
  | Some v => if String.eqb v EmptyString then [] else [flag; v]
  | None => []
  end.

(** The computation throws, whatever the world. *)
Definition never_returns {A} (env : Env) (m : M A) : Prop :=
  ∀ w, is_ok (m env w).1 = false.

(** An environment in which [npm install] fails. *)
Definition failing_install (tool : string) (args : list string) (cwd : path) (f : FS)
    : Result unit * FS :=
  if bool_decide (args = ["shrinkwrap"]) then
    (Ok tt, <[path_join cwd "npm-shrinkwrap.json" := RawFile "{}"]> f)
  else (Throw ProcessExitError, f).

Definition failing_install_env : Env :=
  {| localeCompare := compare_code_units;
     os_EOL := String (ascii_of_nat 10) EmptyString;
     stopwatch_toString := "1.00 seconds";
     maxAttempts := 3;
     fs_fault := λ _, false;
     loadFromDefaultLocation := λ _, Ok demo_config;
     newPackageReviewChecker := λ _ f, (Ok tt, f);
     saveCurrentDependencies := λ _ f, (Ok tt, f);
     newTempModuleGenerator := λ c, Ok (specTempModules c);
     ensureLocalNpmTool := λ _ _ f, (Ok tt, f);
     executeCommand := failing_install |}.

(** An environment in which there is no configuration to load. *)
Definition missing_config_env : Env :=
  {| localeCompare := compare_code_units;
     os_EOL := String (ascii_of_nat 10) EmptyString;
     stopwatch_toString := "1.00 seconds";
     maxAttempts := 3;
     fs_fault := λ _, false;
     loadFromDefaultLocation := λ _, Throw ConfigurationError;
     newPackageReviewChecker := λ _ f, (Ok tt, f);
     saveCurrentDependencies := λ _ f, (Ok tt, f);
     newTempModuleGenerator := λ c, Ok (specTempModules c);
     ensureLocalNpmTool := λ _ _ f, (Ok tt, f);
     executeCommand := demo_exec |}.

(** The first console line of a run (line 172). *)
Definition starting_line (env : Env) : string :=
  "Starting " +:+ dq +:+ "rush generate" +:+ dq +:+ os_EOL env.

(** The two calls of the review step (lines 175-176). *)
Definition is_review_call (e : Event) : bool :=
  match e with
  | EvNewPackageReviewChecker | EvSaveCurrentDependencies => true
  | _ => false
  end.

(** The review calls a run starting in [w] has to make: none without a
    configuration or a review file, the construction of the checker,
    and the snapshot when the construction returned. *)
Definition review_calls (env : Env) (w : World) : list Event :=
  match loadFromDefaultLocation env (fs w) with
  | Ok cfg =>
      if truthy (packageReviewFile cfg) then
        EvNewPackageReviewChecker ::
        (if is_ok (newPackageReviewChecker env cfg (fs w)).1
         then [EvSaveCurrentDependencies] else [])
      else []
  | Throw _ => []
  end.

(** A workspace whose review file is set to the empty string. *)
Definition empty_review_config : RushConfiguration :=
  {| commonFolder := commonFolder demo_config;
     tempModulesFolder := tempModulesFolder demo_config;
     npmToolFilename := npmToolFilename demo_config;
     cacheFolder := cacheFolder demo_config;
     tmpFolder := tmpFolder demo_config;
     pinnedVersions := pinnedVersions demo_config;
     projects := projects demo_config;
     packageReviewFile := Some EmptyString |}.

(** Where the calls of a run on the configuration [cfg] may point: the
    recycler gets the shared [node_modules] folder (full mode) or one
    of its [rush-] entries (lazy mode); deletions hit the lock file and
    the temp-modules folder; folders are made and files written at the
    temp-modules folder, the projects' temp folders and manifests, and
    the root manifest; commands run the configured npm tool in the
    common folder. *)
Definition confined (cfg : RushConfiguration) (lazyParameter : bool)
    (e : Event) : Prop :=
  match e with
  | EvExistsSync p =>
      p = nodeModulesPath cfg ∨ p = shrinkwrapFilename cfg ∨ p = tempModulesFolder cfg
  | EvGlobSync dir pattern => dir = nodeModulesPath cfg ∧ pattern = "rush-*"
  | EvRecycleDirectory p =>
      if lazyParameter then
        ∃ n, p = path_join (nodeModulesPath cfg) n ∧ String.prefix "rush-" n = true
      else p = nodeModulesPath cfg
  | EvDangerouslyDeletePath p =>
      p = shrinkwrapFilename cfg ∨ p = tempModulesFolder cfg
  | EvMkdirSync p =>
      p = tempModulesFolder cfg ∨
      ∃ q, In q (projects cfg) ∧ p = tempProjectFolder cfg q
  | EvSaveJsonFile _ p =>
      p = commonPackageJsonFilename cfg ∨
      ∃ q, In q (projects cfg) ∧ p = tempPackageJsonFilename cfg q
  | EvExecuteCommand tool _ cwd =>
      tool = npmToolFilename cfg ∧ cwd = commonFolder cfg
  | _ => True
  end.

(** A disk on which the command can work: well formed, with the common
    folder a directory and no directory in the place of its
    [package.json]. *)
Definition healthy (cfg : RushConfiguration) (f : FS) : Prop :=
  fs_wf f ∧
  is_dir (f !! commonFolder cfg) = true ∧
  is_dir (f !! commonPackageJsonFilename cfg) = false.

(** A collaborator that returns on a healthy disk and leaves it healthy. *)
Definition keeps_healthy (cfg : RushConfiguration)
    (c : FS → Result unit * FS) : Prop :=
  ∀ f, healthy cfg f → is_ok (c f).1 = true ∧ healthy cfg (c f).2.

(** From a disk in [pre] the computation returns, with a result and a
    disk in [post]. *)
Definition returns {A : Type} (env : Env) (pre : FS → Prop) (m : M A)
    (post : A → FS → Prop) : Prop :=
  ∀ w, pre (fs w) → ∃ a w', m env w = (Ok a, w') ∧ post a (fs w').

(** The two closing lines of a run (lines 201-202). *)
Definition success_line (env : Env) : string :=
  os_EOL env +:+
  colors_green ("Rush generate finished successfully. ("
                +:+ stopwatch_toString env +:+ ")").

Definition next_line (env : Env) : string :=
  os_EOL env +:+ "Next you should probably run: " +:+ dq +:+ "rush link" +:+ dq.

(** How often a character occurs in a string. *)
Fixpoint count_char (c : ascii) (s : string) : nat :=
  match s with
  | EmptyString => 0
  | String d s' => (if Ascii.eqb c d then 1 else 0) + count_char c s'
  end.

(** The run adds events in [P] and, when it returns, ends with [closing]. *)
Definition closes {A} (env : Env) (P : Event → Prop) (closing : list Event)
    (m : M A) : Prop :=
  ∀ w, ∃ evs,
    trace (m env w).2
    = trace w ++ evs ++ (if is_ok (m env w).1 then closing else []) ∧
    Forall P evs.

(** The members of a manifest other than its dependencies. *)
Definition metadata (pj : PackageJson) : string * string * bool * string :=
  (name pj, description pj, private pj, version pj).

(** The last npm command of a run: [install] in lazy mode, [shrinkwrap]
    in full mode. *)
Definition lastCommandArgs (cfg : RushConfiguration) (lazyParameter : bool)
    : list string :=
  if lazyParameter then npmInstallArgs cfg else ["shrinkwrap"].

(** The error [e] is the file system's or one a collaborator threw. *)
Definition raised_by (env : Env) (e : Error) : Prop :=
  e = FilesystemError ∨
  (∃ f, loadFromDefaultLocation env f = Throw e) ∨
  (∃ cfg f, (newPackageReviewChecker env cfg f).1 = Throw e) ∨
  (∃ cfg f, (saveCurrentDependencies env cfg f).1 = Throw e) ∨
  (∃ cfg, newTempModuleGenerator env cfg = Throw e) ∨
  (∃ cfg f, (ensureLocalNpmTool env cfg false f).1 = Throw e) ∨
  (∃ tool args cwd f, (executeCommand env tool args cwd f).1 = Throw e).
(* ===================================================================== *)
(** ** Objects: reading after writing *)
(* ===================================================================== *)

Section Objects.
Implicit Types (o : JsObject) (k v : string).

Lemma obj_get_app o1 o2 k :
  obj_get (o1 ++ o2) k =
  match obj_get o1 k with Some x => Some x | None => obj_get o2 k end.
Proof.
  induction o1 as [|[k' v'] o1 IH]; simpl; [done|].
  destruct (String.eqb k' k); done.
Qed.

Lemma obj_get_replace o k v k' :
  obj_get (obj_replace o k v) k' =
  if String.eqb k k' then (if obj_has o k then Some v else None)
  else obj_get o k'.
Proof.
  unfold obj_has. induction o as [|[k0 v0] o IH]; simpl.
  - by destruct (String.eqb k k').
  - destruct (String.eqb_spec k0 k) as [->|Hne]; simpl.
    + by destruct (String.eqb k k').
    + rewrite IH. destruct (String.eqb_spec k k') as [->|Hne'].
      * by apply String.eqb_neq in Hne as ->.
      * done.
Qed.

Lemma obj_get_insert_index o n k v k' :
  obj_get o k = None →
  obj_get (obj_insert_index o n k v) k' =
  if String.eqb k k' then Some v else obj_get o k'.
Proof.
  induction o as [|[k0 v0] o IH]; simpl; intros Hk.
  - done.
  - destruct (String.eqb_spec k0 k) as [->|Hne]; [done|].
    assert (Hcons : obj_get ((k, v) :: (k0, v0) :: o) k' =
                    if String.eqb k k' then Some v
                    else if String.eqb k0 k' then Some v0 else obj_get o k')
      by done.
    destruct (array_index k0) as [n'|]; [destruct (n <? n')%N|]; try exact Hcons.
    simpl. rewrite (IH Hk).
    destruct (String.eqb_spec k0 k') as [->|Hne']; [|done].
    by apply not_eq_sym, String.eqb_neq in Hne as ->.
Qed.

(** Reading the key just written. *)
Lemma obj_get_set_eq o k v : obj_get (obj_set o k v) k = Some v.
Proof.
  unfold obj_set. destruct (obj_has o k) eqn:Hhas.
  - by rewrite obj_get_replace, String.eqb_refl, Hhas.
  - assert (obj_get o k = None) as Hnone
      by (unfold obj_has in Hhas; by destruct (obj_get o k)).
    destruct (array_index k).
    + by rewrite obj_get_insert_index, String.eqb_refl.
    + rewrite obj_get_app, Hnone. simpl. by rewrite String.eqb_refl.
Qed.

(** Reading another key. *)
Lemma obj_get_set_ne o k v k' :
  k ≠ k' → obj_get (obj_set o k v) k' = obj_get o k'.
Proof.
  intros Hne. apply String.eqb_neq in Hne as Hb.
  unfold obj_set. destruct (obj_has o k) eqn:Hhas.
  - by rewrite obj_get_replace, Hb.
  - assert (obj_get o k = None) as Hnone
      by (unfold obj_has in Hhas; by destruct (obj_get o k)).
    destruct (array_index k).
    + by rewrite obj_get_insert_index, Hb.
    + rewrite obj_get_app. simpl. rewrite Hb. by destruct (obj_get o k').
Qed.

Lemma assign_all_app ws1 ws2 o :
  assign_all (ws1 ++ ws2) o = assign_all ws2 (assign_all ws1 o).
Proof. unfold assign_all. by rewrite foldl_app. Qed.

(** A key no assignment names keeps its value. *)
Lemma assign_all_get_other ws o k :
  (∀ v, ¬ In (k, v) ws) → obj_get (assign_all ws o) k = obj_get o k.
Proof.
  revert o. induction ws as [|[k0 v0] ws IH]; intros o Hnot; [done|].
  change (assign_all ((k0, v0) :: ws) o) with (assign_all ws (obj_set o k0 v0)).
  rewrite IH.
  - apply obj_get_set_ne. intros ->. apply (Hnot v0). by left.
  - intros v Hin. apply (Hnot v). by right.
Qed.

Lemma key_assigned_dec ws k : {v | In (k, v) ws} + {∀ v, ¬ In (k, v) ws}.
Proof.
  induction ws as [|[k0 v0] ws [[v Hin]|Hnot]].
  - right. by intros v [].
  - left. exists v. by right.
  - destruct (string_dec k0 k) as [->|Hne].
    + left. exists v0. by left.
    + right. intros v [Heq|Hin]; [congruence|by apply (Hnot v)].
Qed.

(** A key to which every assignment gives the same value holds it. *)
Lemma assign_all_get_const ws o k v :
  In (k, v) ws → (∀ v', In (k, v') ws → v' = v) →
  obj_get (assign_all ws o) k = Some v.
Proof.
  revert o. induction ws as [|[k0 v0] ws IH]; intros o Hin Hconst; [done|].
  change (assign_all ((k0, v0) :: ws) o) with (assign_all ws (obj_set o k0 v0)).
  destruct (key_assigned_dec ws k) as [[v1 Hin1]|Hnot].
  - assert (v1 = v) as -> by (apply Hconst; by right).
    apply IH; [done|]. intros v' Hv'. apply Hconst. by right.
  - rewrite assign_all_get_other by done.
    destruct Hin as [Heq|Hin]; [|by destruct (Hnot v)].
    inversion Heq; subst. apply obj_get_set_eq.
Qed.

(** The last assignment to a key decides. *)
Lemma assign_all_get_last ws1 ws2 o k v :
  (∀ v', ¬ In (k, v') ws2) →
  obj_get (assign_all (ws1 ++ (k, v) :: ws2) o) k = Some v.
Proof.
  intros Hnot. rewrite assign_all_app.
  change (assign_all ((k, v) :: ws2) ?o') with (assign_all ws2 (obj_set o' k v)).
  rewrite assign_all_get_other by done. apply obj_get_set_eq.
Qed.
End Objects.

(* ===================================================================== *)
(** ** Sorting *)
(* ===================================================================== *)

Section Sorting.
Context {A : Type} (cmp : A → A → Z).

Let le (a b : A) : Prop := (cmp a b <= 0)%Z.

Lemma sort_insert_perm x l : Permutation (sort_insert cmp x l) (x :: l).
Proof.
  induction l as [|y l IH]; simpl; [done|].
  destruct (cmp x y <=? 0)%Z; [done|].
  rewrite IH. apply perm_swap.
Qed.

Lemma array_sort_perm l : Permutation (array_sort cmp l) l.
Proof.
  induction l as [|x l IH]; simpl; [done|].
  rewrite sort_insert_perm. by constructor.
Qed.

Hypothesis le_total : ∀ a b, le a b ∨ le b a.

Lemma sort_insert_sorted x l :
  Sorted le l → Sorted le (sort_insert cmp x l).
Proof.
  induction 1 as [|y l Hsorted IH Hhd]; simpl.
  - by repeat constructor.
  - destruct (Z.leb_spec (cmp x y) 0) as [Hle|Hgt].
    + constructor; [by constructor|by constructor].
    + assert (le y x) as Hyx by (destruct (le_total x y); [unfold le in *; lia|done]).
      constructor; [done|].
      destruct Hhd as [|z l Hyz]; simpl.
      * by constructor.
      * destruct (cmp x z <=? 0)%Z; by constructor.
Qed.

Lemma array_sort_sorted l : Sorted le (array_sort cmp l).
Proof.
  induction l as [|x l IH]; simpl; [constructor|by apply sort_insert_sorted].
Qed.

Hypothesis le_trans : ∀ a b c, le a b → le b c → le a c.

Lemma array_sort_strongly_sorted l : StronglySorted le (array_sort cmp l).
Proof.
  apply Sorted_StronglySorted; [|apply array_sort_sorted].
  intros a b c. apply le_trans.
Qed.
End Sorting.

(* ===================================================================== *)
(** ** Running computations *)
(* ===================================================================== *)

Lemma bind_run {A B} (m : M A) (f : A → M B) env w :
  (m ≫= f) env w =
  match m env w with
  | (Ok a, w') => f a env w'
  | (Throw e, w') => (Throw e, w')
  end.
Proof. reflexivity. Qed.

Lemma bind_ok {A B} (m : M A) (f : A → M B) env w b w' :
  (m ≫= f) env w = (Ok b, w') →
  ∃ a w1, m env w = (Ok a, w1) ∧ f a env w1 = (Ok b, w').
Proof.
  rewrite bind_run. destruct (m env w) as [[a|e] w1]; [eauto|discriminate].
Qed.

(** Inversion of a run that returned: one bind at a time. *)
Tactic Notation "bind_inv" hyp(H) "as" ident(H1) :=
  let a := fresh "a" in
  let w := fresh "w" in
  apply bind_ok in H as (a & w & H1 & H).

Section Always.
Context (env : Env) (R : relation World) `{!PreOrder R}.

Lemma always_ret {A} (a : A) : always env R (mret a).
Proof. intros w. simpl. reflexivity. Qed.

Lemma always_throw {A} (e : Error) : always env R (throw e : M A).
Proof. intros w. simpl. reflexivity. Qed.

Lemma always_ask : always env R ask.
Proof. intros w. simpl. reflexivity. Qed.

Lemma always_get_fs : always env R get_fs.
Proof. intros w. simpl. reflexivity. Qed.

Lemma always_bind {A B} (m : M A) (f : A → M B) :
  always env R m → (∀ a, always env R (f a)) → always env R (m ≫= f).
Proof.
  intros Hm Hf w. rewrite bind_run. specialize (Hm w).
  destruct (m env w) as [[a|e] w1]; simpl in *; [|done].
  etrans; [exact Hm|apply Hf].
Qed.

Lemma always_try_catch {A} (m : M A) (h : Error → M A) :
  always env R m → (∀ e, always env R (h e)) → always env R (try_catch m h).
Proof.
  intros Hm Hh w. unfold try_catch. specialize (Hm w).
  destruct (m env w) as [[a|e] w1]; simpl in *; [done|].
  etrans; [exact Hm|apply Hh].
Qed.

Lemma always_for_of {A} (l : list A) (body : A → M unit) :
  (∀ x, always env R (body x)) → always env R (for_of l body).
Proof.
  intros Hbody. induction l as [|x l IH]; simpl.
  - apply always_ret.
  - apply always_bind; [apply Hbody|by intros _].
Qed.

Lemma always_for_of_acc {A S} (l : list A) (body : S → A → M S) (s : S) :
  (∀ s x, always env R (body s x)) → always env R (for_of_acc l body s).
Proof.
  intros Hbody. revert s. induction l as [|x l IH]; intros s; simpl.
  - apply always_ret.
  - apply always_bind; [apply Hbody|apply IH].
Qed.
End Always.

#[global] Instance emitting_preorder P : PreOrder (emitting P).
Proof.
  split.
  - intros w. exists []. by rewrite app_nil_r.
  - intros w1 w2 w3 (e1 & H1 & F1) (e2 & H2 & F2).
    exists (e1 ++ e2). rewrite H2, H1, app_assoc. split; [done|].
    by apply Forall_app.
Qed.

Lemma emitting_weaken (P Q : Event → Prop) w w' :
  (∀ e, P e → Q e) → emitting P w w' → emitting Q w w'.
Proof.
  intros HPQ (evs & Htr & HP). exists evs. split; [done|].
  eapply Forall_impl; eauto.
Qed.

Lemma always_emitting_weaken {A} env (P Q : Event → Prop) (m : M A) :
  (∀ e, P e → Q e) → always env (emitting P) m → always env (emitting Q) m.
Proof. intros HPQ Hm w. eapply emitting_weaken; eauto. Qed.

Lemma emitting_add_event (P : Event → Prop) e w : P e → emitting P w (add_event e w).
Proof. intros HP. exists [e]. split; [done|]. by constructor. Qed.

Lemma emitting_same_trace (P : Event → Prop) w w' :
  trace w' = trace w → emitting P w w'.
Proof. intros Htr. exists []. by rewrite app_nil_r. Qed.

Section Emitting.
Context (env : Env) (P : Event → Prop).

Lemma emitting_emit e : P e → always env (emitting P) (emit e).
Proof. intros HP w. by apply emitting_add_event. Qed.

Lemma emitting_console_log s : P (EvLog s) → always env (emitting P) (console_log s).
Proof. apply emitting_emit. Qed.

Lemma emitting_fs_call e : P e → always env (emitting P) (fs_call e).
Proof.
  intros HP w. unfold fs_call.
  destruct (fs_fault env _); by apply emitting_add_event.
Qed.

Lemma emitting_call e f : P e → always env (emitting P) (call e f).
Proof.
  intros HP w. unfold call. simpl. exists [e]. split; [done|]. by constructor.
Qed.

Lemma emitting_put_fs f : always env (emitting P) (put_fs f).
Proof. intros w. by apply emitting_same_trace. Qed.

Lemma emitting_move_aside p : always env (emitting P) (move_aside p).
Proof. intros w. by apply emitting_same_trace. Qed.
End Emitting.

(** Breaks a goal [always env (emitting P) m] down to the events [m]
    can emit; what is left are goals [P e]. *)
Ltac emitting_steps :=
  repeat first
    [ apply always_bind; [apply _| |intros ?]
    | apply always_ret; apply _
    | apply always_throw; apply _
    | apply always_ask; apply _
    | apply always_get_fs; apply _
    | apply emitting_put_fs
    | apply emitting_move_aside
    | apply emitting_console_log
    | apply emitting_emit
    | apply emitting_fs_call
    | apply emitting_call
    | apply always_for_of; [apply _|intros ?]
    | apply always_for_of_acc; [apply _|intros ? ?]
    | apply always_try_catch; [apply _| |intros ?]
    | match goal with
      | |- always _ _ (if ?b then _ else _) => destruct b
      | |- always _ _ (match ?r with Ok _ => _ | Throw _ => _ end) => destruct r
      end ].

Section StageEvents.
Context (env : Env).

Lemma emitting_createFolderAttempts (P : Event → Prop) n p :
  P (EvMkdirSync p) → always env (emitting P) (createFolderAttempts n p).
Proof.
  intros HP. induction n as [|n IH]; simpl.
  - apply always_throw, _.
  - unfold mkdirSync. emitting_steps; done.
Qed.

Lemma emits_deleteCommonNodeModules cfg isLazy :
  always env (emitting (in_stage StCleanNodeModules))
    (_deleteCommonNodeModules cfg isLazy).
Proof.
  unfold _deleteCommonNodeModules, glob_sync, existsSync, recycleDirectory.
  emitting_steps; done.
Qed.

Lemma emits_deleteShrinkwrapFile cfg :
  always env (emitting (in_stage StDeleteLockArtifact)) (_deleteShrinkwrapFile cfg).
Proof.
  unfold _deleteShrinkwrapFile, existsSync, dangerouslyDeletePath.
  emitting_steps; done.
Qed.

Lemma emits_deleteCommonTempModules cfg :
  always env (emitting (in_stage StDeleteTempModulesRoot))
    (_deleteCommonTempModules cfg).
Proof.
  unfold _deleteCommonTempModules, existsSync, dangerouslyDeletePath.
  emitting_steps; done.
Qed.

Lemma emits_createCommonTempModulesAndPackageJson cfg :
  always env (emitting (in_stage StRecreateAndPopulate))
    (_createCommonTempModulesAndPackageJson cfg).
Proof.
  unfold _createCommonTempModulesAndPackageJson, createFolderWithRetry,
    tempModulesOf, createTempProject, mkdirSync, saveJsonFile.
  emitting_steps; try done.
  by apply emitting_createFolderAttempts.
Qed.

Lemma emits_loadAndSnapshot :
  always env (emitting (in_stage StLoad)) loadAndSnapshot.
Proof.
  unfold loadAndSnapshot, loadConfiguration. emitting_steps; done.
Qed.

Lemma emits_installAndFreeze cfg isLazy :
  always env (emitting (in_stage StInstallFreeze)) (installAndFreeze cfg isLazy).
Proof.
  unfold installAndFreeze, _runNpmInstall, _runNpmShrinkWrap.
  emitting_steps; done.
Qed.

(** A stage: its opening bracket, the events of its body and, when the
    body returned, its closing bracket. *)
Lemma stage_run {A} (s : Stage) (m : M A) w :
  stage s m env w =
  match m env (add_event (EvStageBegin s) w) with
  | (Ok a, w1) => (Ok a, add_event (EvStageEnd s) w1)
  | (Throw e, w1) => (Throw e, w1)
  end.
Proof.
  unfold stage. rewrite bind_run. simpl. rewrite bind_run.
  by destruct (m env _) as [[a|e] w1].
Qed.

End StageEvents.

(* ===================================================================== *)
(** ** The root manifest *)
(* ===================================================================== *)

Lemma dependencies_addPinnedVersions pinned pj :
  dependencies (addPinnedVersions pinned pj) = assign_all pinned (dependencies pj).
Proof.
  unfold addPinnedVersions, assign_all. revert pj.
  induction pinned as [|e pinned IH]; intros pj; simpl; [done|]. by rewrite IH.
Qed.

Lemma dependencies_populate ps pj :
  dependencies
    (foldl (λ acc p, set_dependency acc (tempProjectName p)
                       (tempModuleReference (tempProjectName p))) pj ps)
  = assign_all (map tempModuleEntry ps) (dependencies pj).
Proof.
  unfold assign_all. revert pj.
  induction ps as [|p ps IH]; intros pj; simpl; [done|]. by rewrite IH.
Qed.

Lemma dependencies_rootManifest cmp cfg :
  dependencies (rootManifest cmp cfg) = assign_all (dependencyAssignments cmp cfg) [].
Proof.
  unfold rootManifest, dependencyAssignments.
  by rewrite dependencies_populate, dependencies_addPinnedVersions, assign_all_app.
Qed.

Lemma sortedRushProjects_perm cmp ps : Permutation (sortedRushProjects cmp ps) ps.
Proof. apply array_sort_perm. Qed.

Lemma sortedRushProjects_ascending cmp ps :
  consistent_comparator cmp →
  ascending cmp (map tempProjectName (sortedRushProjects cmp ps)).
Proof.
  intros [Htotal Htrans]. unfold ascending, sortedRushProjects.
  pose proof (array_sort_strongly_sorted
                (λ a b, cmp (tempProjectName a) (tempProjectName b))
                (λ a b, Htotal _ _) (λ a b c, Htrans _ _ _) ps) as Hsorted.
  induction Hsorted as [|p l Hsorted IH Hall]; simpl; constructor; [done|].
  rewrite List.Forall_forall in *. intros a Ha.
  apply in_map_iff in Ha as (q & <- & Hq). by apply Hall.
Qed.

(** Every project's alias holds its file reference. *)
Lemma rootManifest_temp_reference cmp cfg p :
  In p (projects cfg) →
  obj_get (dependencies (rootManifest cmp cfg)) (tempProjectName p)
  = Some (tempModuleReference (tempProjectName p)).
Proof.
  intros Hp. rewrite dependencies_rootManifest. unfold dependencyAssignments.
  rewrite assign_all_app. apply assign_all_get_const.
  - apply in_map_iff. exists p. split; [done|].
    eapply Permutation_in; [symmetry; apply sortedRushProjects_perm|done].
  - intros v' Hin. apply in_map_iff in Hin as (q & Heq & _).
    unfold tempModuleEntry in Heq. inversion Heq as [[Hname Hv]]. by rewrite Hname.
Qed.

(** A pinned name that is no project's alias holds its pinned version. *)
Lemma rootManifest_pinned_version cmp cfg dep ver :
  pinned_wf cfg →
  In (dep, ver) (pinnedVersions cfg) →
  (∀ p, In p (projects cfg) → tempProjectName p ≠ dep) →
  obj_get (dependencies (rootManifest cmp cfg)) dep = Some ver.
Proof.
  intros Hwf Hin Hfresh. rewrite dependencies_rootManifest.
  unfold dependencyAssignments. rewrite assign_all_app, assign_all_get_other.
  - apply assign_all_get_const; [done|]. intros v' Hv'.
    unfold pinned_wf in Hwf. clear Hfresh.
    induction (pinnedVersions cfg) as [|[k0 v0] l IH]; [done|].
    simpl in Hwf. apply NoDup_cons in Hwf as [Hk0 Hl].
    assert (∀ k v, In (k, v) l → k ∈ map fst l) as Hkeys.
    { intros k v Hkv. apply list_elem_of_In, in_map_iff. by exists (k, v). }
    destruct Hin as [Heq|Hin], Hv' as [Heq'|Hv'].
    + congruence.
    + inversion Heq; subst. by apply Hkeys in Hv'.
    + inversion Heq'; subst. by apply Hkeys in Hin.
    + by apply IH.
  - intros v Hv. apply in_map_iff in Hv as (q & Heq & Hq).
    inversion Heq as [[Hname Hv]]. apply (Hfresh q); [|done].
    eapply Permutation_in; [apply sortedRushProjects_perm|done].
Qed.

(** With fresh, distinct keys, none of them an array index, the object
    lists the assignments as they were made. *)
Lemma assign_all_layout ws :
  NoDup (map fst ws) →
  (∀ k, In k (map fst ws) → array_index k = None) →
  assign_all ws [] = ws.
Proof.
  induction ws as [|[k v] ws IH] using rev_ind; [done|].
  rewrite map_app, assign_all_app. simpl. intros Hnodup Hidx.
  apply NoDup_app in Hnodup as (Hnodup & Hfresh & _).
  rewrite IH; [|done|intros k' Hk'; apply Hidx, in_app_iff; by left].
  change (assign_all [(k, v)] ws) with (obj_set ws k v).
  unfold obj_set, obj_has.
  assert (obj_get ws k = None) as ->.
  { clear -Hfresh. induction ws as [|[k0 v0] ws IH]; simpl; [done|].
    destruct (String.eqb_spec k0 k) as [->|Hne].
    - exfalso. apply (Hfresh k); simpl; [left|left].
    - apply IH. intros x Hx. apply Hfresh. by right. }
  rewrite Hidx; [done|]. apply in_app_iff. right. by left.
Qed.

(* ===================================================================== *)
(** ** What each library call does *)
(* ===================================================================== *)

Lemma console_log_run s env w :
  console_log s env w = (Ok tt, add_event (EvLog s) w).
Proof. reflexivity. Qed.

Lemma emit_run e env w : emit e env w = (Ok tt, add_event e w).
Proof. reflexivity. Qed.

Lemma ask_run env w : ask env w = (Ok env, w).
Proof. reflexivity. Qed.

Lemma ret_run {A} (a : A) env w : (mret a : M A) env w = (Ok a, w).
Proof. reflexivity. Qed.

Lemma call_run e f env w :
  call e f env w = ((f env (fs w)).1, add_event e (set_fs (f env (fs w)).2 w)).
Proof. reflexivity. Qed.

Lemma tempModulesOf_run cfg env w :
  tempModulesOf cfg env w =
  (newTempModuleGenerator env cfg, add_event EvNewTempModuleGenerator w).
Proof.
  unfold tempModulesOf. rewrite bind_run, emit_run. cbv beta iota.
  rewrite bind_run, ask_run. cbv beta iota.
  by destruct (newTempModuleGenerator env cfg).
Qed.

Lemma loadConfiguration_run env w :
  loadConfiguration env w =
  (loadFromDefaultLocation env (fs w), add_event EvLoadFromDefaultLocation w).
Proof.
  unfold loadConfiguration. rewrite bind_run, emit_run. cbv beta iota.
  rewrite bind_run, ask_run. cbv beta iota. rewrite bind_run. simpl.
  by destruct (loadFromDefaultLocation env (fs w)).
Qed.

Lemma existsSync_run p env w :
  existsSync p env w = (Ok (exists_at (fs w) p), add_event (EvExistsSync p) w).
Proof. reflexivity. Qed.

Lemma mkdirSync_run p env w :
  mkdirSync p env w =
  let w1 := add_event (EvMkdirSync p) w in
  if fs_fault env (length (trace w)) then (Throw FilesystemError, w1)
  else if exists_at (fs w) p then (Throw FilesystemError, w1)
  else if is_dir (fs w !! parent p) then (Ok tt, set_fs (<[p := Dir]> (fs w)) w1)
  else (Throw FilesystemError, w1).
Proof.
  unfold mkdirSync, fs_call. rewrite bind_run. simpl.
  destruct (fs_fault env _); [done|]. rewrite bind_run. simpl.
  destruct (exists_at (fs w) p); [done|]. by destruct (is_dir _).
Qed.

Lemma saveJsonFile_run d p env w :
  saveJsonFile d p env w =
  let w1 := add_event (EvSaveJsonFile d p) w in
  if fs_fault env (length (trace w)) then (Throw FilesystemError, w1)
  else if is_dir (fs w !! p) then (Throw FilesystemError, w1)
  else if is_dir (fs w !! parent p) then (Ok tt, set_fs (<[p := JsonDoc d]> (fs w)) w1)
  else (Throw FilesystemError, w1).
Proof.
  unfold saveJsonFile, fs_call. rewrite bind_run. simpl.
  destruct (fs_fault env _); [done|]. rewrite bind_run. simpl.
  destruct (is_dir (fs w !! p)); [done|]. by destruct (is_dir _).
Qed.

Lemma recycleDirectory_run cfg p env w :
  recycleDirectory cfg p env w =
  let w1 := add_event (EvRecycleDirectory p) w in
  if fs_fault env (length (trace w)) then (Throw FilesystemError, w1)
  else if exists_at (fs w) p then
    (Ok tt, {| fs := remove_tree p (fs w);
               recycled := recycled w ++ [(p, subtree p (fs w))];
               trace := trace w1 |})
  else (Throw FilesystemError, w1).
Proof.
  unfold recycleDirectory, fs_call. rewrite bind_run. simpl.
  destruct (fs_fault env _); [done|]. rewrite bind_run. simpl.
  by destruct (exists_at (fs w) p).
Qed.

Lemma dangerouslyDeletePath_run p env w :
  dangerouslyDeletePath p env w =
  let w1 := add_event (EvDangerouslyDeletePath p) w in
  if fs_fault env (length (trace w)) then (Throw FilesystemError, w1)
  else (Ok tt, set_fs (remove_tree p (fs w)) w1).
Proof.
  unfold dangerouslyDeletePath, fs_call. rewrite bind_run. simpl.
  by destruct (fs_fault env _).
Qed.

Lemma mkdirSync_ok p env w u w' :
  mkdirSync p env w = (Ok u, w') →
  w' = set_fs (<[p := Dir]> (fs w)) (add_event (EvMkdirSync p) w) ∧
  exists_at (fs w) p = false ∧ is_dir (fs w !! parent p) = true.
Proof.
  rewrite mkdirSync_run. simpl.
  destruct (fs_fault env _); [done|].
  destruct (exists_at (fs w) p); [done|].
  destruct (is_dir _); [|done]. intros [= _ <-]. done.
Qed.

Lemma saveJsonFile_ok d p env w u w' :
  saveJsonFile d p env w = (Ok u, w') →
  w' = set_fs (<[p := JsonDoc d]> (fs w)) (add_event (EvSaveJsonFile d p) w).
Proof.
  rewrite saveJsonFile_run. simpl.
  destruct (fs_fault env _); [done|].
  destruct (is_dir (fs w !! p)); [done|].
  destruct (is_dir _); [|done]. by intros [= _ <-].
Qed.

(* ===================================================================== *)
(** ** Runs of [_createCommonTempModulesAndPackageJson] that return *)
(* ===================================================================== *)

Lemma createTempProject_ok cfg tm pj p env w pj' w' :
  createTempProject cfg tm pj p env w = (Ok pj', w') →
  pj' = set_dependency pj (tempProjectName p) (tempModuleReference (tempProjectName p)) ∧
  trace w' = trace w ++ tempProjectCalls cfg tm p.
Proof.
  unfold createTempProject. intros H.
  bind_inv H as H1. apply mkdirSync_ok in H1 as (-> & _ & _).
  bind_inv H as H1. apply saveJsonFile_ok in H1 as ->.
  injection H as <- <-. split; [done|]. simpl. by rewrite <- app_assoc.
Qed.

Lemma populate_ok cfg tm ps pj env w pj' w' :
  for_of_acc ps (createTempProject cfg tm) pj env w = (Ok pj', w') →
  pj' = foldl (λ acc p, set_dependency acc (tempProjectName p)
                          (tempModuleReference (tempProjectName p))) pj ps ∧
  trace w' = trace w ++ flat_map (tempProjectCalls cfg tm) ps.
Proof.
  revert pj w. induction ps as [|p ps IH]; intros pj w H; simpl in H.
  - injection H as <- <-. by rewrite app_nil_r.
  - bind_inv H as H1. apply createTempProject_ok in H1 as (-> & Htr).
    apply IH in H as (-> & Htr'). split; [done|].
    rewrite Htr', Htr. simpl. by rewrite <- app_assoc.
Qed.

(** The events of a run that returned, and the document it saved. *)
Lemma create_ok_trace cfg env w u w' :
  _createCommonTempModulesAndPackageJson cfg env w = (Ok u, w') →
  ∃ tm attempts,
    newTempModuleGenerator env cfg = Ok tm ∧
    Forall (λ e, e = EvMkdirSync (tempModulesFolder cfg)) attempts ∧
    trace w' = trace w ++ createEvents (localeCompare env) cfg tm attempts ∧
    fs w' !! commonPackageJsonFilename cfg
    = Some (JsonDoc (Some (rootManifest (localeCompare env) cfg))).
Proof.
  unfold _createCommonTempModulesAndPackageJson. intros H.
  bind_inv H as H1. injection H1 as <- <-.
  bind_inv H as H1. unfold createFolderWithRetry in H1. bind_inv H1 as H2.
  injection H2 as <- <-.
  pose proof (emitting_createFolderAttempts env
                (λ e, e = EvMkdirSync (tempModulesFolder cfg))
                (maxAttempts env) (tempModulesFolder cfg) eq_refl
                (add_event (EvLog "Creating a clean common/temp_modules folder") w))
    as (attempts & Hattempts & Hall).
  rewrite H1 in Hattempts. simpl in Hattempts. clear H1.
  bind_inv H as H1. injection H1 as <- <-.
  bind_inv H as H1. injection H1 as <- <-.
  bind_inv H as H1. unfold tempModulesOf in H1. bind_inv H1 as H2.
  injection H2 as <- <-. bind_inv H1 as H2. injection H2 as <- <-.
  destruct (newTempModuleGenerator env cfg) as [tm|e] eqn:Htm; [|done].
  injection H1 as <- <-.
  bind_inv H as H1. apply populate_ok in H1 as (-> & Htr).
  bind_inv H as H1. injection H1 as <- <-.
  apply saveJsonFile_ok in H as ->.
  exists tm, attempts. split_and!; [done|done| |].
  - simpl. rewrite Htr. simpl. rewrite Hattempts. unfold createEvents.
    unfold rootManifest, commonPackageJsonFilename.
    by rewrite <- !app_assoc.
  - simpl. unfold commonPackageJsonFilename, rootManifest.
    by rewrite lookup_insert_eq.
Qed.

(* ===================================================================== *)
(** ** Paths *)
(* ===================================================================== *)

Lemma parent_path_join p s : parent (path_join p s) = p.
Proof. apply removelast_last. Qed.

Lemma prefix_app_same (p x y : path) : (p ++ x) `prefix_of` (p ++ y) → x `prefix_of` y.
Proof.
  intros [k Hk]. exists k. rewrite <- app_assoc in Hk. by apply app_inv_head in Hk.
Qed.

Lemma prefix_join_inv (p : path) a b (rest : path) :
  path_join p a `prefix_of` (p ++ b :: rest) → a = b.
Proof.
  unfold path_join. intros H. apply prefix_app_same in H as [k Hk]. by injection Hk.
Qed.

Lemma not_prefix_longer (p q : path) : length q < length p → ¬ p `prefix_of` q.
Proof. intros Hlen [k ->]. rewrite length_app in Hlen. lia. Qed.

Lemma absent_lookup p f : absent p f → f !! p = None.
Proof. intros H. by apply H. Qed.

(* ===================================================================== *)
(** ** [_createCommonTempModulesAndPackageJson] returns *)
(* ===================================================================== *)

Section CreateSucceeds.
Context (env : Env) (cfg : RushConfiguration) (tm : gmap string PackageJson).
Hypothesis Hfault : no_fault env.

Lemma createFolderWithRetry_fresh p w :
  0 < maxAttempts env →
  exists_at (fs w) p = false → is_dir (fs w !! parent p) = true →
  createFolderWithRetry p env w
  = (Ok tt, set_fs (<[p := Dir]> (fs w)) (add_event (EvMkdirSync p) w)).
Proof.
  intros Hn Hfree Hparent. unfold createFolderWithRetry. rewrite bind_run. simpl.
  destruct (maxAttempts env) as [|n]; [lia|]. simpl. unfold try_catch.
  rewrite mkdirSync_run. simpl. by rewrite Hfault, Hfree, Hparent.
Qed.

Lemma mkdirSync_fresh p w :
  fs w !! p = None → is_dir (fs w !! parent p) = true →
  mkdirSync p env w
  = (Ok tt, set_fs (<[p := Dir]> (fs w)) (add_event (EvMkdirSync p) w)).
Proof.
  intros Hfree Hparent. rewrite mkdirSync_run. unfold exists_at.
  by rewrite Hfault, Hfree, Hparent.
Qed.

Lemma saveJsonFile_succeeds d p w :
  is_dir (fs w !! p) = false → is_dir (fs w !! parent p) = true →
  saveJsonFile d p env w
  = (Ok tt, set_fs (<[p := JsonDoc d]> (fs w)) (add_event (EvSaveJsonFile d p) w)).
Proof.
  intros Hfree Hparent. rewrite saveJsonFile_run.
  by rewrite Hfault, Hfree, Hparent.
Qed.

Lemma folder_ne_file (folder : path) s : folder ≠ path_join folder s.
Proof.
  unfold path_join. intros Heq. apply (f_equal length) in Heq.
  rewrite length_app in Heq. simpl in Heq. lia.
Qed.

Lemma createTempProject_succeeds pj p w :
  is_dir (fs w !! tempModulesFolder cfg) = true →
  absent (tempProjectFolder cfg p) (fs w) →
  ∃ w', createTempProject cfg tm pj p env w
        = (Ok (set_dependency pj (tempProjectName p)
                 (tempModuleReference (tempProjectName p))), w') ∧
        fs w' = <[path_join (tempProjectFolder cfg p) "package.json"
                    := JsonDoc (tm !! packageName p)]>
                  (<[tempProjectFolder cfg p := Dir]> (fs w)).
Proof.
  intros Hroot Hfree. unfold createTempProject.
  fold (tempProjectFolder cfg p).
  rewrite bind_run, mkdirSync_fresh.
  - rewrite bind_run, saveJsonFile_succeeds.
    + eexists. split; reflexivity.
    + simpl. rewrite lookup_insert_ne by apply folder_ne_file.
      rewrite (Hfree (path_join _ _)); [done|]. by exists ["package.json"].
    + simpl. by rewrite parent_path_join, lookup_insert_eq.
  - by apply Hfree.
  - unfold tempProjectFolder. by rewrite parent_path_join.
Qed.

Lemma populate_succeeds ps pj w :
  NoDup (map tempProjectName ps) →
  is_dir (fs w !! tempModulesFolder cfg) = true →
  (∀ p, In p ps → absent (tempProjectFolder cfg p) (fs w)) →
  ∃ pj' w',
    for_of_acc ps (createTempProject cfg tm) pj env w = (Ok pj', w') ∧
    ∀ q, (∀ p, In p ps → ¬ tempProjectFolder cfg p `prefix_of` q) →
         fs w' !! q = fs w !! q.
Proof.
  revert pj w. induction ps as [|p ps IH]; intros pj w Hnodup Hroot Hfree.
  - exists pj, w. done.
  - simpl in Hnodup. apply NoDup_cons in Hnodup as [Hp Hnodup].
    destruct (createTempProject_succeeds pj p w) as (w1 & Hrun1 & Hfs1);
      [done|apply Hfree; by left|].
    assert (∀ q, ¬ tempProjectFolder cfg p `prefix_of` q →
                 fs w1 !! q = fs w !! q) as Hframe1.
    { intros q Hq. rewrite Hfs1, !lookup_insert_ne; [done| |].
      - intros <-. by apply Hq.
      - intros <-. apply Hq. by exists ["package.json"]. }
    destruct (IH (set_dependency pj (tempProjectName p)
                    (tempModuleReference (tempProjectName p))) w1)
      as (pj' & w' & Hrun & Hframe).
    + done.
    + rewrite Hframe1; [done|]. apply not_prefix_longer.
      unfold tempProjectFolder, path_join. rewrite length_app. simpl. lia.
    + intros p' Hp' q Hq.
      assert (tempProjectName p' ≠ tempProjectName p) as Hne.
      { intros Heq. apply Hp. rewrite <- Heq.
        apply list_elem_of_In, in_map_iff. eauto. }
      rewrite Hframe1; [apply (Hfree p'); [by right|done]|].
      intros [k1 Hk1]. destruct Hq as [k2 Hk2]. apply Hne.
      (* the same path below two temp project folders *)
      rewrite Hk1 in Hk2. unfold tempProjectFolder, path_join in Hk2.
      rewrite <- !app_assoc in Hk2. apply app_inv_head in Hk2.
      simpl in Hk2. by injection Hk2.
    + exists pj', w'. split.
      * simpl. by rewrite bind_run, Hrun1.
      * intros q Hq. rewrite Hframe; [apply Hframe1, Hq; by left|].
        intros p' Hp'. apply Hq. by right.
Qed.

Lemma create_succeeds w :
  0 < maxAttempts env →
  newTempModuleGenerator env cfg = Ok tm →
  NoDup (map tempProjectName (projects cfg)) →
  fresh_layout cfg (fs w) →
  (_createCommonTempModulesAndPackageJson cfg env w).1 = Ok tt.
Proof.
  intros Hn Htm Hnodup (Htmf & Hcommon & Habsent & Hfile).
  unfold _createCommonTempModulesAndPackageJson.
  rewrite bind_run, console_log_run. cbv beta iota.
  rewrite bind_run, createFolderWithRetry_fresh; cycle 1.
  { done. }
  { unfold exists_at. simpl. by rewrite (absent_lookup _ _ Habsent). }
  { simpl. by rewrite Htmf, parent_path_join. }
  cbv beta iota.
  rewrite bind_run, console_log_run. cbv beta iota.
  rewrite bind_run, ask_run. cbv beta iota.
  rewrite bind_run, tempModulesOf_run, Htm. cbv beta iota.
  rewrite bind_run.
  match goal with |- context [for_of_acc ?ps _ ?pj1 env ?w1] =>
    destruct (populate_succeeds ps pj1 w1) as (pj' & w' & Hrun & Hframe) end.
  - by rewrite (Permutation_map tempProjectName (sortedRushProjects_perm _ _)).
  - simpl. by rewrite lookup_insert_eq.
  - intros p Hp q Hq. simpl. rewrite lookup_insert_ne.
    + apply Habsent. etrans; [|exact Hq]. by exists [tempProjectName p].
    + intros <-. revert Hq. apply not_prefix_longer.
      unfold tempProjectFolder, path_join. rewrite length_app. simpl. lia.
  - rewrite Hrun. cbv beta iota.
    assert (∀ q, ¬ tempModulesFolder cfg `prefix_of` q →
                 fs w' !! q = fs w !! q) as Hout.
    { intros q Hq. rewrite Hframe.
      - simpl. rewrite lookup_insert_ne; [done|]. intros <-. by apply Hq.
      - intros p _ Hpre. apply Hq. etrans; [|exact Hpre].
        by exists [tempProjectName p]. }
    rewrite bind_run, console_log_run. cbv beta iota.
    fold (commonPackageJsonFilename cfg).
    rewrite saveJsonFile_succeeds; [done| |].
    + simpl. rewrite Hout; [done|].
      rewrite Htmf. unfold commonPackageJsonFilename, path_join.
      intros Hpre. apply prefix_app_same in Hpre as [k Hk]. discriminate.
    + simpl. unfold commonPackageJsonFilename. rewrite parent_path_join.
      rewrite Hout; [done|].
      apply not_prefix_longer. rewrite Htmf. unfold path_join.
      rewrite length_app. simpl. lia.
Qed.
End CreateSucceeds.

(* ===================================================================== *)
(** ** The comparison used by the concrete workspaces *)
(* ===================================================================== *)

Lemma string_compare_le_trans a b c :
  String.compare a b ≠ Gt → String.compare b c ≠ Gt → String.compare a c ≠ Gt.
Proof.
  revert b c. induction a as [|x a IH]; intros [|y b] [|z c]; simpl; try done.
  unfold Ascii.compare.
  destruct (N.compare_spec (N_of_ascii x) (N_of_ascii y)) as [Hxy|Hxy|Hxy];
    destruct (N.compare_spec (N_of_ascii y) (N_of_ascii z)) as [Hyz|Hyz|Hyz];
    destruct (N.compare_spec (N_of_ascii x) (N_of_ascii z)) as [Hxz|Hxz|Hxz];
    try done; try lia.
  apply IH.
Qed.

Lemma compare_code_units_le a b :
  (compare_code_units a b <= 0)%Z ↔ String.compare a b ≠ Gt.
Proof. unfold compare_code_units. destruct (String.compare a b); split; (done || lia). Qed.

Lemma compare_code_units_consistent : consistent_comparator compare_code_units.
Proof.
  split.
  - intros a b. rewrite !compare_code_units_le, (String.compare_antisym b a).
    destruct (String.compare a b); simpl; auto.
  - intros a b c. rewrite !compare_code_units_le. apply string_compare_le_trans.
Qed.

(* ===================================================================== *)
(** ** The root manifest written by a run *)
(* ===================================================================== *)

Lemma create_ok_manifest cfg env w :
  (_createCommonTempModulesAndPackageJson cfg env w).1 = Ok tt →
  fs (_createCommonTempModulesAndPackageJson cfg env w).2
    !! commonPackageJsonFilename cfg
  = Some (JsonDoc (Some (rootManifest (localeCompare env) cfg))).
Proof.
  destruct (_createCommonTempModulesAndPackageJson cfg env w) as [r w'] eqn:Hrun.
  simpl. intros ->. by apply create_ok_trace in Hrun as (tm & att & _ & _ & _ & Hdoc).
Qed.

Lemma rootManifest_inputs cmp cfg1 cfg2 :
  pinnedVersions cfg1 = pinnedVersions cfg2 →
  projects cfg1 = projects cfg2 →
  rootManifest cmp cfg1 = rootManifest cmp cfg2.
Proof. unfold rootManifest. by intros -> ->. Qed.

Lemma demo_env_no_fault cfg : no_fault (demo_env cfg).
Proof. by intros n. Qed.


Lemma collision_layout : fresh_layout collision_config fresh_fs.
Proof.
  split_and!; try done.
  intros q [r ->]. unfold fresh_fs. simpl.
  rewrite !lookup_insert_ne by discriminate. apply lookup_empty.
Qed.





(** The order of the project list does not matter either, as long as
    [localeCompare] tells any two distinct aliases apart. *)
Lemma populate_by_names ps pj :
  foldl (λ acc p, set_dependency acc (tempProjectName p)
                    (tempModuleReference (tempProjectName p))) pj ps
  = foldl (λ acc n, set_dependency acc n (tempModuleReference n)) pj
      (map tempProjectName ps).
Proof. revert pj. induction ps as [|p ps IH]; intros pj; simpl; [done|apply IH]. Qed.

Lemma ascending_unique cmp l1 l2 :
  (∀ a b, (cmp a b <= 0)%Z → (cmp b a <= 0)%Z → a = b) →
  ascending cmp l1 → ascending cmp l2 → Permutation l1 l2 → l1 = l2.
Proof.
  intros Hanti. unfold ascending. revert l2.
  induction l1 as [|a l1 IH]; intros l2 H1 H2 Hperm.
  - by apply Permutation_nil in Hperm.
  - destruct l2 as [|b l2]; [by apply Permutation_sym, Permutation_nil in Hperm|].
    apply StronglySorted_inv in H1 as [H1 Ha], H2 as [H2 Hb].
    rewrite List.Forall_forall in Ha, Hb.
    assert (a = b) as ->.
    { assert (In a (b :: l2)) as [->|Hin] by (eapply Permutation_in; [exact Hperm|by left]);
        [done|].
      assert (In b (a :: l1)) as [->|Hin'];
        [eapply Permutation_in; [symmetry; exact Hperm|by left]|done|].
      apply Hanti; auto. }
    f_equal. apply IH; [done..|]. by apply Permutation_cons_inv in Hperm.
Qed.

Lemma rootManifest_project_order cmp cfg1 cfg2 :
  consistent_comparator cmp →
  (∀ a b, (cmp a b <= 0)%Z → (cmp b a <= 0)%Z → a = b) →
  pinnedVersions cfg1 = pinnedVersions cfg2 →
  Permutation (projects cfg1) (projects cfg2) →
  rootManifest cmp cfg1 = rootManifest cmp cfg2.
Proof.
  intros Hcmp Hanti Hpinned Hperm. unfold rootManifest.
  rewrite !populate_by_names, Hpinned. f_equal.
  apply (ascending_unique cmp); [done|by apply sortedRushProjects_ascending..|].
  apply Permutation_map.
  rewrite !sortedRushProjects_perm. done.
Qed.



(** Where no temp alias is pinned, no alias is repeated and no key is an
    array index, the manifest lists the pinned entries, then the temp
    references in ascending order. *)
Lemma rootManifest_layout cmp cfg :
  NoDup (map fst (pinnedVersions cfg) ++ map tempProjectName (projects cfg)) →
  (∀ k, In k (map fst (pinnedVersions cfg) ++ map tempProjectName (projects cfg)) →
        array_index k = None) →
  dependencies (rootManifest cmp cfg)
  = pinnedVersions cfg ++
    map tempModuleEntry (sortedRushProjects cmp (projects cfg)).
Proof.
  intros Hnodup Hidx. rewrite dependencies_rootManifest.
  unfold dependencyAssignments.
  assert (Permutation
            (map fst (pinnedVersions cfg ++
                      map tempModuleEntry (sortedRushProjects cmp (projects cfg))))
            (map fst (pinnedVersions cfg) ++ map tempProjectName (projects cfg)))
    as Hperm.
  { rewrite map_app, map_map. simpl. apply Permutation_app_head.
    apply Permutation_map, sortedRushProjects_perm. }
  apply assign_all_layout.
  - by rewrite Hperm.
  - intros k Hk. apply Hidx. eapply Permutation_in; [exact Hperm|done].
Qed.

(** The two orders an example shows: [rush-b] before [rush-a] in the
    project list, [rush-a] before [rush-b] in the manifest. *)
Example demo_root_manifest :
  dependencies (rootManifest compare_code_units demo_config)
  = [("lodash", "4.17.4"); ("typescript", "2.4.1");
     ("rush-a", "file:./temp_modules/rush-a");
     ("rush-b", "file:./temp_modules/rush-b")].
Proof. reflexivity. Qed.

(** The generator as the spec describes it knows every project. *)
Lemma specTempModules_complete cfg p :
  In p (projects cfg) → is_Some (specTempModules cfg !! packageName p).
Proof.
  intros Hp. unfold specTempModules.
  destruct (list_to_map _ !! packageName p) as [x|] eqn:Hlookup; [eauto|].
  apply not_elem_of_list_to_map in Hlookup. exfalso. apply Hlookup.
  apply list_elem_of_fmap. eexists (_, _). split; [reflexivity|].
  apply list_elem_of_fmap. exists p. split; [done|]. by apply list_elem_of_In.
Qed.

(** C10: the document handed to the JSON writer for a project is the
    result of looking up the project's [packageName] in the generator's
    map, as it comes.  In every run that returns, each project gives one
    [saveJsonFile] call with that lookup result; a project the map does
    not know gives a call with [undefined], and the run returns all the
    same; when the map knows every project, every temp manifest written
    is a document. *)
Theorem temp_manifest_lookup_unguarded (env : Env) (cfg : RushConfiguration)
    (w : World) :
  (_createCommonTempModulesAndPackageJson cfg env w).1 = Ok tt →
  ∃ tm attempts loop_calls,
    newTempModuleGenerator env cfg = Ok tm ∧
    loop_calls = flat_map (tempProjectCalls cfg tm)
                   (sortedRushProjects (localeCompare env) (projects cfg)) ∧
    trace (_createCommonTempModulesAndPackageJson cfg env w).2
    = trace w ++ createEvents (localeCompare env) cfg tm attempts ∧
    (∀ p, In p (projects cfg) →
          In (EvSaveJsonFile (tm !! packageName p)
                (path_join (tempProjectFolder cfg p) "package.json")) loop_calls) ∧
    (∀ p, In p (projects cfg) → tm !! packageName p = None →
          In (EvSaveJsonFile None
                (path_join (tempProjectFolder cfg p) "package.json")) loop_calls) ∧
    ((∀ p, In p (projects cfg) → is_Some (tm !! packageName p)) →
     ∀ doc f, In (EvSaveJsonFile doc f) loop_calls → is_Some doc).
Proof.
  destruct (_createCommonTempModulesAndPackageJson cfg env w) as [r w'] eqn:Hrun.
  simpl. intros ->.
  apply create_ok_trace in Hrun as (tm & attempts & Htm & Hatt & Htrace & _).
  exists tm, attempts. eexists. split; [done|]. split; [done|]. split; [done|].
  assert (∀ p, In p (projects cfg) →
            In (EvSaveJsonFile (tm !! packageName p)
                  (path_join (tempProjectFolder cfg p) "package.json"))
               (flat_map (tempProjectCalls cfg tm)
                  (sortedRushProjects (localeCompare env) (projects cfg))))
    as Hcalls.
  { intros p Hp. apply in_flat_map. exists p. split.
    - eapply Permutation_in; [symmetry; apply sortedRushProjects_perm|done].
    - right. by left. }
  split; [done|]. split.
  - intros p Hp Hnone. rewrite <- Hnone. by apply Hcalls.
  - intros Hall doc f Hin.
    apply in_flat_map in Hin as (p & Hp & [Heq|[Heq|[]]]); [done|].
    injection Heq as <- _. apply Hall.
    eapply Permutation_in; [apply sortedRushProjects_perm|done].
Qed.

Lemma temp_manifest_lookup_unguarded_witness :
  ∃ tm attempts loop_calls,
    newTempModuleGenerator other_env other_config = Ok tm ∧
    loop_calls = flat_map (tempProjectCalls other_config tm)
                   (sortedRushProjects compare_code_units (projects other_config)) ∧
    trace (_createCommonTempModulesAndPackageJson other_config other_env other_world).2
    = trace other_world ++ createEvents compare_code_units other_config tm attempts ∧
    (∀ p, In p (projects other_config) →
          In (EvSaveJsonFile (tm !! packageName p)
                (path_join (tempProjectFolder other_config p) "package.json"))
             loop_calls) ∧
    (∀ p, In p (projects other_config) → tm !! packageName p = None →
          In (EvSaveJsonFile None
                (path_join (tempProjectFolder other_config p) "package.json"))
             loop_calls) ∧
    ((∀ p, In p (projects other_config) → is_Some (tm !! packageName p)) →
     ∀ doc f, In (EvSaveJsonFile doc f) loop_calls → is_Some doc).
Proof.
  apply (temp_manifest_lookup_unguarded other_env other_config other_world).
  vm_compute. reflexivity.
Defined.

(** With a generator that knows no project the writer is handed
    [undefined] for [rush-a], and the file written holds no document. *)
Example undefined_document_written :
  let r := _createCommonTempModulesAndPackageJson other_config other_env other_world in
  r.1 = Ok tt ∧
  In (EvSaveJsonFile None ["work"; "common"; "temp_modules"; "rush-a"; "package.json"])
     (trace r.2) ∧
  fs r.2 !! ["work"; "common"; "temp_modules"; "rush-a"; "package.json"]
  = Some (JsonDoc None).
Proof. vm_compute. split; [done|]. split; [|done]. do 9 right. by left. Qed.

(* ===================================================================== *)
(** ** Directory entries, globbing, removing trees *)
(* ===================================================================== *)

Lemma below_spec dir q r : below dir q = Some r ↔ q = dir ++ r.
Proof.
  revert q. induction dir as [|d dir IH]; intros q; simpl.
  - split; congruence.
  - destruct q as [|s q]; [done|].
    destruct (String.eqb_spec d s) as [->|Hne].
    + rewrite IH. split; [by intros ->|by intros [= ->]].
    + split; [done|]. by intros [= -> _].
Qed.

Lemma at_or_below_spec dir q : at_or_below dir q = true ↔ dir `prefix_of` q.
Proof.
  unfold at_or_below. destruct (below dir q) as [r|] eqn:Hb.
  - apply below_spec in Hb. split; [by exists r|done].
  - split; [done|]. intros [r Hr]. apply below_spec in Hr. congruence.
Qed.

Lemma entry_name_spec dir q n : entry_name dir q = Some n ↔ q = dir ++ [n].
Proof.
  revert q. induction dir as [|d dir IH]; intros q; simpl.
  - destruct q as [|s [|s' q]]; split; congruence.
  - destruct q as [|s q]; [done|].
    destruct (String.eqb_spec d s) as [->|Hne].
    + rewrite IH. split; [by intros ->|by intros [= ->]].
    + split; [done|]. by intros [= -> _].
Qed.

Lemma lookup_remove_tree_below p f q :
  p `prefix_of` q → remove_tree p f !! q = None.
Proof.
  intros Hpre. apply map_lookup_filter_None_2. right. intros x _ Hnot.
  by apply Hnot.
Qed.

Lemma lookup_remove_tree_other p f q :
  ¬ p `prefix_of` q → remove_tree p f !! q = f !! q.
Proof.
  intros Hpre. destruct (f !! q) as [x|] eqn:Hq.
  - by apply map_lookup_filter_Some_2.
  - apply map_lookup_filter_None_2. by left.
Qed.

Lemma elem_of_glob_names dir pat f n :
  n ∈ glob_names dir pat f ↔
  is_Some (f !! (dir ++ [n])) ∧ wildcard_match pat n = true.
Proof.
  unfold glob_names. rewrite list_elem_of_omap. split.
  - intros ([q x] & Hin & Hmatch). simpl in Hmatch.
    apply elem_of_map_to_list in Hin.
    destruct (entry_name dir q) as [n'|] eqn:Hname; [|done].
    destruct (wildcard_match pat n') eqn:Hpat; [|done].
    injection Hmatch as ->. apply entry_name_spec in Hname as ->. eauto.
  - intros [[x Hx] Hpat]. exists (dir ++ [n], x). split.
    + by apply elem_of_map_to_list.
    + simpl. rewrite (proj2 (entry_name_spec dir _ n) eq_refl). by rewrite Hpat.
Qed.

Lemma NoDup_glob_names dir pat f : NoDup (glob_names dir pat f).
Proof.
  unfold glob_names.
  pose proof (NoDup_fst_map_to_list f) as Hnodup.
  induction (map_to_list f) as [|[q x] l IH]; simpl; [constructor|].
  simpl in Hnodup. apply NoDup_cons in Hnodup as [Hq Hnodup].
  destruct (entry_name dir q) as [n|] eqn:Hname; [|by apply IH].
  destruct (wildcard_match pat n); [|by apply IH].
  simpl. apply NoDup_cons. split; [|by apply IH].
  intros Hin. apply list_elem_of_omap in Hin as ([q' x'] & Hin & Hmatch).
  simpl in Hmatch. destruct (entry_name dir q') as [n'|] eqn:Hname'; [|done].
  destruct (wildcard_match pat n'); [|done]. injection Hmatch as ->.
  apply entry_name_spec in Hname as ->. apply entry_name_spec in Hname' as ->.
  apply Hq. apply list_elem_of_fmap. by exists (dir ++ [n], x').
Qed.

Lemma glob_names_absent dir pat f : absent dir f → glob_names dir pat f = [].
Proof.
  intros Habs. destruct (glob_names dir pat f) as [|n l] eqn:Hnames; [done|].
  assert (n ∈ glob_names dir pat f) as Hin by (rewrite Hnames; left).
  apply elem_of_glob_names in Hin as [[x Hx] _].
  rewrite Habs in Hx; [done|]. by exists [n].
Qed.

Lemma wildcard_match_star s : wildcard_match "*" s = true.
Proof. induction s as [|c s IH]; [done|]. simpl in *. exact IH. Qed.

Lemma wildcard_match_literal_star lit n :
  literal lit = true → wildcard_match (lit +:+ "*") n = String.prefix lit n.
Proof.
  revert n. induction lit as [|c lit IH]; intros n Hlit.
  - rewrite wildcard_match_star. by destruct n.
  - simpl in Hlit. apply andb_prop in Hlit as [Hc Hlit].
    apply negb_true_iff in Hc. destruct n as [|d n]; simpl; rewrite Hc; [done|].
    rewrite IH by done.
    destruct (ascii_dec c d) as [->|Hne]; [by rewrite Ascii.eqb_refl|].
    by apply Ascii.eqb_neq in Hne as ->.
Qed.

Lemma wildcard_match_rush n : wildcard_match "rush-*" n = String.prefix "rush-" n.
Proof. by apply (wildcard_match_literal_star "rush-"). Qed.

Lemma glob_sync_run dir pat env w :
  glob_sync dir pat env w =
  (Ok (map (path_join dir)
         (array_sort (localeCompare env) (glob_names dir pat (fs w)))),
   add_event (EvGlobSync dir pat) w).
Proof. reflexivity. Qed.

Lemma fs_wf_ancestor f p k : fs_wf f → is_Some (f !! (p ++ k)) → is_Some (f !! p).
Proof.
  intros Hwf. induction k as [|x k IH] using rev_ind.
  - by rewrite app_nil_r.
  - rewrite app_assoc. intros Hsome. apply IH. rewrite (Hwf _ _ Hsome). eauto.
Qed.

(* ===================================================================== *)
(** ** Teardown of a workspace that has nothing to tear down *)
(* ===================================================================== *)

Lemma noop_bind (m1 m2 : M unit) env w :
  noop m1 env w →
  (∀ w1, fs w1 = fs w → recycled w1 = recycled w → noop m2 env w1) →
  noop (m1;; m2) env w.
Proof.
  intros (evs1 & Hrun1 & Hro1) Hm2.
  destruct (Hm2 {| fs := fs w; recycled := recycled w; trace := trace w ++ evs1 |}
              eq_refl eq_refl) as (evs2 & Hrun2 & Hro2).
  exists (evs1 ++ evs2). split.
  - rewrite bind_run, Hrun1, Hrun2. simpl. by rewrite app_assoc.
  - by apply Forall_app.
Qed.

Lemma noop_delete_if_exists (p : path) (msg : string) env w :
  fs w !! p = None →
  noop (found ← existsSync p;
        if (found : bool) then console_log msg;; dangerouslyDeletePath p
        else mret tt) env w.
Proof.
  intros Hnone. exists [EvExistsSync p]. split.
  - rewrite bind_run, existsSync_run. unfold exists_at. by rewrite Hnone.
  - by repeat constructor.
Qed.

Lemma noop_deleteCommonNodeModules cfg isLazy env w :
  absent (nodeModulesPath cfg) (fs w) →
  noop (_deleteCommonNodeModules cfg isLazy) env w.
Proof.
  intros Habs. unfold _deleteCommonNodeModules. fold (nodeModulesPath cfg).
  destruct isLazy.
  - exists [EvLog "Deleting common/node_modules/rush-*";
            EvGlobSync (nodeModulesPath cfg) "rush-*"]. split.
    + rewrite bind_run, console_log_run. cbv beta iota.
      rewrite bind_run, glob_sync_run. cbv beta iota.
      unfold globEscape, getAllReplaced. simpl fs.
      rewrite glob_names_absent by done. simpl.
      rewrite ret_run. unfold add_event. simpl. by rewrite <- app_assoc.
    + by repeat constructor.
  - exists [EvExistsSync (nodeModulesPath cfg)]. split.
    + rewrite bind_run, existsSync_run. unfold exists_at.
      by rewrite (absent_lookup _ _ Habs).
    + by repeat constructor.
Qed.

(** C9: with nothing at the three targets (the shared [node_modules]
    folder, the shrinkwrap file, the temp-modules folder), each teardown
    function returns without touching the disk or the recycler, in lazy
    and in full mode and whatever faults the environment holds ready: the
    only calls made are the existence tests, the glob and console lines.
    The three in sequence therefore return as well. *)
Theorem teardown_noop_when_absent (env : Env) (cfg : RushConfiguration)
    (isLazy : bool) (w : World) :
  absent (nodeModulesPath cfg) (fs w) →
  fs w !! shrinkwrapFilename cfg = None →
  fs w !! tempModulesFolder cfg = None →
  noop (_deleteCommonNodeModules cfg isLazy) env w ∧
  noop (_deleteShrinkwrapFile cfg) env w ∧
  noop (_deleteCommonTempModules cfg) env w ∧
  noop (teardown cfg isLazy) env w.
Proof.
  intros Hnm Hlock Htmp.
  assert (∀ w1, fs w1 = fs w → noop (_deleteShrinkwrapFile cfg) env w1) as H2.
  { intros w1 Hfs.
    apply (noop_delete_if_exists (shrinkwrapFilename cfg)
             "Deleting common/npm-shrinkwrap.json").
    by rewrite Hfs. }
  assert (∀ w1, fs w1 = fs w → noop (_deleteCommonTempModules cfg) env w1) as H3.
  { intros w1 Hfs.
    apply (noop_delete_if_exists (tempModulesFolder cfg)
             "Deleting common/temp_modules folder").
    by rewrite Hfs. }
  split_and!; [by apply noop_deleteCommonNodeModules|by apply H2|by apply H3|].
  unfold teardown. apply noop_bind; [by apply noop_deleteCommonNodeModules|].
  intros w1 Hfs1 _. apply noop_bind; [by apply H2|].
  intros w2 Hfs2 _. apply H3. congruence.
Qed.

Lemma teardown_noop_when_absent_witness :
  noop (_deleteCommonNodeModules demo_config true) (demo_env demo_config)
    (world_of fresh_fs) ∧
  noop (_deleteShrinkwrapFile demo_config) (demo_env demo_config)
    (world_of fresh_fs) ∧
  noop (_deleteCommonTempModules demo_config) (demo_env demo_config)
    (world_of fresh_fs) ∧
  noop (teardown demo_config true) (demo_env demo_config) (world_of fresh_fs).
Proof.
  apply (teardown_noop_when_absent (demo_env demo_config) demo_config true
           (world_of fresh_fs)).
  - intros q [r ->]. unfold fresh_fs. simpl.
    rewrite !lookup_insert_ne by discriminate. apply lookup_empty.
  - vm_compute. reflexivity.
  - vm_compute. reflexivity.
Defined.

(* ===================================================================== *)
(** ** What [_deleteCommonNodeModules] removes *)
(* ===================================================================== *)

Lemma temp_entry_below_spec dir q :
  temp_entry_below dir q = true ↔
  ∃ n rest, q = dir ++ n :: rest ∧ String.prefix "rush-" n = true.
Proof.
  unfold temp_entry_below. destruct (below dir q) as [[|n rest]|] eqn:Hb.
  - apply below_spec in Hb as ->. split; [done|].
    intros (n & rest & Heq & _). apply (f_equal length) in Heq.
    rewrite !length_app in Heq. simpl in Heq. lia.
  - apply below_spec in Hb as ->. split; [by exists n, rest|].
    intros (n' & rest' & Heq & Hn'). apply app_inv_head in Heq. by injection Heq as -> ->.
  - split; [done|]. intros (n & rest & Heq & _).
    apply below_spec in Heq. congruence.
Qed.

Section Recycle.
Context (env : Env) (cfg : RushConfiguration).
Hypothesis Hfault : no_fault env.

Lemma recycleDirectory_existing p w :
  is_Some (fs w !! p) →
  recycleDirectory cfg p env w
  = (Ok tt, {| fs := remove_tree p (fs w);
               recycled := recycled w ++ [(p, subtree p (fs w))];
               trace := trace w ++ [EvRecycleDirectory p] |}).
Proof.
  intros [x Hx]. rewrite recycleDirectory_run. unfold exists_at.
  by rewrite Hfault, Hx.
Qed.

(** The loop of lines 41-43 over distinct, existing entries of [dir]. *)
Lemma recycle_entries dir names w :
  NoDup names →
  (∀ n, n ∈ names → is_Some (fs w !! path_join dir n)) →
  ∃ w',
    for_of (map (path_join dir) names) (recycleDirectory cfg) env w = (Ok tt, w') ∧
    (∀ q n, n ∈ names → path_join dir n `prefix_of` q → fs w' !! q = None) ∧
    (∀ q, (∀ n, n ∈ names → ¬ path_join dir n `prefix_of` q) →
          fs w' !! q = fs w !! q).
Proof.
  revert w. induction names as [|n ns IH]; intros w Hnodup Hexist.
  - exists w. split; [done|]. split; [|done]. intros q n Hn. by apply elem_of_nil in Hn.
  - apply NoDup_cons in Hnodup as [Hn Hnodup].
    set (w1 := {| fs := remove_tree (path_join dir n) (fs w);
                  recycled := recycled w ++ [(path_join dir n, subtree (path_join dir n) (fs w))];
                  trace := trace w ++ [EvRecycleDirectory (path_join dir n)] |}).
    assert (∀ n', n' ∈ ns → ¬ path_join dir n `prefix_of` path_join dir n') as Hother.
    { intros n' Hn' Hpre. apply prefix_join_inv in Hpre. by subst. }
    destruct (IH w1 Hnodup) as (w' & Hrun & Hgone & Hkept).
    { intros n' Hn'. simpl. rewrite lookup_remove_tree_other by by apply Hother.
      apply Hexist. by right. }
    exists w'. split_and!.
    + simpl. rewrite bind_run, recycleDirectory_existing; [done|].
      apply Hexist. by left.
    + intros q n0 Hn0 Hpre.
      destruct (decide (Exists (λ n', path_join dir n' `prefix_of` q) ns)) as [Hex|Hex].
      * apply Exists_exists in Hex as (n' & Hn' & Hpre'). by apply (Hgone q n').
      * rewrite Hkept.
        -- apply elem_of_cons in Hn0 as [->|Hn0].
           ++ simpl. by apply lookup_remove_tree_below.
           ++ exfalso. apply Hex, Exists_exists. eauto.
        -- intros n' Hn' Hpre'. apply Hex, Exists_exists. eauto.
    + intros q Hq. rewrite Hkept.
      * simpl. apply lookup_remove_tree_other, Hq. by left.
      * intros n' Hn'. apply Hq. by right.
Qed.

Lemma deleteCommonNodeModules_lazy w :
  fs_wf (fs w) →
  (_deleteCommonNodeModules cfg true env w).1 = Ok tt ∧
  ∀ q, fs (_deleteCommonNodeModules cfg true env w).2 !! q
       = if temp_entry_below (nodeModulesPath cfg) q then None else fs w !! q.
Proof.
  intros Hwf. set (nm := nodeModulesPath cfg).
  set (w0 := add_event (EvGlobSync nm "rush-*")
               (add_event (EvLog "Deleting common/node_modules/rush-*") w)).
  set (names := array_sort (localeCompare env) (glob_names nm "rush-*" (fs w))).
  assert (Permutation names (glob_names nm "rush-*" (fs w))) as Hperm
    by apply array_sort_perm.
  assert (∀ n, n ∈ names ↔
               is_Some (fs w !! path_join nm n) ∧ String.prefix "rush-" n = true)
    as Hnames.
  { intros n. by rewrite Hperm, elem_of_glob_names, wildcard_match_rush. }
  destruct (recycle_entries nm names w0) as (w' & Hrun & Hgone & Hkept).
  { rewrite Hperm. apply NoDup_glob_names. }
  { intros n Hn. by apply Hnames in Hn as [Hn _]. }
  assert (_deleteCommonNodeModules cfg true env w = (Ok tt, w')) as ->.
  { unfold _deleteCommonNodeModules. fold (nodeModulesPath cfg). fold nm.
    rewrite bind_run, console_log_run. cbv beta iota.
    rewrite bind_run, glob_sync_run. cbv beta iota. exact Hrun. }
  split; [done|]. intros q. simpl.
  destruct (temp_entry_below nm q) eqn:Htemp.
  - apply temp_entry_below_spec in Htemp as (n & rest & -> & Hn).
    assert (path_join nm n `prefix_of` (nm ++ n :: rest)) as Hpre.
    { exists rest. unfold path_join. by rewrite <- app_assoc. }
    destruct (fs w !! (nm ++ n :: rest)) as [x|] eqn:Hq.
    + apply (Hgone _ n); [|done]. apply Hnames. split; [|done].
      apply (fs_wf_ancestor _ _ rest Hwf). unfold path_join.
      rewrite <- app_assoc. simpl. by rewrite Hq.
    + destruct (decide (Exists (λ n', path_join nm n' `prefix_of` (nm ++ n :: rest))
                          names)) as [Hex|Hex].
      * apply Exists_exists in Hex as (n' & Hn' & Hpre'). by apply (Hgone _ n').
      * rewrite Hkept; [done|]. intros n' Hn' Hpre'. apply Hex, Exists_exists. eauto.
  - rewrite Hkept; [done|]. intros n Hn [rest Hrest].
    apply Hnames in Hn as [_ Hn].
    assert (temp_entry_below nm q = true); [|congruence].
    apply temp_entry_below_spec. exists n, rest. split; [|done].
    rewrite Hrest. unfold path_join. by rewrite <- app_assoc.
Qed.

Lemma deleteCommonNodeModules_full w :
  fs_wf (fs w) →
  (_deleteCommonNodeModules cfg false env w).1 = Ok tt ∧
  ∀ q, fs (_deleteCommonNodeModules cfg false env w).2 !! q
       = if at_or_below (nodeModulesPath cfg) q then None else fs w !! q.
Proof.
  intros Hwf. set (nm := nodeModulesPath cfg).
  unfold _deleteCommonNodeModules. fold (nodeModulesPath cfg). fold nm.
  rewrite bind_run, existsSync_run. cbv beta iota.
  unfold exists_at. destruct (fs w !! nm) as [x|] eqn:Hnm.
  - rewrite bind_run, console_log_run. cbv beta iota.
    rewrite recycleDirectory_existing by (simpl; by rewrite Hnm).
    split; [done|]. intros q. simpl.
    destruct (at_or_below nm q) eqn:Hb.
    + apply lookup_remove_tree_below. by apply at_or_below_spec.
    + apply lookup_remove_tree_other. rewrite <- at_or_below_spec. congruence.
  - split; [done|]. intros q. simpl.
    destruct (at_or_below nm q) eqn:Hb; [|done].
    apply at_or_below_spec in Hb as [r ->].
    destruct (fs w !! (nm ++ r)) as [x|] eqn:Hq; [|done].
    destruct (fs_wf_ancestor (fs w) nm r Hwf) as [y Hy]; [by rewrite Hq|].
    by pose proof (eq_trans (eq_sym Hnm) Hy).
Qed.
End Recycle.

#[global] Instance same_at_preorder q : PreOrder (same_at q).
Proof.
  split; [by intros w|]. intros w1 w2 w3 H12 H23. unfold same_at in *. congruence.
Qed.

Lemma always_for_of_elem {A} env (R : relation World) `{!PreOrder R}
    (l : list A) (body : A → M unit) :
  (∀ x, x ∈ l → always env R (body x)) → always env R (for_of l body).
Proof.
  induction l as [|x l IH]; intros Hbody; simpl.
  - by apply always_ret.
  - apply always_bind; [done|apply Hbody; by left|intros _].
    apply IH. intros y Hy. apply Hbody. by right.
Qed.

Lemma same_at_recycleDirectory env cfg p q :
  ¬ p `prefix_of` q → always env (same_at q) (recycleDirectory cfg p).
Proof.
  intros Hpre w. rewrite recycleDirectory_run. simpl.
  destruct (fs_fault env _); [done|].
  destruct (exists_at (fs w) p); [|done].
  unfold same_at. simpl. by apply lookup_remove_tree_other.
Qed.

(** Whatever faults occur, and whether the cleanup returns or throws,
    lazy mode touches nothing outside the [rush-] entries and full mode
    nothing outside the folder. *)
Lemma deleteCommonNodeModules_frame env cfg w q :
  (temp_entry_below (nodeModulesPath cfg) q = false →
   fs (_deleteCommonNodeModules cfg true env w).2 !! q = fs w !! q) ∧
  (at_or_below (nodeModulesPath cfg) q = false →
   fs (_deleteCommonNodeModules cfg false env w).2 !! q = fs w !! q).
Proof.
  unfold _deleteCommonNodeModules. fold (nodeModulesPath cfg). split; intros Hq.
  - rewrite bind_run, console_log_run. cbv beta iota.
    rewrite bind_run, glob_sync_run. cbv beta iota.
    unfold globEscape, getAllReplaced.
    match goal with |- context [for_of ?l ?body env ?w0] =>
      change (same_at q w0 (for_of l body env w0).2);
      apply (always_for_of_elem env (same_at q) l body) end.
    intros x Hx. apply list_elem_of_fmap in Hx as (n & -> & Hn).
    rewrite (array_sort_perm _ _) in Hn.
    apply elem_of_glob_names in Hn as [_ Hn]. rewrite wildcard_match_rush in Hn.
    apply same_at_recycleDirectory. intros [rest Hrest].
    assert (temp_entry_below (nodeModulesPath cfg) q = true); [|congruence].
    apply temp_entry_below_spec. exists n, rest. split; [|done].
    rewrite Hrest. unfold path_join. by rewrite <- app_assoc.
  - rewrite bind_run, existsSync_run. cbv beta iota.
    destruct (exists_at (fs w) (nodeModulesPath cfg)); [|done].
    rewrite bind_run, console_log_run. cbv beta iota.
    match goal with |- context [recycleDirectory cfg ?p env ?w0] =>
      change (same_at q w0 (recycleDirectory cfg p env w0).2) end.
    apply same_at_recycleDirectory. rewrite <- at_or_below_spec. congruence.
Qed.


Lemma fs_wf_check_sound f : fs_wf_check f = true → fs_wf f.
Proof.
  unfold fs_wf_check. rewrite forallb_forall. intros Hcheck p n [x Hx].
  specialize (Hcheck (p ++ [n], x)). simpl in Hcheck.
  assert (is_dir (f !! parent (p ++ [n])) = true) as Hdir.
  { destruct (p ++ [n]) eqn:Hp; [by destruct p|]. rewrite <- Hp in *.
    apply Hcheck, list_elem_of_In. by apply elem_of_map_to_list. }
  unfold parent in Hdir. rewrite removelast_last in Hdir.
  by destruct (f !! p) as [[]|].
Qed.

Lemma demo_fs_wf : fs_wf demo_fs.
Proof. apply fs_wf_check_sound. vm_compute. reflexivity. Qed.


(** The spec's example: with [rush-foo] and [lodash] installed, lazy mode
    recycles [rush-foo] and keeps [lodash]; full mode recycles the whole
    folder. *)
Example lazy_keeps_lodash :
  let nm := ["repo"; "common"; "node_modules"] in
  let after_lazy := fs (_deleteCommonNodeModules demo_config true
                          (demo_env demo_config) (world_of demo_fs)).2 in
  let after_full := fs (_deleteCommonNodeModules demo_config false
                          (demo_env demo_config) (world_of demo_fs)).2 in
  after_lazy !! (nm ++ ["rush-foo"]) = None ∧
  after_lazy !! (nm ++ ["rush-foo"; "package.json"]) = None ∧
  after_lazy !! (nm ++ ["lodash"]) = Some Dir ∧
  after_lazy !! (nm ++ ["lodash"; "package.json"]) = Some (RawFile "{}") ∧
  after_lazy !! nm = Some Dir ∧
  after_full !! nm = None ∧
  after_full !! (nm ++ ["lodash"]) = None ∧
  after_full !! ["repo"; "common"; "npm-shrinkwrap.json"] = Some (RawFile "{}").
Proof. vm_compute. repeat split. Qed.

(* ===================================================================== *)
(** ** [onExecute] in pieces *)
(* ===================================================================== *)

Lemma onExecute_afterLoad lazyParameter :
  onExecute lazyParameter
  = (stage StLoad loadAndSnapshot ≫= λ cfg, afterLoad cfg lazyParameter).
Proof. reflexivity. Qed.

Lemma onExecute_fromCreate lazyParameter env w :
  onExecute lazyParameter env w
  = (upToTeardown lazyParameter ≫= λ cfg, fromCreate cfg lazyParameter) env w.
Proof.
  unfold onExecute, upToTeardown. rewrite !bind_run.
  destruct (stage StLoad loadAndSnapshot env w) as [[cfg|e] w1]; [|done].
  rewrite !bind_run.
  destruct (stage StCleanNodeModules _ env w1) as [[[]|e] w2]; [|done].
  rewrite !bind_run.
  destruct (stage StDeleteLockArtifact _ env w2) as [[[]|e] w3]; [|done].
  rewrite !bind_run.
  destruct (stage StDeleteTempModulesRoot _ env w3) as [[[]|e] w4]; [|done].
  reflexivity.
Qed.

Section PipelineEvents.
Context (env : Env).

Lemma emitting_stage {A} (P : Event → Prop) (s : Stage) (m : M A) :
  P (EvStageBegin s) → P (EvStageEnd s) →
  always env (emitting P) m → always env (emitting P) (stage s m).
Proof. intros Hb He Hm. unfold stage. emitting_steps; done. Qed.

Lemma emitting_finish (P : Event → Prop) :
  (∀ s, P (EvLog s)) → always env (emitting P) finish.
Proof. intros HP. unfold finish. emitting_steps; apply HP. Qed.

Section LaterStages.
Context (P : Event → Prop) (cfg : RushConfiguration) (lazyParameter : bool).
Hypothesis Hbegin : ∀ s, P (EvStageBegin s).
Hypothesis Hend : ∀ s, P (EvStageEnd s).
Hypothesis Hlog : ∀ s, P (EvLog s).
Hypothesis Hlater : ∀ s e, s ≠ StLoad → s ≠ StInstallFreeze → in_stage s e → P e.
Hypothesis Hinstall : always env (emitting P) (installAndFreeze cfg lazyParameter).

Lemma emits_fromCreate : always env (emitting P) (fromCreate cfg lazyParameter).
Proof.
  unfold fromCreate.
  apply always_bind; [apply _| |intros _].
  { apply emitting_stage; [done|done|].
    eapply always_emitting_weaken;
      [|apply emits_createCommonTempModulesAndPackageJson].
    intros e. by apply Hlater. }
  apply always_bind; [apply _| |intros _].
  { by apply emitting_stage. }
  by apply emitting_finish.
Qed.

(** What follows the opening bracket of the second stage. *)
Lemma emits_afterLoad_body :
  always env (emitting P)
    ((_deleteCommonNodeModules cfg lazyParameter ≫= λ a,
        emit (EvStageEnd StCleanNodeModules);; mret a);;
     stage StDeleteLockArtifact (_deleteShrinkwrapFile cfg);;
     stage StDeleteTempModulesRoot (_deleteCommonTempModules cfg);;
     fromCreate cfg lazyParameter).
Proof.
  apply always_bind; [apply _| |intros _].
  { apply always_bind; [apply _| |intros a].
    - eapply always_emitting_weaken; [|apply emits_deleteCommonNodeModules].
      intros e. by apply Hlater.
    - emitting_steps. apply Hend. }
  apply always_bind; [apply _| |intros _].
  { apply emitting_stage; [done|done|].
    eapply always_emitting_weaken; [|apply emits_deleteShrinkwrapFile].
    intros e. by apply Hlater. }
  apply always_bind; [apply _| |intros _].
  { apply emitting_stage; [done|done|].
    eapply always_emitting_weaken; [|apply emits_deleteCommonTempModules].
    intros e. by apply Hlater. }
  apply emits_fromCreate.
Qed.

(** After the first stage the second one opens, and every later event is
    a bracket, a console line or a call of one of the later stages. *)
Lemma emits_afterLoad_always :
  always env (emitting P) (afterLoad cfg lazyParameter).
Proof.
  unfold afterLoad.
  apply always_bind; [apply _| |intros _].
  { apply emitting_stage; [done|done|].
    eapply always_emitting_weaken; [|apply emits_deleteCommonNodeModules].
    intros e. by apply Hlater. }
  apply always_bind; [apply _| |intros _].
  { apply emitting_stage; [done|done|].
    eapply always_emitting_weaken; [|apply emits_deleteShrinkwrapFile].
    intros e. by apply Hlater. }
  apply always_bind; [apply _| |intros _].
  { apply emitting_stage; [done|done|].
    eapply always_emitting_weaken; [|apply emits_deleteCommonTempModules].
    intros e. by apply Hlater. }
  apply emits_fromCreate.
Qed.

Lemma emits_afterLoad w :
  ∃ evs,
    trace (afterLoad cfg lazyParameter env w).2
    = trace w ++ EvStageBegin StCleanNodeModules :: evs ∧
    Forall P evs.
Proof.
  destruct (emits_afterLoad_body (add_event (EvStageBegin StCleanNodeModules) w))
    as (evs & Hevs & Hall).
  exists evs. split; [|done].
  etrans; [exact Hevs|]. simpl. by rewrite <- app_assoc.
Qed.
End LaterStages.
End PipelineEvents.

(* ===================================================================== *)
(** ** The dependency snapshot *)
(* ===================================================================== *)

(** The first stage when a review file is configured: the checker is
    built, the snapshot is taken, and the stage returns what the
    snapshot returns. *)
Lemma loadAndSnapshot_review env w cfg :
  loadFromDefaultLocation env (fs w) = Ok cfg →
  truthy (packageReviewFile cfg) = true →
  (newPackageReviewChecker env cfg (fs w)).1 = Ok tt →
  let checked := (newPackageReviewChecker env cfg (fs w)).2 in
  let snap := saveCurrentDependencies env cfg checked in
  stage StLoad loadAndSnapshot env w
  = match snap.1 with
    | Ok _ => (Ok cfg, {| fs := snap.2; recycled := recycled w;
                          trace := trace w ++ snapshotEvents env ++ [EvStageEnd StLoad] |})
    | Throw e => (Throw e, {| fs := snap.2; recycled := recycled w;
                              trace := trace w ++ snapshotEvents env |})
    end.
Proof.
  intros Hload Hreview Hnew. simpl.
  rewrite stage_run. unfold loadAndSnapshot.
  rewrite bind_run, loadConfiguration_run. simpl fs. rewrite Hload. cbv beta iota.
  rewrite bind_run, ask_run. cbv beta iota.
  rewrite bind_run, console_log_run. cbv beta iota.
  rewrite bind_run, Hreview.
  rewrite bind_run, call_run. simpl fs. rewrite Hnew. cbv beta iota.
  rewrite call_run. simpl fs.
  destruct (saveCurrentDependencies env cfg _) as [[[]|e] f']; simpl;
    unfold add_event, set_fs, snapshotEvents; simpl;
    by rewrite <- !app_assoc.
Qed.

(** C7 (as the code has it): with a review file configured and the
    checker built, [saveCurrentDependencies] is called exactly once, as
    the fifth event of the run and before the first stage is left, so
    before any teardown call; when it throws, the run throws the same
    error at once, with no further event and the disk as the snapshot
    left it: a failing snapshot aborts the run. *)
Theorem snapshot_once_before_teardown (env : Env) (lazyParameter : bool)
    (w : World) (cfg : RushConfiguration) :
  loadFromDefaultLocation env (fs w) = Ok cfg →
  truthy (packageReviewFile cfg) = true →
  (newPackageReviewChecker env cfg (fs w)).1 = Ok tt →
  let checked := (newPackageReviewChecker env cfg (fs w)).2 in
  let snap := saveCurrentDependencies env cfg checked in
  let r := onExecute lazyParameter env w in
  ∃ rest,
    trace r.2 = trace w ++ snapshotEvents env ++ rest ∧
    Forall (λ e, e ≠ EvSaveCurrentDependencies) rest ∧
    (∀ e, snap.1 = Throw e → r.1 = Throw e ∧ rest = [] ∧ fs r.2 = snap.2) ∧
    (is_ok snap.1 = true →
     ∃ rest', rest = EvStageEnd StLoad :: EvStageBegin StCleanNodeModules :: rest').
Proof.
  intros Hload Hreview Hnew. simpl.
  rewrite onExecute_afterLoad, bind_run.
  rewrite (loadAndSnapshot_review env w cfg Hload Hreview Hnew). simpl.
  destruct (saveCurrentDependencies env cfg _) as [[[]|e] f']; simpl.
  - match goal with |- context [afterLoad cfg lazyParameter env ?w1] =>
      destruct (emits_afterLoad env (λ e, e ≠ EvSaveCurrentDependencies)
                  cfg lazyParameter) with (w := w1)
        as (evs & Hevs & Hall)
    end; [done|done|done|by intros [] []| |].
    { eapply always_emitting_weaken; [|apply emits_installAndFreeze].
      by intros []. }
    exists (EvStageEnd StLoad :: EvStageBegin StCleanNodeModules :: evs).
    split_and!.
    + rewrite Hevs. simpl. by rewrite <- !app_assoc.
    + by repeat constructor.
    + done.
    + by eexists.
  - exists []. split; [done|]. split; [constructor|]. split; [|done].
    by intros e' [= ->].
Qed.

Lemma snapshot_once_before_teardown_witness :
  let env := failing_review_env in
  let w := world_of demo_fs in
  let checked := (newPackageReviewChecker env review_config (fs w)).2 in
  let snap := saveCurrentDependencies env review_config checked in
  let r := onExecute false env w in
  ∃ rest,
    trace r.2 = trace w ++ snapshotEvents env ++ rest ∧
    Forall (λ e, e ≠ EvSaveCurrentDependencies) rest ∧
    (∀ e, snap.1 = Throw e → r.1 = Throw e ∧ rest = [] ∧ fs r.2 = snap.2) ∧
    (is_ok snap.1 = true →
     ∃ rest', rest = EvStageEnd StLoad :: EvStageBegin StCleanNodeModules :: rest').
Proof.
  apply (snapshot_once_before_teardown failing_review_env false
           (world_of demo_fs) review_config).
  - reflexivity.
  - reflexivity.
  - reflexivity.
Defined.

(** C7 (as stated) fails: when writing the snapshot fails the run stops
    there, with [ReviewError], and never opens the teardown. *)
Lemma snapshot_failure_aborts :
  ¬ snapshot_failure_nonfatal failing_review_env false (world_of demo_fs).
Proof.
  intros H. specialize (H review_config eq_refl eq_refl (λ f, eq_refl)).
  vm_compute in H.
  repeat (destruct H as [H|H]; [discriminate H|]). destruct H.
Qed.

Example failing_snapshot_run :
  let r := onExecute false failing_review_env (world_of demo_fs) in
  r.1 = Throw ReviewError ∧ map_to_list (fs r.2) = map_to_list demo_fs ∧
  trace r.2 = snapshotEvents failing_review_env.
Proof. vm_compute. repeat split. Qed.

(* ===================================================================== *)
(** ** Creating the temp-modules folder fails *)
(* ===================================================================== *)

Lemma mkdirSync_throw p env w e w' :
  mkdirSync p env w = (Throw e, w') →
  e = FilesystemError ∧ w' = add_event (EvMkdirSync p) w.
Proof.
  rewrite mkdirSync_run. simpl.
  destruct (fs_fault env _); [by intros [= <- <-]|].
  destruct (exists_at (fs w) p); [by intros [= <- <-]|].
  destruct (is_dir _); [done|by intros [= <- <-]].
Qed.

(** Attempts that all failed leave the disk as it was. *)
Lemma createFolderAttempts_throw n p env w e w' :
  createFolderAttempts n p env w = (Throw e, w') →
  e = FilesystemError ∧ fs w' = fs w ∧ recycled w' = recycled w.
Proof.
  revert w. induction n as [|n IH]; intros w; simpl.
  - by intros [= <- <-].
  - unfold try_catch. destruct (mkdirSync p env w) as [[[]|e1] w1] eqn:Hmk; [done|].
    apply mkdirSync_throw in Hmk as [_ ->]. intros Hrun.
    by apply IH in Hrun as (-> & -> & ->).
Qed.

(** When every attempt meets a fault, the retries run out. *)
Lemma createFolderAttempts_all_fail n p env w :
  (∀ k, k < n → fs_fault env (length (trace w) + k) = true) →
  createFolderAttempts n p env w
  = (Throw FilesystemError,
     {| fs := fs w; recycled := recycled w;
        trace := trace w ++ repeat (EvMkdirSync p) n |}).
Proof.
  revert w. induction n as [|n IH]; intros w Hfail; simpl.
  - rewrite app_nil_r. by destruct w.
  - unfold try_catch. rewrite mkdirSync_run. simpl.
    rewrite <- (Nat.add_0_r (length (trace w))), Hfail by lia.
    rewrite IH.
    + simpl. by rewrite <- app_assoc.
    + intros k Hk. simpl. rewrite length_app. simpl.
      rewrite <- Nat.add_assoc. apply Hfail. lia.
Qed.

Lemma createFolderWithRetry_run p env w :
  createFolderWithRetry p env w = createFolderAttempts (maxAttempts env) p env w.
Proof. reflexivity. Qed.

(** The function stops where [createFolderWithRetry] throws. *)
Lemma create_aborts_on_exhaustion cfg env w :
  let w1 := add_event (EvLog "Creating a clean common/temp_modules folder") w in
  is_ok (createFolderWithRetry (tempModulesFolder cfg) env w1).1 = false →
  _createCommonTempModulesAndPackageJson cfg env w
  = (Throw FilesystemError, (createFolderWithRetry (tempModulesFolder cfg) env w1).2) ∧
  fs (createFolderWithRetry (tempModulesFolder cfg) env w1).2 = fs w ∧
  recycled (createFolderWithRetry (tempModulesFolder cfg) env w1).2 = recycled w ∧
  ∃ attempts,
    Forall (λ e, e = EvMkdirSync (tempModulesFolder cfg)) attempts ∧
    trace (createFolderWithRetry (tempModulesFolder cfg) env w1).2
    = trace w ++ EvLog "Creating a clean common/temp_modules folder" :: attempts.
Proof.
  simpl. intros Hfail.
  set (w1 := add_event (EvLog "Creating a clean common/temp_modules folder") w) in *.
  destruct (emitting_createFolderAttempts env
              (λ e, e = EvMkdirSync (tempModulesFolder cfg))
              (maxAttempts env) (tempModulesFolder cfg) eq_refl w1)
    as (attempts & Hattempts & Hall).
  rewrite createFolderWithRetry_run in *.
  destruct (createFolderAttempts _ _ env w1) as [[[]|e] w2] eqn:Hrun; [done|].
  apply createFolderAttempts_throw in Hrun as Hthrow. destruct Hthrow as (-> & Hfs & Hrec).
  split_and!.
  - unfold _createCommonTempModulesAndPackageJson.
    rewrite bind_run, console_log_run. cbv beta iota. fold w1.
    by rewrite bind_run, createFolderWithRetry_run, Hrun.
  - done.
  - done.
  - exists attempts. split; [done|]. simpl in *. rewrite Hattempts.
    by rewrite <- app_assoc.
Qed.

Section Errors.
Context (env : Env) (P : Error → Prop).

Lemma throws_only_bind {A B} (m : M A) (f : A → M B) :
  throws_only env P m → (∀ a, throws_only env P (f a)) →
  throws_only env P (m ≫= f).
Proof.
  intros Hm Hf w e w'. rewrite bind_run.
  destruct (m env w) as [[a|e1] w1] eqn:Hrun.
  - apply Hf.
  - intros [= <- <-]. by eapply Hm.
Qed.

Lemma throws_only_never {A} (m : M A) :
  (∀ w, is_ok (m env w).1 = true) → throws_only env P m.
Proof. intros Hm w e w' Hrun. specialize (Hm w). by rewrite Hrun in Hm. Qed.

Lemma throws_only_for_of_acc {A S} (l : list A) (body : S → A → M S) (s : S) :
  (∀ s x, throws_only env P (body s x)) → throws_only env P (for_of_acc l body s).
Proof.
  intros Hbody. revert s. induction l as [|x l IH]; intros s; simpl.
  - by apply throws_only_never.
  - apply throws_only_bind; [apply Hbody|apply IH].
Qed.

Hypothesis Hfs : P FilesystemError.

Lemma throws_only_mkdirSync p : throws_only env P (mkdirSync p).
Proof. intros w e w' Hrun. by apply mkdirSync_throw in Hrun as [-> _]. Qed.

Lemma throws_only_saveJsonFile d p : throws_only env P (saveJsonFile d p).
Proof.
  intros w e w'. rewrite saveJsonFile_run. simpl.
  destruct (fs_fault env _); [by intros [= <- _]|].
  destruct (is_dir (fs w !! p)); [by intros [= <- _]|].
  destruct (is_dir _); [done|by intros [= <- _]].
Qed.

Lemma throws_only_createFolderWithRetry p : throws_only env P (createFolderWithRetry p).
Proof.
  intros w e w'. rewrite createFolderWithRetry_run. intros Hrun.
  by apply createFolderAttempts_throw in Hrun as [-> _].
Qed.
End Errors.

(** The errors of [_createCommonTempModulesAndPackageJson] come from the
    file system or from the generator: a lookup that finds nothing is no
    error. *)
Lemma create_errors env cfg w e w' :
  _createCommonTempModulesAndPackageJson cfg env w = (Throw e, w') →
  e = FilesystemError ∨ newTempModuleGenerator env cfg = Throw e.
Proof.
  revert w e w'.
  change (throws_only env
            (λ e, e = FilesystemError ∨ newTempModuleGenerator env cfg = Throw e)
            (_createCommonTempModulesAndPackageJson cfg)).
  unfold _createCommonTempModulesAndPackageJson.
  apply throws_only_bind; [by apply throws_only_never|intros _].
  apply throws_only_bind; [apply throws_only_createFolderWithRetry; by left|intros _].
  apply throws_only_bind; [by apply throws_only_never|intros _].
  apply throws_only_bind; [by apply throws_only_never|intros env'].
  apply throws_only_bind; [|intros tm].
  { intros w e w'. rewrite tempModulesOf_run. intros [= Htm _]. by right. }
  apply throws_only_bind; [|intros pj].
  { apply throws_only_for_of_acc. intros pj p. unfold createTempProject.
    apply throws_only_bind; [apply throws_only_mkdirSync; by left|intros _].
    apply throws_only_bind; [apply throws_only_saveJsonFile; by left|intros _].
    by apply throws_only_never. }
  apply throws_only_bind; [by apply throws_only_never|intros _].
  apply throws_only_saveJsonFile. by left.
Qed.

(** C8: when the run has come through the teardown and
    [createFolderWithRetry] then runs out of attempts on the temp-modules
    folder, [onExecute] throws [FilesystemError]; the disk is as the
    teardown left it, and after the opening bracket of the stage the only
    events are one console line and the failed attempts on the folder
    itself: no folder of a temp project is made, no manifest is written,
    [common/package.json] is not saved, nothing is installed. *)
Theorem create_folder_exhaustion_aborts (env : Env) (lazyParameter : bool)
    (w : World) (cfg : RushConfiguration) :
  (upToTeardown lazyParameter env w).1 = Ok cfg →
  let w4 := (upToTeardown lazyParameter env w).2 in
  let w5 := add_event (EvLog "Creating a clean common/temp_modules folder")
              (add_event (EvStageBegin StRecreateAndPopulate) w4) in
  is_ok (createFolderWithRetry (tempModulesFolder cfg) env w5).1 = false →
  let r := onExecute lazyParameter env w in
  r.1 = Throw FilesystemError ∧
  fs r.2 = fs w4 ∧
  recycled r.2 = recycled w4 ∧
  ∃ attempts,
    Forall (λ e, e = EvMkdirSync (tempModulesFolder cfg)) attempts ∧
    trace r.2
    = trace w4 ++
      [EvStageBegin StRecreateAndPopulate;
       EvLog "Creating a clean common/temp_modules folder"] ++ attempts.
Proof.
  simpl. intros Hup Hfail.
  rewrite onExecute_fromCreate, bind_run.
  destruct (upToTeardown lazyParameter env w) as [r4 w4]. simpl in *. subst r4.
  unfold fromCreate. rewrite bind_run, stage_run.
  destruct (create_aborts_on_exhaustion cfg env
              (add_event (EvStageBegin StRecreateAndPopulate) w4) Hfail)
    as (-> & Hfs & Hrec & attempts & Hall & Htrace).
  simpl. split_and!; [done|done|done|].
  exists attempts. split; [done|]. rewrite Htrace. simpl.
  by rewrite <- app_assoc.
Qed.

Lemma create_folder_exhaustion_aborts_witness :
  let env := locked_env in
  let w := world_of fresh_fs in
  let w4 := (upToTeardown true env w).2 in
  let r := onExecute true env w in
  r.1 = Throw FilesystemError ∧
  fs r.2 = fs w4 ∧
  recycled r.2 = recycled w4 ∧
  ∃ attempts,
    Forall (λ e, e = EvMkdirSync (tempModulesFolder demo_config)) attempts ∧
    trace r.2
    = trace w4 ++
      [EvStageBegin StRecreateAndPopulate;
       EvLog "Creating a clean common/temp_modules folder"] ++ attempts.
Proof.
  apply (create_folder_exhaustion_aborts locked_env true (world_of fresh_fs)
           demo_config).
  - vm_compute. reflexivity.
  - vm_compute. reflexivity.
Defined.

Example locked_folder_run :
  let r := onExecute true locked_env (world_of fresh_fs) in
  r.1 = Throw FilesystemError ∧ map_to_list (fs r.2) = map_to_list fresh_fs ∧
  filter (λ e, belongs StRecreateAndPopulate e) (trace r.2)
  = [EvLog ("Starting " +:+ dq +:+ "rush generate" +:+ dq +:+ os_EOL locked_env);
     EvLog "Deleting common/node_modules/rush-*";
     EvLog "Creating a clean common/temp_modules folder";
     EvMkdirSync ["repo"; "common"; "temp_modules"];
     EvMkdirSync ["repo"; "common"; "temp_modules"];
     EvMkdirSync ["repo"; "common"; "temp_modules"]].
Proof. vm_compute. repeat split. Qed.

(* ===================================================================== *)
(** ** Lazy mode and the lock file *)
(* ===================================================================== *)

Lemma push_if_set_head flag value a args :
  ∃ rest, push_if_set flag value (a :: args) = a :: rest.
Proof. unfold push_if_set. destruct (truthy value); simpl; eauto. Qed.

Lemma npmInstallArgs_not_shrinkwrap cache tmp :
  push_if_set "--tmp" tmp (push_if_set "--cache" cache ["install"]) ≠ ["shrinkwrap"].
Proof.
  destruct (push_if_set_head "--cache" cache "install" []) as [r1 ->].
  destruct (push_if_set_head "--tmp" tmp "install" r1) as [r2 ->]. discriminate.
Qed.

Section NoShrinkwrap.
Context (env : Env).

Let quiet (e : Event) : Prop := invokes_shrinkwrap e = false.

Lemma installAndFreeze_lazy_quiet cfg :
  always env (emitting quiet) (installAndFreeze cfg true).
Proof.
  unfold installAndFreeze, _runNpmInstall, _runNpmShrinkWrap.
  emitting_steps; try done.
  unfold quiet. simpl. apply bool_decide_eq_false, npmInstallArgs_not_shrinkwrap.
Qed.

Lemma onExecute_lazy_quiet : always env (emitting quiet) (onExecute true).
Proof.
  rewrite onExecute_afterLoad. apply always_bind; [apply _| |intros cfg].
  - apply emitting_stage; [done|done|].
    eapply always_emitting_weaken; [|apply emits_loadAndSnapshot]. by intros [].
  - apply emits_afterLoad_always; try done.
    + intros [] []; done.
    + apply installAndFreeze_lazy_quiet.
Qed.
End NoShrinkwrap.

Lemma run_extends {A} env (m : M A) w r w' :
  grows env m → m env w = (r, w') → ∃ evs, trace w' = trace w ++ evs.
Proof. intros Hm Hrun. destruct (Hm w) as (evs & Hevs & _). rewrite Hrun in Hevs. eauto. Qed.

Lemma grows_of_emitting {A} env (P : Event → Prop) (m : M A) :
  always env (emitting P) m → grows env m.
Proof. apply always_emitting_weaken. done. Qed.

Lemma grows_stage {A} env (s : Stage) (m : M A) : grows env m → grows env (stage s m).
Proof. intros Hm. by apply emitting_stage. Qed.

Lemma grows_upToTeardown env lazyParameter : grows env (upToTeardown lazyParameter).
Proof.
  unfold upToTeardown, grows.
  apply always_bind; [apply _| |intros cfg].
  { eapply grows_stage, grows_of_emitting, emits_loadAndSnapshot. }
  apply always_bind; [apply _| |intros _].
  { eapply grows_stage, grows_of_emitting, emits_deleteCommonNodeModules. }
  apply always_bind; [apply _| |intros _].
  { eapply grows_stage, grows_of_emitting, emits_deleteShrinkwrapFile. }
  apply always_bind; [apply _| |intros _].
  { eapply grows_stage, grows_of_emitting, emits_deleteCommonTempModules. }
  apply always_ret, _.
Qed.

(** In lazy mode the install stage, when it returns, has printed the
    notice. *)
Lemma installAndFreeze_lazy_notice cfg env w u w' :
  installAndFreeze cfg true env w = (Ok u, w') →
  ∃ evs, trace w' = trace w ++ evs ++ [EvLog (skip_notice env)].
Proof.
  unfold installAndFreeze. intros H.
  bind_inv H as H1. injection H1 as <- <-.
  bind_inv H as H1. rewrite call_run in H1. injection H1 as _ <-.
  bind_inv H as H1.
  eapply run_extends in H1 as (evs & Hevs);
    [|unfold _runNpmInstall, grows; emitting_steps; done].
  unfold _runNpmShrinkWrap in H. rewrite bind_run, ask_run in H.
  cbv beta iota in H. rewrite console_log_run in H. injection H as _ <-.
  exists ([EvLog EmptyString; EvEnsureLocalNpmTool] ++ evs). simpl. rewrite Hevs.
  simpl. by rewrite <- !app_assoc.
Qed.

Lemma onExecute_lazy_notice env w w' :
  onExecute true env w = (Ok tt, w') →
  ∃ evs, trace w' = trace w ++ evs ∧ In (EvLog (skip_notice env)) evs.
Proof.
  rewrite onExecute_fromCreate. intros H. bind_inv H as Hup.
  eapply run_extends in Hup as (e1 & He1); [|apply grows_upToTeardown].
  unfold fromCreate in H. bind_inv H as H5.
  eapply run_extends in H5 as (e2 & He2);
    [|eapply grows_stage, grows_of_emitting,
        emits_createCommonTempModulesAndPackageJson].
  bind_inv H as H6. rewrite stage_run in H6.
  destruct (installAndFreeze a true env _) as [[[]|e] w6] eqn:Hinstall; [|done].
  injection H6 as _ <-.
  apply installAndFreeze_lazy_notice in Hinstall as (e3 & He3).
  eapply run_extends in H as (e4 & He4);
    [|apply emitting_finish; done].
  exists (e1 ++ e2 ++ [EvStageBegin StInstallFreeze] ++ e3 ++
          [EvLog (skip_notice env)] ++ [EvStageEnd StInstallFreeze] ++ e4).
  split.
  - rewrite He4. simpl. rewrite He3. simpl. rewrite He2, He1.
    by rewrite <- !app_assoc.
  - rewrite !in_app_iff. do 4 right. left. by left.
Qed.

#[global] Instance keeps_or_deletes_preorder p : PreOrder (keeps_or_deletes p).
Proof.
  split.
  - intros w. by right.
  - intros w1 w2 w3 [H12|H12] [H23|H23]; unfold keeps_or_deletes.
    + by left.
    + left. by rewrite H23.
    + by left.
    + right. by rewrite H23.
Qed.

Section LockFile.
Context (env : Env) (p : list string).

Let R := keeps_or_deletes p.

Lemma keeps_same_fs {A} (m : M A) :
  (∀ w, fs (m env w).2 = fs w) → always env R m.
Proof. intros Hm w. right. by rewrite Hm. Qed.

Lemma keeps_emit e : always env R (emit e).
Proof. by apply keeps_same_fs. Qed.

Lemma keeps_console_log s : always env R (console_log s).
Proof. by apply keeps_same_fs. Qed.

Lemma keeps_existsSync q : always env R (existsSync q).
Proof. by apply keeps_same_fs. Qed.

Lemma keeps_glob_sync dir pat : always env R (glob_sync dir pat).
Proof. by apply keeps_same_fs. Qed.

Lemma keeps_tempModulesOf cfg : always env R (tempModulesOf cfg).
Proof. apply keeps_same_fs. intros w. by rewrite tempModulesOf_run. Qed.

Lemma keeps_mkdirSync q : q ≠ p → always env R (mkdirSync q).
Proof.
  intros Hne w. rewrite mkdirSync_run. simpl.
  destruct (fs_fault env _); [by right|].
  destruct (exists_at (fs w) q); [by right|].
  destruct (is_dir _); [|by right]. right. simpl. by rewrite lookup_insert_ne.
Qed.

Lemma keeps_saveJsonFile d q : q ≠ p → always env R (saveJsonFile d q).
Proof.
  intros Hne w. rewrite saveJsonFile_run. simpl.
  destruct (fs_fault env _); [by right|].
  destruct (is_dir (fs w !! q)); [by right|].
  destruct (is_dir _); [|by right]. right. simpl. by rewrite lookup_insert_ne.
Qed.

Lemma keeps_remove_tree q f : remove_tree q f !! p = None ∨ remove_tree q f !! p = f !! p.
Proof.
  destruct (decide (q `prefix_of` p)).
  - left. by apply lookup_remove_tree_below.
  - right. by apply lookup_remove_tree_other.
Qed.

Lemma keeps_recycleDirectory cfg q : always env R (recycleDirectory cfg q).
Proof.
  intros w. rewrite recycleDirectory_run. simpl.
  destruct (fs_fault env _); [by right|].
  destruct (exists_at (fs w) q); [|by right]. apply keeps_remove_tree.
Qed.

Lemma keeps_dangerouslyDeletePath q : always env R (dangerouslyDeletePath q).
Proof.
  intros w. rewrite dangerouslyDeletePath_run. simpl.
  destruct (fs_fault env _); [by right|]. apply keeps_remove_tree.
Qed.

Lemma keeps_call e f :
  (∀ f0, (f env f0).2 !! p = f0 !! p) → always env R (call e f).
Proof. intros Hf w. rewrite call_run. right. simpl. apply Hf. Qed.

Lemma keeps_createFolderWithRetry q : q ≠ p → always env R (createFolderWithRetry q).
Proof.
  intros Hne w. rewrite createFolderWithRetry_run. revert w.
  induction (maxAttempts env) as [|n IH]; intros w; simpl.
  - by right.
  - apply always_try_catch; [apply _|by apply keeps_mkdirSync|done].
Qed.

Lemma keeps_stage {A} s (m : M A) : always env R m → always env R (stage s m).
Proof.
  intros Hm. unfold stage.
  apply always_bind; [apply _|apply keeps_emit|intros _].
  apply always_bind; [apply _|done|intros a].
  apply always_bind; [apply _|apply keeps_emit|intros _].
  apply always_ret, _.
Qed.

Lemma keeps_deleteCommonNodeModules cfg isLazy :
  always env R (_deleteCommonNodeModules cfg isLazy).
Proof.
  unfold _deleteCommonNodeModules. destruct isLazy.
  - apply always_bind; [apply _|apply keeps_console_log|intros _].
    apply always_bind; [apply _|apply keeps_glob_sync|intros matches].
    apply always_for_of; [apply _|]. intros q. apply keeps_recycleDirectory.
  - apply always_bind; [apply _|apply keeps_existsSync|intros []].
    + apply always_bind; [apply _|apply keeps_console_log|intros _].
      apply keeps_recycleDirectory.
    + apply always_ret, _.
Qed.

Lemma keeps_deleteShrinkwrapFile cfg : always env R (_deleteShrinkwrapFile cfg).
Proof.
  unfold _deleteShrinkwrapFile.
  apply always_bind; [apply _|apply keeps_existsSync|intros []].
  - apply always_bind; [apply _|apply keeps_console_log|intros _].
    apply keeps_dangerouslyDeletePath.
  - apply always_ret, _.
Qed.

Lemma keeps_deleteCommonTempModules cfg : always env R (_deleteCommonTempModules cfg).
Proof.
  unfold _deleteCommonTempModules.
  apply always_bind; [apply _|apply keeps_existsSync|intros []].
  - apply always_bind; [apply _|apply keeps_console_log|intros _].
    apply keeps_dangerouslyDeletePath.
  - apply always_ret, _.
Qed.

Lemma keeps_finish : always env R finish.
Proof. by apply keeps_same_fs. Qed.

Hypothesis Hleave : collaborators_leave env p.

Lemma keeps_loadAndSnapshot : always env R loadAndSnapshot.
Proof.
  destruct Hleave as (Hnew & Hsnap & _ & _). unfold loadAndSnapshot.
  apply always_bind; [apply _| |intros cfg].
  { apply keeps_same_fs. intros w. by rewrite loadConfiguration_run. }
  apply always_bind; [apply _|apply always_ask, _|intros env'].
  apply always_bind; [apply _|apply keeps_console_log|intros _].
  apply always_bind; [apply _| |intros _; apply always_ret, _].
  destruct (truthy _); [|apply always_ret, _].
  apply always_bind; [apply _| |intros _]; apply keeps_call; [apply Hnew|apply Hsnap].
Qed.

Lemma keeps_installAndFreeze_lazy cfg : always env R (installAndFreeze cfg true).
Proof.
  destruct Hleave as (_ & _ & Hensure & Hexec).
  unfold installAndFreeze, _runNpmInstall, _runNpmShrinkWrap.
  apply always_bind; [apply _|apply keeps_console_log|intros _].
  apply always_bind; [apply _|apply keeps_call; intros f0; apply Hensure|intros _].
  apply always_bind; [apply _| |intros _].
  - apply always_bind; [apply _|apply always_ask, _|intros env'].
    apply always_bind; [apply _|apply keeps_console_log|intros _].
    apply always_bind; [apply _| |intros _; apply keeps_console_log].
    apply keeps_call. intros f0. apply Hexec, npmInstallArgs_not_shrinkwrap.
  - apply always_bind; [apply _|apply always_ask, _|intros env'].
    apply keeps_console_log.
Qed.
End LockFile.

Section LockFileLayout.
Context (env : Env) (cfg : RushConfiguration).
Hypothesis Hlayout : tempModulesFolder cfg = path_join (commonFolder cfg) "temp_modules".
Hypothesis Hleave : collaborators_leave env (shrinkwrapFilename cfg).

Let R := keeps_or_deletes (shrinkwrapFilename cfg).

Lemma lock_not_in_temp (rest : list string) :
  tempModulesFolder cfg ++ rest ≠ shrinkwrapFilename cfg.
Proof.
  rewrite Hlayout. unfold shrinkwrapFilename, path_join. rewrite <- app_assoc.
  intros Heq. apply app_inv_head in Heq. discriminate.
Qed.

Lemma keeps_createCommonTempModulesAndPackageJson :
  always env R (_createCommonTempModulesAndPackageJson cfg).
Proof.
  unfold _createCommonTempModulesAndPackageJson.
  apply always_bind; [apply _|apply keeps_console_log|intros _].
  apply always_bind; [apply _| |intros _].
  { apply keeps_createFolderWithRetry.
    rewrite <- (app_nil_r (tempModulesFolder cfg)). apply lock_not_in_temp. }
  apply always_bind; [apply _|apply keeps_console_log|intros _].
  apply always_bind; [apply _|apply always_ask, _|intros env'].
  apply always_bind; [apply _|apply keeps_tempModulesOf|intros tm].
  apply always_bind; [apply _| |intros pj].
  { apply always_for_of_acc; [apply _|]. intros pj p. unfold createTempProject.
    apply always_bind; [apply _| |intros _].
    { apply keeps_mkdirSync, lock_not_in_temp. }
    apply always_bind; [apply _| |intros _; apply always_ret, _].
    apply keeps_saveJsonFile. unfold path_join. rewrite <- app_assoc.
    apply lock_not_in_temp. }
  apply always_bind; [apply _|apply keeps_console_log|intros _].
  apply keeps_saveJsonFile. unfold shrinkwrapFilename, path_join.
  intros Heq. apply app_inv_head in Heq. discriminate.
Qed.

Lemma keeps_fromCreate_lazy : always env R (fromCreate cfg true).
Proof.
  unfold fromCreate.
  apply always_bind; [apply _| |intros _].
  { apply keeps_stage, keeps_createCommonTempModulesAndPackageJson. }
  apply always_bind; [apply _| |intros _].
  { by apply keeps_stage, keeps_installAndFreeze_lazy. }
  apply keeps_finish.
Qed.

Lemma keeps_afterLoad_lazy : always env R (afterLoad cfg true).
Proof.
  unfold afterLoad.
  apply always_bind; [apply _| |intros _].
  { apply keeps_stage, keeps_deleteCommonNodeModules. }
  apply always_bind; [apply _| |intros _].
  { apply keeps_stage, keeps_deleteShrinkwrapFile. }
  apply always_bind; [apply _| |intros _].
  { apply keeps_stage, keeps_deleteCommonTempModules. }
  apply keeps_fromCreate_lazy.
Qed.

(** Once [_deleteShrinkwrapFile] has returned, the lock file is gone. *)
Lemma deleteShrinkwrapFile_ok w u w' :
  _deleteShrinkwrapFile cfg env w = (Ok u, w') →
  fs w' !! shrinkwrapFilename cfg = None.
Proof.
  unfold _deleteShrinkwrapFile. fold (shrinkwrapFilename cfg).
  rewrite bind_run, existsSync_run. cbv beta iota. unfold exists_at.
  destruct (fs w !! shrinkwrapFilename cfg) as [x|] eqn:Hlock.
  - rewrite bind_run, console_log_run. cbv beta iota.
    rewrite dangerouslyDeletePath_run. simpl.
    destruct (fs_fault env _); [done|]. intros [= _ <-]. simpl.
    by apply lookup_remove_tree_below.
  - by intros [= _ <-].
Qed.
End LockFileLayout.

Lemma stage_load_config env w cfg w1 :
  stage StLoad loadAndSnapshot env w = (Ok cfg, w1) →
  loadFromDefaultLocation env (fs w) = Ok cfg.
Proof.
  rewrite stage_run.
  destruct (loadAndSnapshot env _) as [[c|e] w0] eqn:Hrun; [|done].
  intros [= <- _]. unfold loadAndSnapshot in Hrun.
  bind_inv Hrun as H1. rewrite loadConfiguration_run in H1.
  injection H1 as Hload _. simpl in Hload.
  bind_inv Hrun as H1. clear H1. bind_inv Hrun as H1. clear H1.
  bind_inv Hrun as H1. clear H1. injection Hrun as <- _. done.
Qed.

(** C6: in lazy mode no call of [npm shrinkwrap] is made, in any run,
    whether it returns or throws; a run that returns has printed the
    notice [(Skipping "npm shrinkwrap")].  Where the temp-modules folder
    is [<commonFolder>/temp_modules] and the other collaborators do not
    write at [<commonFolder>/npm-shrinkwrap.json], the lock file at the
    end of the run is either gone or what it was at the start, and it is
    gone when the run returns: nothing writes it. *)
Theorem lazy_mode_skips_freeze (env : Env) (w : World) :
  (∃ evs,
     trace (onExecute true env w).2 = trace w ++ evs ∧
     Forall (λ e, invokes_shrinkwrap e = false) evs ∧
     ((onExecute true env w).1 = Ok tt → In (EvLog (skip_notice env)) evs)) ∧
  (∀ cfg,
     loadFromDefaultLocation env (fs w) = Ok cfg →
     tempModulesFolder cfg = path_join (commonFolder cfg) "temp_modules" →
     collaborators_leave env (shrinkwrapFilename cfg) →
     keeps_or_deletes (shrinkwrapFilename cfg) w (onExecute true env w).2 ∧
     ((onExecute true env w).1 = Ok tt →
      fs (onExecute true env w).2 !! shrinkwrapFilename cfg = None)).
Proof.
  split.
  - destruct (onExecute_lazy_quiet env w) as (evs & Hevs & Hquiet).
    exists evs. split; [done|]. split; [done|]. intros Hok.
    destruct (onExecute true env w) as [r w'] eqn:Hrun. simpl in *. subst r.
    apply onExecute_lazy_notice in Hrun as (evs' & Hevs' & Hin).
    rewrite Hevs in Hevs'. by apply app_inv_head in Hevs' as ->.
  - intros cfg Hload Hlayout Hleave.
    rewrite onExecute_afterLoad, bind_run.
    pose proof (keeps_stage env (shrinkwrapFilename cfg) StLoad loadAndSnapshot
                  (keeps_loadAndSnapshot env _ Hleave) w) as Hkeep1.
    destruct (stage StLoad loadAndSnapshot env w) as [[cfg1|e] w1] eqn:H1;
      [|by split].
    apply stage_load_config in H1. rewrite Hload in H1. injection H1 as <-.
    simpl in Hkeep1. split.
    + etrans; [exact Hkeep1|]. by apply keeps_afterLoad_lazy.
    + destruct (afterLoad cfg true env w1) as [r w'] eqn:Hrun. simpl.
      intros ->. unfold afterLoad in Hrun.
      bind_inv Hrun as H2. clear H2. bind_inv Hrun as H3.
      rewrite stage_run in H3.
      destruct (_deleteShrinkwrapFile cfg env _) as [[[]|e] w3] eqn:Hdel; [|done].
      injection H3 as _ <-. apply deleteShrinkwrapFile_ok in Hdel.
      assert (always env (keeps_or_deletes (shrinkwrapFilename cfg))
                (stage StDeleteTempModulesRoot (_deleteCommonTempModules cfg);;
                 fromCreate cfg true)) as Hrest.
      { apply always_bind; [apply _| |intros _].
        - apply keeps_stage, keeps_deleteCommonTempModules.
        - by apply keeps_fromCreate_lazy. }
      specialize (Hrest (add_event (EvStageEnd StDeleteLockArtifact) w3)).
      rewrite Hrun in Hrest. destruct Hrest as [Hnone|Hsame]; [done|].
      simpl in Hsame. by rewrite Hsame.
Qed.

Lemma demo_collaborators_leave cfg p :
  collaborators_leave (demo_env cfg) p.
Proof.
  split_and!; try done.
  intros tool args cwd f Hargs. unfold demo_env, demo_exec. simpl.
  by rewrite bool_decide_eq_false_2.
Qed.

Lemma lazy_mode_skips_freeze_witness :
  let env := demo_env demo_config in
  let w := world_of demo_fs in
  (∃ evs,
     trace (onExecute true env w).2 = trace w ++ evs ∧
     Forall (λ e, invokes_shrinkwrap e = false) evs ∧
     ((onExecute true env w).1 = Ok tt → In (EvLog (skip_notice env)) evs)) ∧
  keeps_or_deletes (shrinkwrapFilename demo_config) w (onExecute true env w).2 ∧
  fs (onExecute true env w).2 !! shrinkwrapFilename demo_config = None.
Proof.
  destruct (lazy_mode_skips_freeze (demo_env demo_config) (world_of demo_fs))
    as [Hevents Hlock].
  destruct (Hlock demo_config eq_refl eq_refl (demo_collaborators_leave _ _))
    as [Hkeep Hgone].
  split; [exact Hevents|]. split; [exact Hkeep|].
  apply Hgone. vm_compute. reflexivity.
Defined.

Example lazy_run_lock_file :
  let full := onExecute false (demo_env demo_config) (world_of demo_fs) in
  let lazy := onExecute true (demo_env demo_config) (world_of demo_fs) in
  full.1 = Ok tt ∧ lazy.1 = Ok tt ∧
  demo_fs !! ["repo"; "common"; "npm-shrinkwrap.json"] = Some (RawFile "{}") ∧
  fs full.2 !! ["repo"; "common"; "npm-shrinkwrap.json"] = Some (RawFile "{}") ∧
  fs lazy.2 !! ["repo"; "common"; "npm-shrinkwrap.json"] = None ∧
  existsb invokes_shrinkwrap (trace full.2) = true ∧
  existsb invokes_shrinkwrap (trace lazy.2) = false.
Proof. vm_compute. repeat split. Qed.

(* ===================================================================== *)
(** ** The order of the stages *)
(* ===================================================================== *)

Section StageOrder.
Context (env : Env) (lazyParameter : bool).

Lemma stage_spec_middle {A} (s : Stage) (m : M A) :
  s ≠ StLoad → s ≠ StInstallFreeze →
  always env (emitting (in_stage s)) m → stage_spec env lazyParameter s m.
Proof.
  intros H1 H6 Hm w. destruct (Hm w) as (body & Hbody & Hin).
  exists body. split; [done|]. split; [done|]. by destruct s.
Qed.

Lemma loadAndSnapshot_spec : stage_spec env lazyParameter StLoad loadAndSnapshot.
Proof.
  intros w. destruct (emits_loadAndSnapshot env w) as (body & Hbody & Hin).
  exists body. split; [done|]. split; [done|].
  revert Hbody. unfold loadAndSnapshot.
  rewrite bind_run, loadConfiguration_run.
  destruct (loadFromDefaultLocation env (fs w)) as [cfg|e]; cbv beta iota.
  2: { simpl. intros Hbody. apply app_inv_head in Hbody as <-. by eexists. }
  rewrite bind_run, ask_run. cbv beta iota.
  rewrite bind_run, console_log_run. cbv beta iota. rewrite bind_run.
  destruct (truthy (packageReviewFile cfg)).
  2: { simpl. rewrite <- app_assoc. intros Hbody.
       apply app_inv_head in Hbody as <-. by left. }
  rewrite bind_run, call_run.
  destruct (newPackageReviewChecker env cfg _) as [[[]|e] f1]; cbn [fst snd]; cbv beta iota.
  2: { simpl. rewrite <- !app_assoc. intros Hbody.
       apply app_inv_head in Hbody as <-. by eexists. }
  rewrite call_run.
  destruct (saveCurrentDependencies env cfg _) as [[[]|e] f2]; simpl;
    rewrite <- !app_assoc; intros Hbody; apply app_inv_head in Hbody as <-.
  - by right.
  - by exists [].
Qed.

Lemma installAndFreeze_spec cfg :
  stage_spec env lazyParameter StInstallFreeze (installAndFreeze cfg lazyParameter).
Proof.
  intros w.
  destruct (emits_installAndFreeze env cfg lazyParameter w) as (body & Hbody & Hin).
  exists body. split; [done|]. split; [done|].
  destruct (push_if_set_head "--cache" (cacheFolder cfg) "install" []) as [r1 Hr1].
  destruct (push_if_set_head "--tmp" (tmpFolder cfg) "install" r1) as [args Hargs].
  exists (npmToolFilename cfg), args, (commonFolder cfg).
  revert Hbody. unfold installAndFreeze, _runNpmInstall, _runNpmShrinkWrap.
  rewrite Hr1, Hargs.
  rewrite bind_run, console_log_run. cbv beta iota.
  rewrite bind_run, call_run.
  destruct (ensureLocalNpmTool env cfg false _) as [[[]|e] f1]; cbn [fst snd]; cbv beta iota.
  2: { simpl. rewrite <- !app_assoc. intros Hbody.
       apply app_inv_head in Hbody as <-. simpl. by eexists. }
  rewrite bind_run, bind_run, ask_run. cbv beta iota.
  rewrite bind_run, console_log_run. cbv beta iota.
  rewrite bind_run, call_run.
  destruct (executeCommand env _ ("install" :: args) _ _) as [[[]|e] f2];
    cbn [fst snd]; cbv beta iota.
  2: { simpl. rewrite <- !app_assoc. intros Hbody.
       apply app_inv_head in Hbody as <-. simpl.
       destruct lazyParameter; [done|by eexists]. }
  rewrite console_log_run. cbv beta iota.
  rewrite bind_run, ask_run. cbv beta iota.
  destruct lazyParameter.
  - rewrite console_log_run. simpl. rewrite <- !app_assoc. intros Hbody.
    by apply app_inv_head in Hbody as <-.
  - rewrite bind_run, console_log_run. cbv beta iota.
    rewrite bind_run, call_run.
    destruct (executeCommand env _ ["shrinkwrap"] _ _) as [[[]|e] f3];
      cbn [fst snd]; cbv beta iota; simpl; rewrite <- !app_assoc; intros Hbody;
      by apply app_inv_head in Hbody as <-.
Qed.

Lemma staged_bind {A B} (s : Stage) (rest : list Stage) (m : M A) (k : A → M B) :
  stage_spec env lazyParameter s m →
  (∀ a w1, ∃ evs, trace (k a env w1).2 = trace w1 ++ evs ∧
                  staged rest lazyParameter (is_ok (k a env w1).1) evs) →
  ∀ w, ∃ evs, trace ((stage s m ≫= k) env w).2 = trace w ++ evs ∧
              staged (s :: rest) lazyParameter
                (is_ok ((stage s m ≫= k) env w).1) evs.
Proof.
  intros Hm Hk w. rewrite bind_run, stage_run.
  destruct (Hm (add_event (EvStageBegin s) w)) as (body & Hbody & Hspec).
  destruct (m env _) as [[a|e] w1]; simpl in *.
  - destruct (Hk a (add_event (EvStageEnd s) w1)) as (evs' & Hevs' & Hstaged).
    exists (EvStageBegin s :: body ++ EvStageEnd s :: evs'). split.
    + rewrite Hevs'. simpl. rewrite Hbody.
      by rewrite <- !app_assoc.
    + exists body. right. by exists evs'.
  - exists (EvStageBegin s :: body). split.
    + rewrite Hbody. by rewrite <- app_assoc.
    + exists body. by left.
Qed.
End StageOrder.


(* ===================================================================== *)
(** ** Worked examples *)
(* ===================================================================== *)

(** Own-property order: array indices first, in numeric order, then the
    other keys as first assigned; a second assignment keeps the place. *)
Example object_key_order :
  assign_all [("b", "1"); ("10", "2"); ("a", "3"); ("9", "4"); ("b", "5"); ("01", "6")] []
  = [("9", "4"); ("10", "2"); ("b", "5"); ("a", "3"); ("01", "6")].
Proof. reflexivity. Qed.

(** The sort is stable: [bb] and [ba] compare equal on their first letter
    and keep their order. *)
Example sort_is_stable :
  array_sort (λ a b, compare_code_units (String.substring 0 1 a) (String.substring 0 1 b))
    ["c"; "bb"; "a"; "ba"]
  = ["a"; "bb"; "ba"; "c"].
Proof. reflexivity. Qed.

(** Running [rush generate] twice in a row: the second run tears down
    what the first one made and writes the same root manifest and the
    same temp modules. *)
Example generate_twice :
  let env := demo_env demo_config in
  let first := onExecute false env (world_of demo_fs) in
  let second := onExecute false env first.2 in
  first.1 = Ok tt ∧ second.1 = Ok tt ∧
  map_to_list (fs second.2) = map_to_list (fs first.2) ∧
  fs second.2 !! ["repo"; "common"; "package.json"]
  = Some (JsonDoc (Some (rootManifest compare_code_units demo_config))).
Proof. vm_compute. repeat split. Qed.

(* ===================================================================== *)
(** ** Paths that a run leaves alone *)
(* ===================================================================== *)

#[global] Instance untouched_preorder q : PreOrder (untouched q).
Proof.
  split; [by intros w|].
  intros w1 w2 w3 [Hf12 Hr12] [Hf23 Hr23]. unfold untouched in *. split; congruence.
Qed.

Section Untouched.
Context (env : Env) (q : list string).

Lemma untouched_same {A} (m : M A) :
  (∀ w, fs (m env w).2 = fs w ∧ recycled (m env w).2 = recycled w) →
  always env (untouched q) m.
Proof. intros Hm w. destruct (Hm w) as [Hfs Hrec]. split; [by rewrite Hfs|done]. Qed.

Lemma untouched_console_log s : always env (untouched q) (console_log s).
Proof. by apply untouched_same. Qed.

Lemma untouched_tempModulesOf cfg : always env (untouched q) (tempModulesOf cfg).
Proof. apply untouched_same. intros w. by rewrite tempModulesOf_run. Qed.

Lemma untouched_mkdirSync p : p ≠ q → always env (untouched q) (mkdirSync p).
Proof.
  intros Hne w. rewrite mkdirSync_run. simpl.
  destruct (fs_fault env _); [done|].
  destruct (exists_at (fs w) p); [done|].
  destruct (is_dir _); [|done]. split; [|done]. simpl. by rewrite lookup_insert_ne.
Qed.

Lemma untouched_saveJsonFile d p : p ≠ q → always env (untouched q) (saveJsonFile d p).
Proof.
  intros Hne w. rewrite saveJsonFile_run. simpl.
  destruct (fs_fault env _); [done|].
  destruct (is_dir (fs w !! p)); [done|].
  destruct (is_dir _); [|done]. split; [|done]. simpl. by rewrite lookup_insert_ne.
Qed.

Lemma untouched_createFolderWithRetry p :
  p ≠ q → always env (untouched q) (createFolderWithRetry p).
Proof.
  intros Hne w. rewrite createFolderWithRetry_run. revert w.
  induction (maxAttempts env) as [|n IH]; intros w; simpl.
  - done.
  - apply always_try_catch; [apply _|by apply untouched_mkdirSync|done].
Qed.

(** A write that fails has written nothing. *)
Lemma failed_saveJsonFile d p : on_failure env (untouched q) (saveJsonFile d p).
Proof.
  intros w. rewrite saveJsonFile_run. simpl.
  destruct (fs_fault env _); [done|].
  destruct (is_dir (fs w !! p)); [done|].
  destruct (is_dir _); done.
Qed.
End Untouched.

Section OnFailure.
Context (env : Env) (R : relation World) `{!PreOrder R}.

Lemma on_failure_bind {A B} (m : M A) (f : A → M B) :
  always env R m → (∀ a, on_failure env R (f a)) → on_failure env R (m ≫= f).
Proof.
  intros Hm Hf w. rewrite bind_run. specialize (Hm w).
  destruct (m env w) as [[a|e] w1]; simpl in *; [|done].
  intros Hfail. etrans; [exact Hm|by apply Hf].
Qed.
End OnFailure.

(** The temp-modules folder is above everything the loop writes. *)
Lemma temp_above_folder cfg p :
  tempModulesFolder cfg `prefix_of` tempProjectFolder cfg p.
Proof. by exists [tempProjectName p]. Qed.

Lemma temp_above_manifest cfg p :
  tempModulesFolder cfg `prefix_of` tempPackageJsonFilename cfg p.
Proof.
  exists [tempProjectName p; "package.json"].
  unfold tempPackageJsonFilename, tempProjectFolder, path_join.
  by rewrite <- app_assoc.
Qed.

(** The loop of lines 96-109 leaves alone what is not below the
    temp-modules folder. *)
Lemma untouched_populate env cfg tm ps pj q :
  ¬ tempModulesFolder cfg `prefix_of` q →
  always env (untouched q) (for_of_acc ps (createTempProject cfg tm) pj).
Proof.
  intros Hq. apply always_for_of_acc; [apply _|]. intros pj' p.
  unfold createTempProject. fold (tempProjectFolder cfg p).
  fold (tempPackageJsonFilename cfg p).
  apply always_bind; [apply _| |intros _].
  { apply untouched_mkdirSync. intros <-. apply Hq, temp_above_folder. }
  apply always_bind; [apply _| |intros _; apply always_ret, _].
  apply untouched_saveJsonFile. intros <-. apply Hq, temp_above_manifest.
Qed.

(* ===================================================================== *)
(** ** Deleting the lock file and the temp-modules folder *)
(* ===================================================================== *)

(** Lines 53-56 and 62-65: test, announce, delete. *)
Lemma delete_if_exists_run (p : list string) (msg : string) env w :
  (found ← existsSync p;
   if (found : bool) then console_log msg;; dangerouslyDeletePath p
   else mret tt) env w
  = if exists_at (fs w) p then
      let w1 := add_event (EvLog msg) (add_event (EvExistsSync p) w) in
      if fs_fault env (length (trace w1))
      then (Throw FilesystemError, add_event (EvDangerouslyDeletePath p) w1)
      else (Ok tt, set_fs (remove_tree p (fs w)) (add_event (EvDangerouslyDeletePath p) w1))
    else (Ok tt, add_event (EvExistsSync p) w).
Proof.
  rewrite bind_run, existsSync_run. cbv beta iota.
  destruct (exists_at (fs w) p); [|done].
  rewrite bind_run, console_log_run. cbv beta iota.
  by rewrite dangerouslyDeletePath_run.
Qed.

Lemma fs_wf_absent f p : fs_wf f → f !! p = None → absent p f.
Proof.
  intros Hwf Hnone q [k ->].
  destruct (f !! (p ++ k)) as [x|] eqn:Hq; [|done].
  destruct (fs_wf_ancestor f p k Hwf) as [y Hy]; [by rewrite Hq|congruence].
Qed.

Lemma delete_if_exists_spec (p : list string) (msg : string) env w :
  let r := (found ← existsSync p;
            if (found : bool) then console_log msg;; dangerouslyDeletePath p
            else mret tt) env w in
  (∀ q, ¬ p `prefix_of` q → fs r.2 !! q = fs w !! q) ∧
  recycled r.2 = recycled w ∧
  (r.1 = Ok tt → fs r.2 !! p = None ∧ (fs_wf (fs w) → absent p (fs r.2))).
Proof.
  cbv zeta. rewrite delete_if_exists_run. unfold exists_at.
  destruct (fs w !! p) as [x|] eqn:Hp; cbv zeta.
  - destruct (fs_fault env _); simpl.
    + split; [done|]. split; [done|]. done.
    + split; [intros q Hq; by apply lookup_remove_tree_other|].
      split; [done|]. intros _. split.
      * by apply lookup_remove_tree_below.
      * intros _ q Hq. by apply lookup_remove_tree_below.
  - simpl. split; [done|]. split; [done|]. intros _. split; [done|].
    intros Hwf. by apply fs_wf_absent.
Qed.

(** X1: [_deleteShrinkwrapFile] and [_deleteCommonTempModules] touch
    nothing but their target and what lies below it, in every run, and
    hand nothing to the recycler (they delete, where the cleanup of
    [node_modules] recycles).  When they return the target is gone,
    whether it was there or not; on a well-formed disk nothing is left
    below the temp-modules folder either. *)
Theorem delete_if_exists_removes (env : Env) (cfg : RushConfiguration) (w : World) :
  let lock := _deleteShrinkwrapFile cfg env w in
  let temp := _deleteCommonTempModules cfg env w in
  ((∀ q, ¬ shrinkwrapFilename cfg `prefix_of` q → fs lock.2 !! q = fs w !! q) ∧
   recycled lock.2 = recycled w ∧
   (lock.1 = Ok tt → fs lock.2 !! shrinkwrapFilename cfg = None)) ∧
  ((∀ q, ¬ tempModulesFolder cfg `prefix_of` q → fs temp.2 !! q = fs w !! q) ∧
   recycled temp.2 = recycled w ∧
   (temp.1 = Ok tt →
    fs temp.2 !! tempModulesFolder cfg = None ∧
    (fs_wf (fs w) → absent (tempModulesFolder cfg) (fs temp.2)))).
Proof.
  cbv zeta. split.
  - destruct (delete_if_exists_spec (shrinkwrapFilename cfg)
                "Deleting common/npm-shrinkwrap.json" env w) as (Hframe & Hrec & Hpost).
    split; [exact Hframe|]. split; [exact Hrec|].
    intros Hok. by destruct (Hpost Hok).
  - exact (delete_if_exists_spec (tempModulesFolder cfg)
             "Deleting common/temp_modules folder" env w).
Qed.

(* ===================================================================== *)
(** ** What [_createCommonTempModulesAndPackageJson] leaves alone *)
(* ===================================================================== *)


Lemma demo_temp_not_above_manifest :
  ¬ tempModulesFolder demo_config `prefix_of` commonPackageJsonFilename demo_config.
Proof. intros [k Hk]. discriminate Hk. Qed.




(* ===================================================================== *)
(** ** What a run of [_createCommonTempModulesAndPackageJson] that
       returns has put on the disk *)
(* ===================================================================== *)

Lemma createFolderAttempts_ok n p env w u w' :
  createFolderAttempts n p env w = (Ok u, w') →
  fs w' = <[p := Dir]> (fs w) ∧ fs w !! p = None ∧ recycled w' = recycled w.
Proof.
  revert w. induction n as [|n IH]; intros w; simpl; [done|].
  unfold try_catch. destruct (mkdirSync p env w) as [[[]|e1] w1] eqn:Hmk.
  - intros [= _ <-]. apply mkdirSync_ok in Hmk as (-> & Hfree & _).
    split; [done|]. split; [|done]. unfold exists_at in Hfree.
    by destruct (fs w !! p).
  - apply mkdirSync_throw in Hmk as [_ ->]. intros Hrun. by apply IH in Hrun.
Qed.

Lemma createTempProject_ok_disk cfg tm pj p env w pj' w' :
  createTempProject cfg tm pj p env w = (Ok pj', w') →
  fs w' = <[tempPackageJsonFilename cfg p := JsonDoc (tm !! packageName p)]>
            (<[tempProjectFolder cfg p := Dir]> (fs w)) ∧
  fs w !! tempProjectFolder cfg p = None ∧
  recycled w' = recycled w.
Proof.
  unfold createTempProject. intros H.
  bind_inv H as H1. apply mkdirSync_ok in H1 as (-> & Hfree & _).
  bind_inv H as H1. apply saveJsonFile_ok in H1 as ->.
  injection H as _ <-. split; [done|]. split; [|done].
  unfold exists_at in Hfree. fold (tempProjectFolder cfg p) in Hfree.
  by destruct (fs w !! tempProjectFolder cfg p).
Qed.

Lemma folder_ne_manifest cfg a b :
  tempProjectFolder cfg a ≠ tempPackageJsonFilename cfg b.
Proof.
  unfold tempPackageJsonFilename, tempProjectFolder, path_join.
  intros Heq. apply (f_equal length) in Heq. rewrite !length_app in Heq.
  simpl in Heq. lia.
Qed.

Lemma tempProjectFolder_inj cfg a b :
  tempProjectFolder cfg a = tempProjectFolder cfg b →
  tempProjectName a = tempProjectName b.
Proof.
  unfold tempProjectFolder, path_join. intros Heq.
  apply app_inv_head in Heq. by injection Heq.
Qed.

Lemma tempPackageJsonFilename_inj cfg a b :
  tempPackageJsonFilename cfg a = tempPackageJsonFilename cfg b →
  tempProjectName a = tempProjectName b.
Proof.
  unfold tempPackageJsonFilename, path_join. intros Heq.
  apply app_inj_tail in Heq as [Heq _]. by apply tempProjectFolder_inj in Heq.
Qed.

Lemma temp_ne_folder cfg p : tempModulesFolder cfg ≠ tempProjectFolder cfg p.
Proof. apply folder_ne_file. Qed.

Lemma temp_ne_manifest cfg p : tempModulesFolder cfg ≠ tempPackageJsonFilename cfg p.
Proof.
  unfold tempPackageJsonFilename, tempProjectFolder, path_join.
  intros Heq. apply (f_equal length) in Heq. rewrite !length_app in Heq.
  simpl in Heq. lia.
Qed.

(** The loop of lines 96-109, when it returns: the folders it made were
    not there, so the names are distinct; every project has its folder
    and its manifest; nothing else changed. *)
Lemma populate_ok_disk cfg tm ps pj env w pj' w' :
  for_of_acc ps (createTempProject cfg tm) pj env w = (Ok pj', w') →
  NoDup (map tempProjectName ps) ∧
  (∀ p, In p ps → fs w !! tempProjectFolder cfg p = None) ∧
  (∀ p, In p ps →
     fs w' !! tempProjectFolder cfg p = Some Dir ∧
     fs w' !! tempPackageJsonFilename cfg p = Some (JsonDoc (tm !! packageName p))) ∧
  (∀ q, (∀ p, In p ps → q ≠ tempProjectFolder cfg p ∧
                         q ≠ tempPackageJsonFilename cfg p) →
        fs w' !! q = fs w !! q) ∧
  recycled w' = recycled w.
Proof.
  revert pj w. induction ps as [|p ps IH]; intros pj w H; simpl in H.
  - injection H as _ <-. split_and!; [constructor|by intros p []|by intros p []|done|done].
  - bind_inv H as H1. apply createTempProject_ok_disk in H1 as (Hfs1 & Hfree & Hrec1).
    apply IH in H as (Hnodup & Hfree' & Hmade & Hframe & Hrec).
    assert (∀ p', In p' ps → tempProjectName p' ≠ tempProjectName p) as Hfresh.
    { intros p' Hp' Heq. specialize (Hfree' p' Hp').
      assert (tempProjectFolder cfg p' = tempProjectFolder cfg p) as Hsame
        by (unfold tempProjectFolder; by rewrite Heq).
      rewrite Hsame, Hfs1 in Hfree'.
      rewrite lookup_insert_ne in Hfree' by apply not_eq_sym, folder_ne_manifest.
      by rewrite lookup_insert_eq in Hfree'. }
    assert (∀ p', In p' ps →
              tempProjectFolder cfg p ≠ tempProjectFolder cfg p' ∧
              tempPackageJsonFilename cfg p ≠ tempPackageJsonFilename cfg p') as Hother.
    { intros p' Hp'. split; intros Heq.
      - apply tempProjectFolder_inj in Heq. by apply (Hfresh p').
      - apply tempPackageJsonFilename_inj in Heq. by apply (Hfresh p'). }
    split_and!.
    + simpl. apply NoDup_cons. split; [|done]. intros Hin.
      apply list_elem_of_In, in_map_iff in Hin as (p' & Heq & Hp').
      by apply (Hfresh p').
    + intros p0 [<-|Hp0]; [done|]. specialize (Hfree' p0 Hp0).
      rewrite Hfs1 in Hfree'.
      rewrite lookup_insert_ne in Hfree' by apply not_eq_sym, folder_ne_manifest.
      rewrite lookup_insert_ne in Hfree' by apply (Hother p0 Hp0). done.
    + intros p0 [<-|Hp0]; [|by apply Hmade]. split.
      * rewrite Hframe, Hfs1.
        -- rewrite lookup_insert_ne by apply not_eq_sym, folder_ne_manifest.
           by rewrite lookup_insert_eq.
        -- intros p' Hp'. split; [apply (Hother p' Hp')|apply folder_ne_manifest].
      * rewrite Hframe, Hfs1.
        -- by rewrite lookup_insert_eq.
        -- intros p' Hp'. split; [apply not_eq_sym, folder_ne_manifest|apply (Hother p' Hp')].
    + intros q Hq. rewrite Hframe by (intros p' Hp'; apply Hq; by right).
      destruct (Hq p) as [Hq1 Hq2]; [by left|].
      rewrite Hfs1. by rewrite !lookup_insert_ne by by apply not_eq_sym.
    + congruence.
Qed.

(** The disk after a run that returned: the disk before, with the
    temp-modules folder, one folder and one manifest for each project,
    and the root manifest laid over them. *)
Lemma create_ok_disk cfg env w :
  (_createCommonTempModulesAndPackageJson cfg env w).1 = Ok tt →
  ∃ tm f,
    newTempModuleGenerator env cfg = Ok tm ∧
    fs (_createCommonTempModulesAndPackageJson cfg env w).2
    = <[commonPackageJsonFilename cfg
          := JsonDoc (Some (rootManifest (localeCompare env) cfg))]> f ∧
    fs w !! tempModulesFolder cfg = None ∧
    f !! tempModulesFolder cfg = Some Dir ∧
    NoDup (map tempProjectName (projects cfg)) ∧
    (∀ p, In p (projects cfg) →
       f !! tempProjectFolder cfg p = Some Dir ∧
       f !! tempPackageJsonFilename cfg p = Some (JsonDoc (tm !! packageName p))) ∧
    (∀ q, q ≠ tempModulesFolder cfg →
          (∀ p, In p (projects cfg) → q ≠ tempProjectFolder cfg p ∧
                                      q ≠ tempPackageJsonFilename cfg p) →
          f !! q = fs w !! q) ∧
    recycled (_createCommonTempModulesAndPackageJson cfg env w).2 = recycled w.
Proof.
  destruct (_createCommonTempModulesAndPackageJson cfg env w) as [r w'] eqn:H.
  simpl. intros ->. unfold _createCommonTempModulesAndPackageJson in H.
  bind_inv H as H1. injection H1 as _ <-.
  bind_inv H as H1. rewrite createFolderWithRetry_run in H1.
  apply createFolderAttempts_ok in H1 as (Hfs1 & Hfree1 & Hrec1).
  bind_inv H as H1. injection H1 as _ <-.
  bind_inv H as H1. injection H1 as <- <-.
  bind_inv H as H1. rewrite tempModulesOf_run in H1. injection H1 as Htm <-.
  bind_inv H as H1. apply populate_ok in H1 as Hpj. destruct Hpj as [-> _].
  apply populate_ok_disk in H1 as (Hnodup & _ & Hmade & Hframe & Hrec).
  bind_inv H as H1. injection H1 as _ <-.
  apply saveJsonFile_ok in H as ->. simpl in *.
  assert (∀ p, In p (sortedRushProjects (localeCompare env) (projects cfg))
               ↔ In p (projects cfg)) as Hin.
  { intros p. split; apply Permutation_in;
      [|symmetry]; apply sortedRushProjects_perm. }
  eexists _, _. split; [by symmetry|]. split; [reflexivity|]. split_and!.
  - done.
  - rewrite Hframe, Hfs1; [by rewrite lookup_insert_eq|].
    intros p _. split; [apply temp_ne_folder|apply temp_ne_manifest].
  - by rewrite <- (Permutation_map tempProjectName
                     (sortedRushProjects_perm (localeCompare env) (projects cfg))).
  - intros p Hp. by apply Hmade, Hin.
  - intros q Hq Hps. rewrite Hframe, Hfs1.
    + by rewrite lookup_insert_ne by by apply not_eq_sym.
    + intros p Hp. by apply Hps, Hin.
  - congruence.
Qed.

(** X4: when [_createCommonTempModulesAndPackageJson] returns, the
    temp-modules folder is a directory and every project has, below it,
    a folder named by its [tempProjectName] holding a [package.json]
    with the document the generator's map gives for its [packageName]
    (where the root manifest is not itself written below the
    temp-modules folder). *)
Theorem create_writes_temp_projects (env : Env) (cfg : RushConfiguration)
    (w : World) :
  ¬ tempModulesFolder cfg `prefix_of` commonPackageJsonFilename cfg →
  (_createCommonTempModulesAndPackageJson cfg env w).1 = Ok tt →
  let f := fs (_createCommonTempModulesAndPackageJson cfg env w).2 in
  f !! tempModulesFolder cfg = Some Dir ∧
  ∃ tm, newTempModuleGenerator env cfg = Ok tm ∧
        ∀ p, In p (projects cfg) →
             f !! tempProjectFolder cfg p = Some Dir ∧
             f !! tempPackageJsonFilename cfg p
             = Some (JsonDoc (tm !! packageName p)).
Proof.
  intros Hq Hok. cbv zeta.
  destruct (create_ok_disk cfg env w Hok)
    as (tm & f & Htm & -> & _ & Htemp & _ & Hmade & _ & _).
  assert (∀ q, tempModulesFolder cfg `prefix_of` q →
               commonPackageJsonFilename cfg ≠ q) as Hne.
  { intros q Hpre Heq. apply Hq. by rewrite Heq. }
  split.
  - by rewrite lookup_insert_ne by by apply Hne.
  - exists tm. split; [done|]. intros p Hp.
    rewrite !lookup_insert_ne;
      [by apply Hmade|apply Hne, temp_above_manifest|apply Hne, temp_above_folder].
Qed.

Lemma create_writes_temp_projects_witness :
  let f := fs (_createCommonTempModulesAndPackageJson demo_config
                 (demo_env demo_config) (world_of fresh_fs)).2 in
  f !! tempModulesFolder demo_config = Some Dir ∧
  ∃ tm, newTempModuleGenerator (demo_env demo_config) demo_config = Ok tm ∧
        ∀ p, In p (projects demo_config) →
             f !! tempProjectFolder demo_config p = Some Dir ∧
             f !! tempPackageJsonFilename demo_config p
             = Some (JsonDoc (tm !! packageName p)).
Proof.
  apply (create_writes_temp_projects (demo_env demo_config) demo_config
           (world_of fresh_fs)).
  - exact demo_temp_not_above_manifest.
  - vm_compute. reflexivity.
Defined.

(** X5: two projects with the same [tempProjectName] make
    [_createCommonTempModulesAndPackageJson] throw, on every disk: the
    second [mkdirSync] finds the folder of the first.  When the
    generator returned, the error is the file system's; no check of the
    names is made before. *)
Theorem duplicate_temp_name_fails (env : Env) (cfg : RushConfiguration)
    (w : World) (i j : nat) (p1 p2 : RushConfigurationProject) :
  i ≠ j →
  projects cfg !! i = Some p1 → projects cfg !! j = Some p2 →
  tempProjectName p1 = tempProjectName p2 →
  is_ok (_createCommonTempModulesAndPackageJson cfg env w).1 = false ∧
  (∀ tm, newTempModuleGenerator env cfg = Ok tm →
         (_createCommonTempModulesAndPackageJson cfg env w).1
         = Throw FilesystemError).
Proof.
  intros Hij Hi Hj Hname.
  assert (is_ok (_createCommonTempModulesAndPackageJson cfg env w).1 = false) as Hfail.
  { destruct (_createCommonTempModulesAndPackageJson cfg env w).1 as [[]|e] eqn:Hrun;
      [|done].
    destruct (create_ok_disk cfg env w Hrun) as (_ & _ & _ & _ & _ & _ & Hnodup & _).
    destruct Hij. eapply (NoDup_lookup _ i j (tempProjectName p1) Hnodup).
    - by rewrite list_lookup_fmap, Hi.
    - by rewrite list_lookup_fmap, Hj, Hname. }
  split; [done|]. intros tm Htm.
  destruct (_createCommonTempModulesAndPackageJson cfg env w) as [[[]|e] w'] eqn:Hrun;
    [done|].
  apply create_errors in Hrun as [->|Hgen]; [done|congruence].
Qed.

Lemma duplicate_temp_name_fails_witness :
  is_ok (_createCommonTempModulesAndPackageJson twin_config (demo_env twin_config)
           (world_of fresh_fs)).1 = false ∧
  (∀ tm, newTempModuleGenerator (demo_env twin_config) twin_config = Ok tm →
         (_createCommonTempModulesAndPackageJson twin_config (demo_env twin_config)
            (world_of fresh_fs)).1
         = Throw FilesystemError).
Proof.
  apply (duplicate_temp_name_fails (demo_env twin_config) twin_config
           (world_of fresh_fs) 0 2 project_a project_a_twin).
  - lia.
  - reflexivity.
  - reflexivity.
  - reflexivity.
Defined.

(** X6: when the temp-module generator throws,
    [_createCommonTempModulesAndPackageJson] makes no project folder
    and writes no manifest: it has logged, tried to create the
    temp-modules folder and built the generator, nothing else.  Either
    the folder could not be created (the disk is as before, the error is
    the file system's), or the run throws the generator's error and
    leaves the new, empty temp-modules folder behind. *)
Theorem generator_failure_stops_populate (env : Env) (cfg : RushConfiguration)
    (w : World) (e : Error) :
  newTempModuleGenerator env cfg = Throw e →
  let r := _createCommonTempModulesAndPackageJson cfg env w in
  ((r.1 = Throw FilesystemError ∧ fs r.2 = fs w) ∨
   (r.1 = Throw e ∧ fs r.2 = <[tempModulesFolder cfg := Dir]> (fs w))) ∧
  recycled r.2 = recycled w ∧
  ∃ evs, trace r.2 = trace w ++ evs ∧ Forall (before_populate cfg) evs.
Proof.
  intros Hgen. cbv zeta. unfold _createCommonTempModulesAndPackageJson.
  rewrite bind_run, console_log_run. cbv beta iota.
  set (w1 := add_event (EvLog "Creating a clean common/temp_modules folder") w).
  rewrite bind_run, createFolderWithRetry_run.
  destruct (emitting_createFolderAttempts env (before_populate cfg)
              (maxAttempts env) (tempModulesFolder cfg)
              (or_intror (or_introl eq_refl)) w1) as (attempts & Hattempts & Hall).
  destruct (createFolderAttempts _ _ env w1) as [[[]|e1] w2] eqn:Hrun.
  - apply createFolderAttempts_ok in Hrun as (Hfs & Hfree & Hrec).
    rewrite bind_run, console_log_run. cbv beta iota.
    rewrite bind_run, ask_run. cbv beta iota.
    rewrite bind_run, tempModulesOf_run, Hgen. simpl in *. split_and!.
    + right. done.
    + done.
    + exists (EvLog "Creating a clean common/temp_modules folder" :: attempts ++
              [EvLog "Creating temp projects..."; EvNewTempModuleGenerator]).
      split.
      * rewrite Hattempts. by rewrite <- !app_assoc.
      * constructor; [by left|]. apply Forall_app. split; [done|].
        constructor; [by left|]. constructor; [|done]. right. by right.
  - apply createFolderAttempts_throw in Hrun as (-> & Hfs & Hrec). simpl in *.
    split_and!.
    + left. done.
    + done.
    + exists (EvLog "Creating a clean common/temp_modules folder" :: attempts).
      split.
      * rewrite Hattempts. by rewrite <- !app_assoc.
      * constructor; [by left|done].
Qed.

Lemma generator_failure_stops_populate_witness :
  let r := _createCommonTempModulesAndPackageJson demo_config failing_generator_env
             (world_of fresh_fs) in
  ((r.1 = Throw FilesystemError ∧ fs r.2 = fs (world_of fresh_fs)) ∨
   (r.1 = Throw ManifestError ∧
    fs r.2 = <[tempModulesFolder demo_config := Dir]> (fs (world_of fresh_fs)))) ∧
  recycled r.2 = recycled (world_of fresh_fs) ∧
  ∃ evs, trace r.2 = trace (world_of fresh_fs) ++ evs ∧
         Forall (before_populate demo_config) evs.
Proof.
  apply (generator_failure_stops_populate failing_generator_env demo_config
           (world_of fresh_fs) ManifestError).
  reflexivity.
Defined.

(* ===================================================================== *)
(** ** Deleting, then creating, the temp-modules folder *)
(* ===================================================================== *)

(** X7: on a well-formed disk, once [_deleteCommonTempModules] followed
    by [_createCommonTempModulesAndPackageJson] (lines 186 and 189) has
    returned, the temp-modules folder holds the folders and manifests of
    the configured projects and nothing else: whatever an earlier run or
    anything else had left there is gone. *)
Theorem rebuild_leaves_no_stale_entries (env : Env) (cfg : RushConfiguration)
    (w : World) :
  fs_wf (fs w) →
  ¬ tempModulesFolder cfg `prefix_of` commonPackageJsonFilename cfg →
  (rebuildTempModules cfg env w).1 = Ok tt →
  ∀ q, tempModulesFolder cfg `prefix_of` q →
       (is_Some (fs (rebuildTempModules cfg env w).2 !! q) ↔
        q = tempModulesFolder cfg ∨
        ∃ p, In p (projects cfg) ∧
             (q = tempProjectFolder cfg p ∨ q = tempPackageJsonFilename cfg p)).
Proof.
  intros Hwf Hroot. unfold rebuildTempModules. rewrite bind_run.
  pose proof (delete_if_exists_spec (tempModulesFolder cfg)
                "Deleting common/temp_modules folder" env w) as (_ & _ & Hpost).
  change ((found ← existsSync (tempModulesFolder cfg);
           if (found : bool)
           then console_log "Deleting common/temp_modules folder";;
                dangerouslyDeletePath (tempModulesFolder cfg)
           else mret tt) env w)
    with (_deleteCommonTempModules cfg env w) in Hpost.
  destruct (_deleteCommonTempModules cfg env w) as [[[]|e] w1]; [|done].
  destruct (Hpost eq_refl) as [_ Habs]. specialize (Habs Hwf). simpl in Habs.
  intros Hok q Hq.
  destruct (create_ok_disk cfg env w1 Hok)
    as (tm & f & Htm & -> & _ & Htemp & _ & Hmade & Hframe & _).
  rewrite lookup_insert_ne by (intros Heq; apply Hroot; by rewrite Heq).
  split.
  - intros Hsome.
    destruct (decide (q = tempModulesFolder cfg)) as [->|Hne]; [by left|]. right.
    destruct (decide (Exists (λ p, q = tempProjectFolder cfg p ∨
                                   q = tempPackageJsonFilename cfg p)
                        (projects cfg))) as [Hex|Hex].
    + apply Exists_exists in Hex as (p & Hp & Hpq). exists p. split; [|done].
      by apply list_elem_of_In.
    + exfalso. rewrite Hframe, Habs in Hsome; [by destruct Hsome|done|done|].
      intros p Hp. split; intros ->; apply Hex, Exists_exists; exists p;
        (split; [by apply list_elem_of_In|auto]).
  - intros [->|(p & Hp & [->| ->])].
    + by rewrite Htemp.
    + destruct (Hmade p Hp) as [-> _]. done.
    + destruct (Hmade p Hp) as [_ ->]. done.
Qed.

Lemma rebuild_leaves_no_stale_entries_witness :
  let stale := ["repo"; "common"; "temp_modules"; "rush-old"] in
  is_Some (fs (world_of demo_fs) !! stale) ∧
  (is_Some (fs (rebuildTempModules demo_config (demo_env demo_config)
                  (world_of demo_fs)).2 !! stale) ↔
   stale = tempModulesFolder demo_config ∨
   ∃ p, In p (projects demo_config) ∧
        (stale = tempProjectFolder demo_config p ∨
         stale = tempPackageJsonFilename demo_config p)).
Proof.
  split; [by eexists|].
  apply (rebuild_leaves_no_stale_entries (demo_env demo_config) demo_config
           (world_of demo_fs)).
  - exact demo_fs_wf.
  - exact demo_temp_not_above_manifest.
  - vm_compute. reflexivity.
  - by exists ["rush-old"].
Defined.

(* ===================================================================== *)
(** ** [_runNpmInstall] *)
(* ===================================================================== *)

Lemma npmInstallArgs_flags cfg :
  npmInstallArgs cfg
  = "install" :: folder_flag "--cache" (cacheFolder cfg)
                 ++ folder_flag "--tmp" (tmpFolder cfg).
Proof.
  unfold npmInstallArgs, push_if_set, folder_flag, truthy.
  destruct (cacheFolder cfg) as [c|], (tmpFolder cfg) as [t|]; simpl;
    repeat match goal with |- context [String.eqb ?s EmptyString] =>
             destruct (String.eqb s EmptyString) end;
    reflexivity.
Qed.

Lemma runNpmInstall_run cfg env w :
  _runNpmInstall cfg env w =
  let cmd := executeCommand env (npmToolFilename cfg) (npmInstallArgs cfg)
               (commonFolder cfg) (fs w) in
  let w2 := {| fs := cmd.2; recycled := recycled w;
               trace := trace w ++
                 [EvLog (os_EOL env +:+
                    colors_bold ("Running " +:+ dq +:+ "npm " +:+
                                 array_join " " (npmInstallArgs cfg) +:+ dq +:+ "..."));
                  EvExecuteCommand (npmToolFilename cfg) (npmInstallArgs cfg)
                    (commonFolder cfg)] |} in
  match cmd.1 with
  | Ok _ => (Ok tt, add_event (EvLog (dq +:+ "npm install" +:+ dq +:+ " completed"
                                       +:+ os_EOL env)) w2)
  | Throw e => (Throw e, w2)
  end.
Proof.
  unfold _runNpmInstall. fold (npmInstallArgs cfg).
  rewrite bind_run, ask_run. cbv beta iota.
  rewrite bind_run, console_log_run. cbv beta iota.
  rewrite bind_run, call_run. cbv zeta. simpl fs.
  destruct (executeCommand env _ _ _ (fs w)) as [[[]|e] f]; cbn [fst snd];
    cbv beta iota; [rewrite console_log_run|];
    unfold add_event, set_fs; simpl; by rewrite <- !app_assoc.
Qed.

(** X8: [_runNpmInstall] runs one command: the configured npm tool, in
    the common folder, with [install] followed by [--cache <folder>]
    and then [--tmp <folder>] for each of the two folders that is set
    and not the empty string.  The line logged before shows these
    arguments joined by spaces after the fixed word [npm].  The
    function returns or throws exactly as the command does, leaves the
    disk as the command left it, and logs the completion line only when
    the command returned. *)
Theorem runNpmInstall_command (env : Env) (cfg : RushConfiguration) (w : World) :
  let args := "install" :: folder_flag "--cache" (cacheFolder cfg)
                           ++ folder_flag "--tmp" (tmpFolder cfg) in
  let cmd := executeCommand env (npmToolFilename cfg) args (commonFolder cfg) (fs w) in
  let r := _runNpmInstall cfg env w in
  r.1 = cmd.1 ∧ fs r.2 = cmd.2 ∧ recycled r.2 = recycled w ∧
  trace r.2
  = trace w ++
    [EvLog (os_EOL env +:+
       colors_bold ("Running " +:+ dq +:+ "npm " +:+ array_join " " args
                    +:+ dq +:+ "..."));
     EvExecuteCommand (npmToolFilename cfg) args (commonFolder cfg)] ++
    (if is_ok cmd.1
     then [EvLog (dq +:+ "npm install" +:+ dq +:+ " completed" +:+ os_EOL env)]
     else []).
Proof.
  cbv zeta. rewrite runNpmInstall_run, <- npmInstallArgs_flags. cbv zeta.
  destruct (executeCommand env _ _ _ (fs w)) as [[[]|e] f]; cbn [fst snd is_ok].
  - split_and!; try done; simpl; by rewrite <- app_assoc.
  - split_and!; try done; simpl; by rewrite app_nil_r.
Qed.

(* ===================================================================== *)
(** ** Runs of [onExecute] that stop early *)
(* ===================================================================== *)

Section NeverReturns.
Context (env : Env).

Lemma never_returns_bind_l {A B} (m : M A) (f : A → M B) :
  never_returns env m → never_returns env (m ≫= f).
Proof.
  intros Hm w. rewrite bind_run. specialize (Hm w).
  by destruct (m env w) as [[a|e] w1].
Qed.

Lemma never_returns_bind_r {A B} (m : M A) (f : A → M B) :
  (∀ a, never_returns env (f a)) → never_returns env (m ≫= f).
Proof.
  intros Hf w. rewrite bind_run.
  destruct (m env w) as [[a|e] w1]; [apply Hf|done].
Qed.

Lemma never_returns_stage {A} (s : Stage) (m : M A) :
  never_returns env m → never_returns env (stage s m).
Proof.
  intros Hm w. rewrite stage_run. specialize (Hm (add_event (EvStageBegin s) w)).
  by destruct (m env _) as [[a|e] w1].
Qed.

(** What follows a computation that never returns does not matter. *)
Lemma always_bind_never {A B} (R : relation World) (m : M A) (f : A → M B) :
  always env R m → never_returns env m → always env R (m ≫= f).
Proof.
  intros Hm Hfail w. rewrite bind_run. specialize (Hm w). specialize (Hfail w).
  by destruct (m env w) as [[a|e] w1].
Qed.
End NeverReturns.

(** The first stage, case by case. *)
Lemma stage_load_run env w :
  stage StLoad loadAndSnapshot env w =
  match loadFromDefaultLocation env (fs w) with
  | Throw e =>
      (Throw e, {| fs := fs w; recycled := recycled w;
                   trace := trace w ++ [EvStageBegin StLoad; EvLoadFromDefaultLocation] |})
  | Ok cfg =>
      let started := [EvStageBegin StLoad; EvLoadFromDefaultLocation;
                      EvLog (starting_line env)] in
      if truthy (packageReviewFile cfg) then
        let checker := newPackageReviewChecker env cfg (fs w) in
        match checker.1 with
        | Throw e =>
            (Throw e, {| fs := checker.2; recycled := recycled w;
                         trace := trace w ++ started ++ [EvNewPackageReviewChecker] |})
        | Ok _ =>
            let snap := saveCurrentDependencies env cfg checker.2 in
            match snap.1 with
            | Throw e =>
                (Throw e, {| fs := snap.2; recycled := recycled w;
                             trace := trace w ++ snapshotEvents env |})
            | Ok _ =>
                (Ok cfg, {| fs := snap.2; recycled := recycled w;
                            trace := trace w ++ snapshotEvents env ++ [EvStageEnd StLoad] |})
            end
        end
      else
        (Ok cfg, {| fs := fs w; recycled := recycled w;
                    trace := trace w ++ started ++ [EvStageEnd StLoad] |})
  end.
Proof.
  rewrite stage_run. unfold loadAndSnapshot.
  rewrite bind_run, loadConfiguration_run. simpl fs.
  destruct (loadFromDefaultLocation env (fs w)) as [cfg|e]; cbv beta iota zeta.
  2: { unfold add_event. simpl. by rewrite <- app_assoc. }
  rewrite bind_run, ask_run. cbv beta iota.
  rewrite bind_run, console_log_run. cbv beta iota. rewrite bind_run.
  destruct (truthy (packageReviewFile cfg)).
  2: { rewrite ret_run. cbv beta iota. rewrite ret_run.
       unfold add_event, starting_line. simpl. by rewrite <- !app_assoc. }
  rewrite bind_run, call_run. simpl fs.
  destruct (newPackageReviewChecker env cfg (fs w)) as [[[]|e] f1]; cbn [fst snd];
    cbv beta iota.
  2: { unfold add_event, set_fs, starting_line. simpl. by rewrite <- !app_assoc. }
  rewrite call_run. simpl fs.
  destruct (saveCurrentDependencies env cfg f1) as [[[]|e] f2]; cbn [fst snd];
    cbv beta iota; [rewrite ret_run|];
    unfold add_event, set_fs, snapshotEvents; simpl; by rewrite <- !app_assoc.
Qed.

(** X9: when the configuration cannot be loaded, [onExecute] throws the
    loader's error at once: nothing is printed (the first console line
    comes after the load), no other call is made, and the disk and the
    recycler are as they were. *)
Theorem load_failure_stops_at_once (env : Env) (lazyParameter : bool)
    (w : World) (e : Error) :
  loadFromDefaultLocation env (fs w) = Throw e →
  onExecute lazyParameter env w
  = (Throw e, {| fs := fs w; recycled := recycled w;
                 trace := trace w ++ [EvStageBegin StLoad; EvLoadFromDefaultLocation] |}).
Proof.
  intros Hload. rewrite onExecute_afterLoad, bind_run, stage_load_run.
  by rewrite Hload.
Qed.

Lemma load_failure_stops_at_once_witness :
  onExecute false missing_config_env (world_of demo_fs)
  = (Throw ConfigurationError,
     {| fs := fs (world_of demo_fs); recycled := recycled (world_of demo_fs);
        trace := trace (world_of demo_fs)
                 ++ [EvStageBegin StLoad; EvLoadFromDefaultLocation] |}).
Proof.
  apply (load_failure_stops_at_once missing_config_env false (world_of demo_fs)
           ConfigurationError).
  reflexivity.
Defined.

Lemma afterLoad_never_returns env cfg lazyParameter :
  never_returns env (installAndFreeze cfg lazyParameter) →
  never_returns env (afterLoad cfg lazyParameter).
Proof.
  intros Hinstall. unfold afterLoad, fromCreate.
  do 4 (apply never_returns_bind_r; intros _).
  by apply never_returns_bind_l, never_returns_stage.
Qed.

Lemma runNpmInstall_never_returns env cfg :
  (∀ f, is_ok (executeCommand env (npmToolFilename cfg) (npmInstallArgs cfg)
                 (commonFolder cfg) f).1 = false) →
  never_returns env (_runNpmInstall cfg).
Proof.
  intros Hfail w. rewrite runNpmInstall_run. cbv zeta. specialize (Hfail (fs w)).
  by destruct (executeCommand env _ _ _ (fs w)) as [[[]|e] f].
Qed.

(** X10: when [npm install] fails, [onExecute] does not return and
    [npm shrinkwrap] is not run, in full mode as in lazy mode: no lock
    file is made from a failed install. *)
Theorem install_failure_stops_the_run (env : Env) (lazyParameter : bool)
    (w : World) (cfg : RushConfiguration) :
  loadFromDefaultLocation env (fs w) = Ok cfg →
  (∀ f, is_ok (executeCommand env (npmToolFilename cfg) (npmInstallArgs cfg)
                 (commonFolder cfg) f).1 = false) →
  is_ok (onExecute lazyParameter env w).1 = false ∧
  ∃ evs, trace (onExecute lazyParameter env w).2 = trace w ++ evs ∧
         Forall (λ e, invokes_shrinkwrap e = false) evs.
Proof.
  intros Hload Hfail.
  set (P := λ e, invokes_shrinkwrap e = false).
  pose proof (runNpmInstall_never_returns env cfg Hfail) as Hnever.
  assert (never_returns env (installAndFreeze cfg lazyParameter)) as Hstop.
  { unfold installAndFreeze. do 2 (apply never_returns_bind_r; intros _).
    by apply never_returns_bind_l. }
  assert (always env (emitting P) (installAndFreeze cfg lazyParameter)) as Hquiet.
  { unfold installAndFreeze.
    apply always_bind; [apply _|by apply emitting_console_log|intros _].
    apply always_bind; [apply _|by apply emitting_call|intros _].
    apply always_bind_never; [|done].
    unfold _runNpmInstall. emitting_steps; try done.
    unfold P. simpl. apply bool_decide_eq_false, npmInstallArgs_not_shrinkwrap. }
  rewrite onExecute_afterLoad, bind_run.
  destruct (emitting_stage env P StLoad loadAndSnapshot eq_refl eq_refl) with (w := w)
    as (evs1 & Hevs1 & Hall1).
  { eapply always_emitting_weaken; [|apply emits_loadAndSnapshot]. by intros []. }
  destruct (stage StLoad loadAndSnapshot env w) as [[cfg1|e] w1] eqn:H1.
  - apply stage_load_config in H1. rewrite Hload in H1. injection H1 as <-.
    split; [by apply afterLoad_never_returns|].
    destruct (emits_afterLoad_always env P cfg lazyParameter) with (w := w1)
      as (evs2 & Hevs2 & Hall2); [done|done|done|by intros [] []|done|].
    exists (evs1 ++ evs2). split.
    + rewrite Hevs2. simpl in Hevs1. by rewrite Hevs1, <- app_assoc.
    + by apply Forall_app.
  - split; [done|]. by exists evs1.
Qed.

Lemma install_failure_stops_the_run_witness :
  is_ok (onExecute false failing_install_env (world_of demo_fs)).1 = false ∧
  ∃ evs, trace (onExecute false failing_install_env (world_of demo_fs)).2
         = trace (world_of demo_fs) ++ evs ∧
         Forall (λ e, invokes_shrinkwrap e = false) evs.
Proof.
  apply (install_failure_stops_the_run failing_install_env false
           (world_of demo_fs) demo_config).
  - reflexivity.
  - intros f. reflexivity.
Defined.

(* ===================================================================== *)
(** ** The review step *)
(* ===================================================================== *)

Lemma filter_none {A} (p : A → bool) (l : list A) :
  Forall (λ x, p x = false) l → List.filter p l = [].
Proof.
  induction 1 as [|x l Hx _ IH]; simpl; [done|]. by rewrite Hx.
Qed.

(** X11: the calls [onExecute] makes to the review checker are decided
    by the configuration alone: none when no review file is set (or it
    is set to the empty string, or no configuration could be loaded);
    otherwise the checker is built once, and [saveCurrentDependencies]
    is called once, right after, when the construction returned and
    not at all when it threw. *)
Theorem review_calls_of_a_run (env : Env) (lazyParameter : bool) (w : World) :
  ∃ evs,
    trace (onExecute lazyParameter env w).2 = trace w ++ evs ∧
    List.filter is_review_call evs = review_calls env w.
Proof.
  assert (∀ cfg w1, ∃ evs,
            trace (afterLoad cfg lazyParameter env w1).2 = trace w1 ++ evs ∧
            List.filter is_review_call evs = []) as Hrest.
  { intros cfg w1.
    destruct (emits_afterLoad_always env (λ e, is_review_call e = false)
                cfg lazyParameter) with (w := w1)
      as (evs & Hevs & Hall); [done|done|done|by intros [] []| |].
    { eapply always_emitting_weaken; [|apply emits_installAndFreeze]. by intros []. }
    exists evs. split; [done|]. by apply filter_none. }
  rewrite onExecute_afterLoad, bind_run, stage_load_run. unfold review_calls.
  destruct (loadFromDefaultLocation env (fs w)) as [cfg|e]; cbv zeta.
  2: { by eexists. }
  destruct (truthy (packageReviewFile cfg)).
  - destruct (newPackageReviewChecker env cfg (fs w)) as [[[]|e] f1];
      cbn [fst snd is_ok].
    2: { by eexists. }
    destruct (saveCurrentDependencies env cfg f1) as [[[]|e] f2]; cbn [fst snd].
    2: { by eexists. }
    match goal with |- context [afterLoad cfg lazyParameter env ?w1] =>
      destruct (Hrest cfg w1) as (evs & Hevs & Hnone) end.
    exists (snapshotEvents env ++ [EvStageEnd StLoad] ++ evs). split.
    + rewrite Hevs. simpl. by rewrite <- !app_assoc.
    + rewrite !List.filter_app, Hnone. reflexivity.
  - match goal with |- context [afterLoad cfg lazyParameter env ?w1] =>
      destruct (Hrest cfg w1) as (evs & Hevs & Hnone) end.
    exists ([EvStageBegin StLoad; EvLoadFromDefaultLocation;
             EvLog (starting_line env)] ++ [EvStageEnd StLoad] ++ evs). split.
    + rewrite Hevs. simpl. by rewrite <- !app_assoc.
    + rewrite !List.filter_app, Hnone. reflexivity.
Qed.

Example empty_review_file_is_unset :
  let env := demo_env empty_review_config in
  review_calls env (world_of demo_fs) = [] ∧
  List.filter is_review_call (trace (onExecute false env (world_of demo_fs)).2) = [] ∧
  (onExecute false env (world_of demo_fs)).1 = Ok tt.
Proof. vm_compute. repeat split. Qed.

(* ===================================================================== *)
(** ** Where the calls of a run point *)
(* ===================================================================== *)

Lemma always_for_of_acc_elem {A S} env (R : relation World) `{!PreOrder R}
    (l : list A) (body : S → A → M S) (s : S) :
  (∀ s x, In x l → always env R (body s x)) → always env R (for_of_acc l body s).
Proof.
  revert s. induction l as [|x l IH]; intros s Hbody; simpl.
  - by apply always_ret.
  - apply always_bind; [done|apply Hbody; by left|intros s'].
    apply IH. intros s0 y Hy. apply Hbody. by right.
Qed.

Section Confined.
Context (env : Env) (cfg : RushConfiguration) (lazyParameter : bool).

Let P := confined cfg lazyParameter.

Lemma confined_deleteCommonNodeModules :
  always env (emitting P) (_deleteCommonNodeModules cfg lazyParameter).
Proof.
  unfold P, _deleteCommonNodeModules. fold (nodeModulesPath cfg).
  destruct lazyParameter.
  - intros w. rewrite bind_run, console_log_run. cbv beta iota.
    rewrite bind_run, glob_sync_run. cbv beta iota.
    unfold globEscape, getAllReplaced.
    match goal with |- context [for_of ?l ?body env ?w0] =>
      trans w0; [|apply (always_for_of_elem env _ l body)] end.
    + exists [EvLog "Deleting common/node_modules/rush-*";
              EvGlobSync (nodeModulesPath cfg) "rush-*"].
      split; [simpl; by rewrite <- app_assoc|]. by repeat constructor.
    + intros x Hx. apply list_elem_of_fmap in Hx as (n & -> & Hn).
      rewrite (array_sort_perm _ _) in Hn.
      apply elem_of_glob_names in Hn as [_ Hn]. rewrite wildcard_match_rush in Hn.
      unfold recycleDirectory. emitting_steps. simpl. eauto.
  - unfold existsSync, recycleDirectory. emitting_steps; simpl; auto.
Qed.

Lemma confined_deleteShrinkwrapFile :
  always env (emitting P) (_deleteShrinkwrapFile cfg).
Proof.
  unfold P, _deleteShrinkwrapFile, existsSync, dangerouslyDeletePath.
  fold (shrinkwrapFilename cfg). emitting_steps; simpl; auto.
Qed.

Lemma confined_deleteCommonTempModules :
  always env (emitting P) (_deleteCommonTempModules cfg).
Proof.
  unfold P, _deleteCommonTempModules, existsSync, dangerouslyDeletePath.
  emitting_steps; simpl; auto.
Qed.

Lemma confined_createCommonTempModulesAndPackageJson :
  always env (emitting P) (_createCommonTempModulesAndPackageJson cfg).
Proof.
  unfold P, _createCommonTempModulesAndPackageJson.
  apply always_bind; [apply _|by apply emitting_console_log|intros _].
  apply always_bind; [apply _| |intros _].
  { unfold createFolderWithRetry.
    apply always_bind; [apply _|apply always_ask, _|intros env'].
    apply emitting_createFolderAttempts. by left. }
  apply always_bind; [apply _|by apply emitting_console_log|intros _].
  apply always_bind; [apply _|apply always_ask, _|intros env'].
  apply always_bind; [apply _| |intros tm].
  { unfold tempModulesOf. emitting_steps; done. }
  apply always_bind; [apply _| |intros pj].
  { apply always_for_of_acc_elem; [apply _|]. intros pj p Hp.
    apply (Permutation_in _ (sortedRushProjects_perm _ _)) in Hp.
    unfold createTempProject, mkdirSync, saveJsonFile.
    fold (tempProjectFolder cfg p). fold (tempPackageJsonFilename cfg p).
    emitting_steps; simpl; eauto. }
  unfold saveJsonFile. fold (commonPackageJsonFilename cfg).
  emitting_steps; simpl; auto.
Qed.

Lemma confined_installAndFreeze :
  always env (emitting P) (installAndFreeze cfg lazyParameter).
Proof.
  unfold P, installAndFreeze, _runNpmInstall, _runNpmShrinkWrap.
  emitting_steps; simpl; auto.
Qed.

Lemma confined_afterLoad : always env (emitting P) (afterLoad cfg lazyParameter).
Proof.
  unfold afterLoad, fromCreate.
  apply always_bind; [apply _| |intros _].
  { apply emitting_stage; [done|done|apply confined_deleteCommonNodeModules]. }
  apply always_bind; [apply _| |intros _].
  { apply emitting_stage; [done|done|apply confined_deleteShrinkwrapFile]. }
  apply always_bind; [apply _| |intros _].
  { apply emitting_stage; [done|done|apply confined_deleteCommonTempModules]. }
  apply always_bind; [apply _| |intros _].
  { apply emitting_stage;
      [done|done|apply confined_createCommonTempModulesAndPackageJson]. }
  apply always_bind; [apply _| |intros _].
  { apply emitting_stage; [done|done|apply confined_installAndFreeze]. }
  by apply emitting_finish.
Qed.
End Confined.



(* ===================================================================== *)
(** ** Runs of [onExecute] that return *)
(* ===================================================================== *)

Section Returns.
Context (env : Env).

Lemma returns_bind {A B : Type} (pre : FS → Prop) (mid : A → FS → Prop)
    (post : B → FS → Prop) (m : M A) (f : A → M B) :
  returns env pre m mid → (∀ a, returns env (mid a) (f a) post) →
  returns env pre (m ≫= f) post.
Proof.
  intros Hm Hf w Hpre. destruct (Hm w Hpre) as (a & w1 & Hrun & Hmid).
  destruct (Hf a w1 Hmid) as (b & w2 & Hrun2 & Hpost).
  exists b, w2. split; [|done]. by rewrite bind_run, Hrun.
Qed.

Lemma returns_stage {A : Type} (pre : FS → Prop) (post : A → FS → Prop)
    (s : Stage) (m : M A) :
  returns env pre m post → returns env pre (stage s m) post.
Proof.
  intros Hm w Hpre.
  destruct (Hm (add_event (EvStageBegin s) w) Hpre) as (a & w1 & Hrun & Hpost).
  exists a, (add_event (EvStageEnd s) w1). split; [|done].
  by rewrite stage_run, Hrun.
Qed.

Lemma returns_weaken {A : Type} (pre pre' : FS → Prop) (post post' : A → FS → Prop) (m : M A) :
  (∀ f, pre' f → pre f) → (∀ a f, post a f → post' a f) →
  returns env pre m post → returns env pre' m post'.
Proof.
  intros Hpre Hpost Hm w Hw. destruct (Hm w (Hpre _ Hw)) as (a & w' & Hrun & Ha).
  exists a, w'. split; [done|]. by apply Hpost.
Qed.
End Returns.

(** Removing what [gone] selects keeps a disk healthy, when [gone] goes
    down with the tree and spares the common folder. *)
Lemma healthy_removed (cfg : RushConfiguration) (gone : list string → bool)
    (f f' : FS) :
  healthy cfg f →
  (∀ q, f' !! q = if gone q then None else f !! q) →
  (∀ q n, gone q = true → gone (q ++ [n]) = true) →
  gone (commonFolder cfg) = false →
  healthy cfg f'.
Proof.
  intros (Hwf & Hcommon & Hfile) Hf' Hdown Hspared. split_and!.
  - intros q n Hsome. rewrite Hf' in Hsome. rewrite Hf'.
    destruct (gone (q ++ [n])) eqn:Hgone; [by destruct Hsome|].
    destruct (gone q) eqn:Hq; [|by apply (Hwf q n)].
    apply (Hdown q n) in Hq. congruence.
  - by rewrite Hf', Hspared.
  - rewrite Hf'. by destruct (gone (commonPackageJsonFilename cfg)).
Qed.

Lemma at_or_below_down p q n :
  at_or_below p q = true → at_or_below p (q ++ [n]) = true.
Proof.
  rewrite !at_or_below_spec. intros Hpre. etrans; [exact Hpre|]. by exists [n].
Qed.

Lemma temp_entry_below_down dir q n :
  temp_entry_below dir q = true → temp_entry_below dir (q ++ [n]) = true.
Proof.
  rewrite !temp_entry_below_spec. intros (m & rest & -> & Hm).
  exists m, (rest ++ [n]). split; [|done]. by rewrite <- app_assoc.
Qed.

Lemma at_or_below_entry_spares p s : at_or_below (path_join p s) p = false.
Proof.
  destruct (at_or_below (path_join p s) p) eqn:Hb; [|done].
  apply at_or_below_spec in Hb. exfalso. revert Hb. apply not_prefix_longer.
  unfold path_join. rewrite length_app. simpl. lia.
Qed.

Lemma lookup_remove_tree p f q :
  remove_tree p f !! q = if at_or_below p q then None else f !! q.
Proof.
  destruct (at_or_below p q) eqn:Hb.
  - apply lookup_remove_tree_below. by apply at_or_below_spec.
  - apply lookup_remove_tree_other. rewrite <- at_or_below_spec. congruence.
Qed.

Section HealthyRun.
Context (env : Env) (cfg : RushConfiguration) (lazyParameter : bool).
Hypothesis Hfault : no_fault env.

Lemma returns_deleteCommonNodeModules :
  returns env (healthy cfg) (_deleteCommonNodeModules cfg lazyParameter)
    (λ _, healthy cfg).
Proof.
  intros w Hw. destruct Hw as (Hwf & Hrest).
  destruct (_deleteCommonNodeModules cfg lazyParameter env w) as [r w'] eqn:Hrun.
  destruct lazyParameter.
  - destruct (deleteCommonNodeModules_lazy env cfg Hfault w Hwf) as [Hok Hfs].
    rewrite Hrun in Hok, Hfs. simpl in Hok, Hfs. subst r. exists tt, w'.
    split; [done|].
    apply (healthy_removed cfg (temp_entry_below (nodeModulesPath cfg)) (fs w));
      [done|done|apply temp_entry_below_down|].
    destruct (temp_entry_below _ _) eqn:Hb; [|done].
    apply temp_entry_below_spec in Hb as (n & rest & Heq & _).
    apply (f_equal length) in Heq. unfold nodeModulesPath, path_join in Heq.
    rewrite !length_app in Heq. simpl in Heq. lia.
  - destruct (deleteCommonNodeModules_full env cfg Hfault w Hwf) as [Hok Hfs].
    rewrite Hrun in Hok, Hfs. simpl in Hok, Hfs. subst r. exists tt, w'.
    split; [done|].
    apply (healthy_removed cfg (at_or_below (nodeModulesPath cfg)) (fs w));
      [done|done|apply at_or_below_down|apply at_or_below_entry_spares].
Qed.

(** Lines 53-56 and 62-65 on a healthy disk, for a target below the
    common folder. *)
Lemma returns_delete_if_exists (s msg : string) :
  let p := path_join (commonFolder cfg) s in
  returns env (healthy cfg)
    (found ← existsSync p;
     if (found : bool) then console_log msg;; dangerouslyDeletePath p
     else mret tt)
    (λ _ f, healthy cfg f ∧ absent p f).
Proof.
  intros p w Hw. rewrite delete_if_exists_run. unfold exists_at.
  destruct (fs w !! p) as [x|] eqn:Hp; cbv zeta.
  - rewrite Hfault. eexists _, _. split; [done|]. simpl. split.
    + apply (healthy_removed cfg (at_or_below p) (fs w));
        [done|apply lookup_remove_tree|apply at_or_below_down
        |apply at_or_below_entry_spares].
    + intros q Hq. by apply lookup_remove_tree_below.
  - eexists _, _. split; [done|]. simpl. split; [done|].
    destruct Hw as [Hwf _]. by apply fs_wf_absent.
Qed.

Lemma returns_deleteShrinkwrapFile :
  returns env (healthy cfg) (_deleteShrinkwrapFile cfg) (λ _, healthy cfg).
Proof.
  eapply returns_weaken;
    [|
     |exact (returns_delete_if_exists "npm-shrinkwrap.json"
               "Deleting common/npm-shrinkwrap.json")].
  - done.
  - by intros _ f [Hf _].
Qed.

Hypothesis Hlayout : tempModulesFolder cfg = path_join (commonFolder cfg) "temp_modules".

Lemma returns_deleteCommonTempModules :
  returns env (healthy cfg) (_deleteCommonTempModules cfg)
    (λ _, fresh_layout cfg).
Proof.
  unfold _deleteCommonTempModules. rewrite Hlayout.
  eapply returns_weaken;
    [|
     |exact (returns_delete_if_exists "temp_modules"
               "Deleting common/temp_modules folder")].
  - done.
  - intros _ f [(Hwf & Hcommon & Hfile) Habs]. split_and!; try done.
    by rewrite Hlayout.
Qed.

Hypothesis Hattempts : 0 < maxAttempts env.
Hypothesis Hnames : NoDup (map tempProjectName (projects cfg)).
Hypothesis Hgenerator : is_ok (newTempModuleGenerator env cfg) = true.

Lemma returns_createCommonTempModulesAndPackageJson :
  returns env (fresh_layout cfg) (_createCommonTempModulesAndPackageJson cfg)
    (λ _ _, True).
Proof.
  intros w Hw.
  destruct (newTempModuleGenerator env cfg) as [tm|e] eqn:Htm; [|done].
  pose proof (create_succeeds env cfg tm Hfault w Hattempts Htm Hnames Hw) as Hok.
  destruct (_createCommonTempModulesAndPackageJson cfg env w) as [r w'].
  simpl in Hok. subst r. by exists tt, w'.
Qed.

Hypothesis Hensure : ∀ f, is_ok (ensureLocalNpmTool env cfg false f).1 = true.
Hypothesis Hinstall : ∀ f,
  is_ok (executeCommand env (npmToolFilename cfg) (npmInstallArgs cfg)
           (commonFolder cfg) f).1 = true.
Hypothesis Hfreeze : lazyParameter = false → ∀ f,
  is_ok (executeCommand env (npmToolFilename cfg) ["shrinkwrap"]
           (commonFolder cfg) f).1 = true.

Lemma returns_installAndFreeze :
  returns env (λ _, True) (installAndFreeze cfg lazyParameter) (λ _ _, True).
Proof.
  intros w _. unfold installAndFreeze.
  rewrite bind_run, console_log_run. cbv beta iota.
  rewrite bind_run, call_run. simpl fs.
  pose proof (Hensure (fs w)) as Htool.
  destruct (ensureLocalNpmTool env cfg false (fs w)) as [[[]|e] f1]; [|done].
  cbn [fst snd]. cbv beta iota.
  rewrite bind_run, runNpmInstall_run. cbv zeta. simpl fs.
  pose proof (Hinstall f1) as Hran.
  destruct (executeCommand env _ (npmInstallArgs cfg) _ f1) as [[[]|e] f2]; [|done].
  cbn [fst snd]. cbv beta iota.
  unfold _runNpmShrinkWrap. rewrite bind_run, ask_run. cbv beta iota.
  destruct lazyParameter.
  - rewrite console_log_run. by eexists _, _.
  - rewrite bind_run, console_log_run. cbv beta iota.
    rewrite bind_run, call_run. simpl fs.
    pose proof (Hfreeze eq_refl f2) as Hfroze.
    destruct (executeCommand env _ ["shrinkwrap"] _ f2) as [[[]|e] f3]; [|done].
    cbn [fst snd]. cbv beta iota. rewrite console_log_run. by eexists _, _.
Qed.

Lemma returns_afterLoad :
  returns env (healthy cfg) (afterLoad cfg lazyParameter) (λ _ _, True).
Proof.
  unfold afterLoad, fromCreate.
  eapply returns_bind; [apply returns_stage, returns_deleteCommonNodeModules|].
  intros []. eapply returns_bind; [apply returns_stage, returns_deleteShrinkwrapFile|].
  intros []. eapply returns_bind; [apply returns_stage, returns_deleteCommonTempModules|].
  intros []. eapply returns_bind;
    [apply returns_stage, returns_createCommonTempModulesAndPackageJson|].
  intros []. eapply returns_bind; [apply returns_stage, returns_installAndFreeze|].
  intros [] w _. by eexists _, _.
Qed.

Hypothesis Hreview :
  truthy (packageReviewFile cfg) = true →
  keeps_healthy cfg (newPackageReviewChecker env cfg) ∧
  keeps_healthy cfg (saveCurrentDependencies env cfg).

Lemma returns_stage_load :
  returns env (λ f, loadFromDefaultLocation env f = Ok cfg ∧ healthy cfg f)
    (stage StLoad loadAndSnapshot) (λ c f, c = cfg ∧ healthy cfg f).
Proof.
  intros w [Hload Hw]. rewrite stage_load_run, Hload. cbv zeta.
  destruct (truthy (packageReviewFile cfg)) eqn:Htruthy.
  - destruct (Hreview eq_refl) as [Hnew Hsnap].
    destruct (Hnew (fs w) Hw) as [Hok1 Hw1].
    destruct (newPackageReviewChecker env cfg (fs w)) as [[[]|e] f1]; [|done].
    cbn [fst snd] in *.
    destruct (Hsnap f1 Hw1) as [Hok2 Hw2].
    destruct (saveCurrentDependencies env cfg f1) as [[[]|e] f2]; [|done].
    cbn [fst snd] in *. by eexists _, _.
  - by eexists _, _.
Qed.
End HealthyRun.


Lemma demo_exec_returns tool args cwd f : is_ok (demo_exec tool args cwd f).1 = true.
Proof. unfold demo_exec. by destruct (bool_decide _). Qed.


(* ===================================================================== *)
(** ** The closing lines *)
(* ===================================================================== *)

Lemma count_char_append c a b :
  count_char c (a +:+ b) = count_char c a + count_char c b.
Proof. induction a as [|d a IH]; simpl; [done|]. rewrite IH. lia. Qed.

Lemma append_inv_head (a x y : string) : a +:+ x = a +:+ y → x = y.
Proof. induction a as [|d a IH]; simpl; [done|]. intros [= H]. by apply IH. Qed.

(** The success line holds two escape characters more than the line
    separator and the stopwatch reading bring along. *)
Lemma success_line_escapes env :
  count_char (ascii_of_nat 27) (success_line env)
  = count_char (ascii_of_nat 27) (os_EOL env) + 2
    + count_char (ascii_of_nat 27) (stopwatch_toString env).
Proof.
  unfold success_line, colors_green, esc. rewrite !count_char_append. simpl. lia.
Qed.

Lemma always_ask_bind {A} env (R : relation World) (f : Env → M A) :
  always env R (f env) → always env R (ask ≫= f).
Proof. intros Hf w. rewrite bind_run, ask_run. apply Hf. Qed.

Lemma closes_bind {A B} env (P : Event → Prop) closing (m : M A) (f : A → M B) :
  always env (emitting P) m → (∀ a, closes env P closing (f a)) →
  closes env P closing (m ≫= f).
Proof.
  intros Hm Hf w. rewrite bind_run. destruct (Hm w) as (evs1 & Hevs1 & Hall1).
  destruct (m env w) as [[a|e] w1]; simpl in *.
  - destruct (Hf a w1) as (evs2 & Hevs2 & Hall2).
    exists (evs1 ++ evs2). split; [|by apply Forall_app].
    by rewrite Hevs2, Hevs1, <- !app_assoc.
  - exists evs1. by rewrite app_nil_r.
Qed.

(** A console line other than the success line: it begins like it and
    goes on differently, or it holds fewer escape characters. *)
Ltac not_success_line :=
  let H := fresh "H" in
  intros [= H];
  first
    [ unfold success_line, skip_notice in H; apply append_inv_head in H;
      discriminate H
    | apply (f_equal (count_char (ascii_of_nat 27))) in H;
      rewrite success_line_escapes in H; rewrite ?count_char_append in H;
      simpl in H; lia ].

(** As [emitting_steps], with the environment that [ask] returns. *)
Ltac emitting_steps_env :=
  repeat first
    [ match goal with |- always _ _ (ask ≫= _) => apply always_ask_bind end
    | apply always_bind; [apply _| |intros ?]
    | apply always_ret; apply _
    | apply always_throw; apply _
    | apply always_get_fs; apply _
    | apply emitting_put_fs
    | apply emitting_move_aside
    | apply emitting_console_log
    | apply emitting_emit
    | apply emitting_fs_call
    | apply emitting_call
    | apply always_for_of; [apply _|intros ?]
    | apply always_for_of_acc; [apply _|intros ? ?]
    | apply always_try_catch; [apply _| |intros ?]
    | match goal with
      | |- always _ _ (if ?b then _ else _) => destruct b
      | |- always _ _ (match ?r with Ok _ => _ | Throw _ => _ end) => destruct r
      end ].

Section ClosingLines.
Context (env : Env).

Let P (e : Event) : Prop := e ≠ EvLog (success_line env).

Lemma plain_loadAndSnapshot : always env (emitting P) loadAndSnapshot.
Proof.
  unfold P, loadAndSnapshot, loadConfiguration.
  emitting_steps_env; first [done|not_success_line].
Qed.

Lemma plain_deleteCommonNodeModules cfg isLazy :
  always env (emitting P) (_deleteCommonNodeModules cfg isLazy).
Proof.
  unfold P, _deleteCommonNodeModules, glob_sync, existsSync, recycleDirectory.
  emitting_steps_env; first [done|not_success_line].
Qed.

Lemma plain_deleteShrinkwrapFile cfg :
  always env (emitting P) (_deleteShrinkwrapFile cfg).
Proof.
  unfold P, _deleteShrinkwrapFile, existsSync, dangerouslyDeletePath.
  emitting_steps_env; first [done|not_success_line].
Qed.

Lemma plain_deleteCommonTempModules cfg :
  always env (emitting P) (_deleteCommonTempModules cfg).
Proof.
  unfold P, _deleteCommonTempModules, existsSync, dangerouslyDeletePath.
  emitting_steps_env; first [done|not_success_line].
Qed.

Lemma plain_createCommonTempModulesAndPackageJson cfg :
  always env (emitting P) (_createCommonTempModulesAndPackageJson cfg).
Proof.
  unfold P, _createCommonTempModulesAndPackageJson, createFolderWithRetry,
    tempModulesOf, createTempProject, mkdirSync, saveJsonFile.
  emitting_steps_env; try first [done|not_success_line].
  by apply emitting_createFolderAttempts.
Qed.

Lemma plain_installAndFreeze cfg isLazy :
  always env (emitting P) (installAndFreeze cfg isLazy).
Proof.
  unfold P, installAndFreeze, _runNpmInstall, _runNpmShrinkWrap.
  emitting_steps_env; first [done|not_success_line].
Qed.

Lemma plain_stage {A} (s : Stage) (m : M A) :
  always env (emitting P) m → always env (emitting P) (stage s m).
Proof. by apply emitting_stage. Qed.
End ClosingLines.


(* ===================================================================== *)
(** ** The keys of the root manifest *)
(* ===================================================================== *)

Section ObjectKeys.
Implicit Types (o : JsObject) (k v : string).

Lemma keys_obj_get o k : In k (map fst o) ↔ is_Some (obj_get o k).
Proof.
  induction o as [|[k0 v0] o IH]; simpl.
  - split; [done|by intros [x Hx]].
  - destruct (String.eqb_spec k0 k) as [->|Hne].
    + split; [eauto|by left].
    + rewrite <- IH. split; [by intros [?|?]|by right].
Qed.

Lemma obj_get_set_is_Some o k v k' :
  is_Some (obj_get (obj_set o k v) k') ↔ k = k' ∨ is_Some (obj_get o k').
Proof.
  destruct (string_dec k k') as [->|Hne].
  - rewrite obj_get_set_eq. split; [by left|eauto].
  - rewrite obj_get_set_ne by done. split; [by right|by intros [?|?]].
Qed.

Lemma assign_all_keys ws o k :
  In k (map fst (assign_all ws o)) ↔ In k (map fst ws) ∨ In k (map fst o).
Proof.
  revert o. induction ws as [|[k0 v0] ws IH]; intros o.
  - simpl. split; [by right|by intros [[]|?]].
  - change (assign_all ((k0, v0) :: ws) o) with (assign_all ws (obj_set o k0 v0)).
    rewrite IH, (keys_obj_get (obj_set o k0 v0)), obj_get_set_is_Some,
      <- keys_obj_get.
    simpl. tauto.
Qed.

Lemma obj_replace_keys o k v : map fst (obj_replace o k v) = map fst o.
Proof.
  induction o as [|[k0 v0] o IH]; simpl; [done|].
  destruct (String.eqb k0 k); simpl; [done|by rewrite IH].
Qed.

Lemma obj_insert_index_keys o n k v :
  Permutation (map fst (obj_insert_index o n k v)) (k :: map fst o).
Proof.
  induction o as [|[k0 v0] o IH]; simpl; [done|].
  destruct (array_index k0) as [n'|]; [destruct (n <? n')%N|]; simpl; try done.
  rewrite IH. apply perm_swap.
Qed.

(** An assignment keeps every key once. *)
Lemma obj_set_NoDup o k v : NoDup (map fst o) → NoDup (map fst (obj_set o k v)).
Proof.
  intros Hnodup. unfold obj_set, obj_has.
  destruct (obj_get o k) as [x|] eqn:Hget.
  - by rewrite obj_replace_keys.
  - assert (k ∉ map fst o) as Hfresh.
    { intros Hin. apply list_elem_of_In, keys_obj_get in Hin.
      rewrite Hget in Hin. by destruct Hin. }
    destruct (array_index k).
    + rewrite obj_insert_index_keys. by apply NoDup_cons.
    + rewrite map_app. simpl. rewrite <- Permutation_cons_append.
      by apply NoDup_cons.
Qed.

Lemma assign_all_NoDup ws o :
  NoDup (map fst o) → NoDup (map fst (assign_all ws o)).
Proof.
  revert o. induction ws as [|[k0 v0] ws IH]; intros o Hnodup; [done|].
  change (assign_all ((k0, v0) :: ws) o) with (assign_all ws (obj_set o k0 v0)).
  by apply IH, obj_set_NoDup.
Qed.
End ObjectKeys.

Lemma metadata_foldl {A} (key value : A → string) (l : list A) pj :
  metadata (foldl (λ acc x, set_dependency acc (key x) (value x)) pj l)
  = metadata pj.
Proof.
  revert pj. induction l as [|x l IH]; intros pj; simpl; [done|]. by rewrite IH.
Qed.


(* ===================================================================== *)
(** ** After the last command *)
(* ===================================================================== *)

Lemma installAndFreeze_ok_disk cfg lazyParameter env w u w' :
  installAndFreeze cfg lazyParameter env w = (Ok u, w') →
  ∃ f, let cmd := executeCommand env (npmToolFilename cfg)
                    (lastCommandArgs cfg lazyParameter) (commonFolder cfg) f in
       is_ok cmd.1 = true ∧ fs w' = cmd.2.
Proof.
  unfold installAndFreeze, lastCommandArgs. intros H.
  bind_inv H as H1. injection H1 as _ <-.
  bind_inv H as H1. rewrite call_run in H1. injection H1 as _ <-.
  bind_inv H as H1. rewrite runNpmInstall_run in H1. cbv zeta in H1. simpl fs in H1.
  destruct (executeCommand env _ (npmInstallArgs cfg) _ _) as [[[]|e] f2] eqn:Hinstall;
    [|done].
  injection H1 as _ <-.
  unfold _runNpmShrinkWrap in H. rewrite bind_run, ask_run in H. cbv beta iota in H.
  destruct lazyParameter.
  - rewrite console_log_run in H. injection H as _ <-.
    eexists. cbv zeta. rewrite Hinstall. done.
  - bind_inv H as H1. injection H1 as _ <-.
    bind_inv H as H1. rewrite call_run in H1. simpl fs in H1.
    destruct (executeCommand env _ ["shrinkwrap"] _ f2) as [[[]|e] f3] eqn:Hfreeze;
      [|done].
    injection H1 as _ <-. rewrite console_log_run in H. injection H as _ <-.
    eexists. cbv zeta. rewrite Hfreeze. done.
Qed.

(** X16: the disk a run of [onExecute] that returned leaves behind is
    the disk its last npm command left: [npm shrinkwrap] in full mode,
    [npm install] in lazy mode, run with the configured tool in the
    common folder.  Nothing is written or removed after it. *)
Theorem last_command_decides_disk (env : Env) (lazyParameter : bool) (w : World) :
  (onExecute lazyParameter env w).1 = Ok tt →
  ∃ cfg f,
    loadFromDefaultLocation env (fs w) = Ok cfg ∧
    let cmd := executeCommand env (npmToolFilename cfg)
                 (lastCommandArgs cfg lazyParameter) (commonFolder cfg) f in
    is_ok cmd.1 = true ∧ fs (onExecute lazyParameter env w).2 = cmd.2.
Proof.
  destruct (onExecute lazyParameter env w) as [r w'] eqn:Hrun. simpl. intros ->.
  rewrite onExecute_afterLoad in Hrun. bind_inv Hrun as H1.
  apply stage_load_config in H1. exists a.
  unfold afterLoad, fromCreate in Hrun.
  do 4 (bind_inv Hrun as Hstage; clear Hstage).
  bind_inv Hrun as H6. rewrite stage_run in H6.
  destruct (installAndFreeze a lazyParameter env _) as [[[]|e] w6] eqn:Hinstall;
    [|done].
  injection H6 as _ <-.
  apply installAndFreeze_ok_disk in Hinstall as (f & Hok & Hfs).
  exists f. split; [done|]. cbv zeta in *. split; [done|].
  unfold finish in Hrun. rewrite bind_run, ask_run in Hrun. cbv beta iota in Hrun.
  rewrite bind_run, console_log_run in Hrun. cbv beta iota in Hrun.
  rewrite console_log_run in Hrun. injection Hrun as <-. exact Hfs.
Qed.

Lemma last_command_decides_disk_witness :
  ∃ cfg f,
    loadFromDefaultLocation (demo_env demo_config) (fs (world_of demo_fs)) = Ok cfg ∧
    let cmd := executeCommand (demo_env demo_config) (npmToolFilename cfg)
                 (lastCommandArgs cfg false) (commonFolder cfg) f in
    is_ok cmd.1 = true ∧
    fs (onExecute false (demo_env demo_config) (world_of demo_fs)).2 = cmd.2.
Proof.
  apply (last_command_decides_disk (demo_env demo_config) false (world_of demo_fs)).
  vm_compute. reflexivity.
Defined.

(* ===================================================================== *)
(** ** Where the errors of a run come from *)
(* ===================================================================== *)

Section Provenance.
Context (env : Env).

Let P := raised_by env.

Lemma raised_stage {A} (s : Stage) (m : M A) :
  throws_only env P m → throws_only env P (stage s m).
Proof.
  intros Hm w e w'. rewrite stage_run.
  destruct (m env _) as [[a|e1] w1] eqn:Hrun; [done|].
  intros [= <- _]. by eapply Hm.
Qed.

Lemma raised_call (ev : Event) (f : Env → FS → Result unit * FS) :
  (∀ f0 e, (f env f0).1 = Throw e → P e) → throws_only env P (call ev f).
Proof. intros Hf w e w'. rewrite call_run. intros [= He _]. by eapply Hf. Qed.

Lemma raised_for_of {A} (l : list A) (body : A → M unit) :
  (∀ x, throws_only env P (body x)) → throws_only env P (for_of l body).
Proof.
  intros Hbody. induction l as [|x l IH]; simpl.
  - by apply throws_only_never.
  - apply throws_only_bind; [apply Hbody|by intros _].
Qed.

Lemma raised_recycleDirectory cfg p : throws_only env P (recycleDirectory cfg p).
Proof.
  intros w e w'. rewrite recycleDirectory_run. simpl.
  destruct (fs_fault env _); [intros [= <- _]; by left|].
  destruct (exists_at (fs w) p); [done|intros [= <- _]; by left].
Qed.

Lemma raised_dangerouslyDeletePath p : throws_only env P (dangerouslyDeletePath p).
Proof.
  intros w e w'. rewrite dangerouslyDeletePath_run. simpl.
  destruct (fs_fault env _); [intros [= <- _]; by left|done].
Qed.

Lemma raised_delete_if_exists (p : list string) (msg : string) :
  throws_only env P
    (found ← existsSync p;
     if (found : bool) then console_log msg;; dangerouslyDeletePath p
     else mret tt).
Proof.
  apply throws_only_bind; [by apply throws_only_never|intros []].
  - apply throws_only_bind; [by apply throws_only_never|intros _].
    apply raised_dangerouslyDeletePath.
  - by apply throws_only_never.
Qed.

Lemma raised_deleteShrinkwrapFile cfg :
  throws_only env P (_deleteShrinkwrapFile cfg).
Proof.
  exact (raised_delete_if_exists (shrinkwrapFilename cfg)
           "Deleting common/npm-shrinkwrap.json").
Qed.

Lemma raised_deleteCommonTempModules cfg :
  throws_only env P (_deleteCommonTempModules cfg).
Proof.
  exact (raised_delete_if_exists (tempModulesFolder cfg)
           "Deleting common/temp_modules folder").
Qed.

Lemma raised_deleteCommonNodeModules cfg isLazy :
  throws_only env P (_deleteCommonNodeModules cfg isLazy).
Proof.
  unfold _deleteCommonNodeModules. destruct isLazy.
  - apply throws_only_bind; [by apply throws_only_never|intros _].
    apply throws_only_bind; [by apply throws_only_never|intros matches].
    apply raised_for_of. intros p. apply raised_recycleDirectory.
  - apply throws_only_bind; [by apply throws_only_never|intros []].
    + apply throws_only_bind; [by apply throws_only_never|intros _].
      apply raised_recycleDirectory.
    + by apply throws_only_never.
Qed.

Lemma raised_createCommonTempModulesAndPackageJson cfg :
  throws_only env P (_createCommonTempModulesAndPackageJson cfg).
Proof.
  intros w e w' Hrun. apply create_errors in Hrun as [->|Hgen]; [by left|].
  do 4 right. left. eauto.
Qed.

Lemma raised_loadAndSnapshot : throws_only env P loadAndSnapshot.
Proof.
  unfold loadAndSnapshot.
  apply throws_only_bind; [|intros cfg].
  { intros w e w'. rewrite loadConfiguration_run. intros [= Hload _].
    right. left. eauto. }
  apply throws_only_bind; [by apply throws_only_never|intros env'].
  apply throws_only_bind; [by apply throws_only_never|intros _].
  apply throws_only_bind; [|intros _; by apply throws_only_never].
  destruct (truthy _); [|by apply throws_only_never].
  apply throws_only_bind; [|intros _]; apply raised_call; intros f0 e He.
  - do 2 right. left. eauto.
  - do 3 right. left. eauto.
Qed.

Lemma raised_installAndFreeze cfg isLazy :
  throws_only env P (installAndFreeze cfg isLazy).
Proof.
  assert (∀ tool args cwd,
            throws_only env P
              (call (EvExecuteCommand tool args cwd)
                 (λ env0, executeCommand env0 tool args cwd))) as Hexec.
  { intros tool args cwd. apply raised_call. intros f0 e He.
    do 6 right. eauto 6. }
  unfold installAndFreeze, _runNpmInstall, _runNpmShrinkWrap.
  apply throws_only_bind; [by apply throws_only_never|intros _].
  apply throws_only_bind; [|intros _].
  { apply raised_call. intros f0 e He. do 5 right. left. eauto. }
  apply throws_only_bind; [|intros _].
  { apply throws_only_bind; [by apply throws_only_never|intros env'].
    apply throws_only_bind; [by apply throws_only_never|intros _].
    apply throws_only_bind; [apply Hexec|intros _; by apply throws_only_never]. }
  apply throws_only_bind; [by apply throws_only_never|intros env'].
  destruct isLazy; [by apply throws_only_never|].
  apply throws_only_bind; [by apply throws_only_never|intros _].
  apply throws_only_bind; [apply Hexec|intros _; by apply throws_only_never].
Qed.
End Provenance.


